(** * HyperCore devtool examples: action codec, precompile decoder, batch aggregator

    A shallow embedding of the two Python example programs
    [examples/python/corewriter_example.py] (the CoreWriter action codec) and
    [examples/python/multicall_example.py] (the Multicall3 batch reader),
    followed by the properties of the specification stated over it.

    Python values are modelled as follows:
    - [int] is [Z] (unbounded);
    - [bytes] is [list byte];
    - [str] is the list of its Unicode code points ([list Z]), so that
      [ord] and [chr] are the identity;
    - a [list] is a [list], a [dict] keyed by integers is a [gmap Z _];
    - a computation that may raise is a [result], the error monad below;
      [try: ... except Exception: ...] is a match on it. *)

From Stdlib Require Import ZArith Lia List Ascii String.
From Stdlib Require Import Strings.Byte.
From stdpp Require Import base list gmap.
Import ListNotations.

Local Open Scope Z_scope.

(** ** Python runtime model *)

(** The exception classes that the two programs can meet.  All of them are
    subclasses of [Exception].  [EncodingError] and [DecodingError] are the
    two families of eth_abi: [ValueOutOfBounds] and [EncodingTypeError] on
    one side, [InsufficientDataBytes] and [NonEmptyPaddingBytes] on the
    other. *)
Inductive exn : Type :=
| IndexError
| ValueError
| TypeError
| KeyError
| EncodingError
| DecodingError.

Inductive result (A : Type) : Type :=
| Ok (a : A)
| Raise (e : exn).
Arguments Ok {A} a.
Arguments Raise {A} e.

(** [result] is an error monad; stdpp's notation [x ← r; k] sequences two
    steps and propagates the first exception raised. *)
#[global] Instance result_ret : MRet result := fun A a => Ok a.
#[global] Instance result_bind : MBind result := fun A B k r =>
  match r with
  | Ok a => k a
  | Raise e => Raise e
  end.

Definition raises {A : Type} (r : result A) : Prop :=
  match r with
  | Ok _ => False
  | Raise _ => True
  end.

(** [try: body  except Exception: return None] *)
Definition try_except_none {A : Type} (body : result A) : option A :=
  match body with
  | Ok a => Some a
  | Raise _ => None
  end.

Definition byte_of_Z (z : Z) : byte :=
  match Byte.of_N (Z.to_N (z mod 256)) with
  | Some b => b
  | None => x00
  end.

Definition Z_of_byte (b : byte) : Z := Z.of_N (Byte.to_N b).

Definition bytes := list byte.
Definition codepoint := Z.
Definition str := list codepoint.

(** A string literal as a Python [str] (code points below 256). *)
Definition str_lit (s : string) : str :=
  map (fun c => Z.of_N (N_of_ascii c)) (list_ascii_of_string s).

Definition len {A : Type} (l : list A) : Z := Z.of_nat (length l).

(** Sequence indexing [l[i]]: negative indices count from the end, an index
    out of range raises [IndexError]. *)
Definition getitem {A : Type} (l : list A) (i : Z) : result A :=
  let j := if i <? 0 then i + len l else i in
  if j <? 0 then Raise IndexError
  else match l !! Z.to_nat j with
       | Some a => Ok a
       | None => Raise IndexError
       end.

(** A slice bound after Python's adjustment: a negative bound counts from the
    end, and the result is clamped to [0, len]. *)
Definition clamp_index {A : Type} (l : list A) (i : Z) : nat :=
  let j := if i <? 0 then i + len l else i in
  Z.to_nat (Z.max 0 (Z.min (len l) j)).

(** [l[a:b]]; never raises. *)
Definition slice {A : Type} (l : list A) (a b : Z) : list A :=
  drop (clamp_index l a) (take (clamp_index l b) l).

(** [l[a:]] *)
Definition slice_from {A : Type} (l : list A) (a : Z) : list A :=
  drop (clamp_index l a) l.

(** Number of elements of [range(start, stop, step)]. *)
Definition range_len (start stop step : Z) : Z :=
  if 0 <? step then
    if start <? stop then (stop - start - 1) / step + 1 else 0
  else
    if stop <? start then (start - stop - 1) / (- step) + 1 else 0.

(** [range(start, stop, step)], which raises [ValueError] when [step] is 0. *)
Definition range3 (start stop step : Z) : result (list Z) :=
  if step =? 0 then Raise ValueError
  else Ok (map (fun k => start + Z.of_nat k * step)
               (seq 0 (Z.to_nat (range_len start stop step)))).

(** [list(range(n))] *)
Definition range (n : Z) : list Z :=
  map Z.of_nat (seq 0 (Z.to_nat n)).

(** [enumerate(l)] *)
Definition enumerate {A : Type} (l : list A) : list (Z * A) :=
  zip (range (len l)) l.

(** [[f(x) for x in l]] where [f] may raise: items are evaluated from the
    left and the first exception ends the comprehension. *)
Fixpoint comprehension {A B : Type} (f : A -> result B) (l : list A)
  : result (list B) :=
  match l with
  | [] => Ok []
  | x :: l' => y ← f x; ys ← comprehension f l'; Ok (y :: ys)
  end.

(** [for x in l: acc = body(acc, x)] where the body may raise. *)
Fixpoint for_each {A S : Type} (body : S -> A -> result S) (l : list A) (acc : S)
  : result S :=
  match l with
  | [] => Ok acc
  | x :: l' => acc' ← body acc x; for_each body l' acc'
  end.

(** [chr(i)] *)
Definition chr (i : Z) : result codepoint :=
  if (0 <=? i) && (i <=? 1114111) then Ok i else Raise ValueError.

(** ** Python builtins on [bytes] and [str] *)

(** [bytes([v0, v1, ...])]: every item must be in [range(256)]. *)
Fixpoint bytes_of_ints (vs : list Z) : result bytes :=
  match vs with
  | [] => Ok []
  | v :: vs' =>
      if (0 <=? v) && (v <? 256)
      then bs ← bytes_of_ints vs'; Ok (byte_of_Z v :: bs)
      else Raise ValueError
  end.

(** [v.to_bytes(n, 'big')] for [0 <= v < 256^n]. *)
Fixpoint to_bytes_big (n : nat) (v : Z) : bytes :=
  match n with
  | O => []
  | S k => to_bytes_big k (v / 256) ++ [byte_of_Z v]
  end.

(** [int.from_bytes(b, 'big')] *)
Definition from_bytes_big (b : bytes) : Z :=
  fold_left (fun acc x => acc * 256 + Z_of_byte x) b 0.

(** The digit of [0 <= d < 16] in lower-case hexadecimal, as a code point. *)
Definition hex_digit (d : Z) : codepoint :=
  if d <? 10 then 48 + d else 87 + d.

(** [b.hex()] *)
Definition bytes_hex (b : bytes) : str :=
  flat_map (fun x => [hex_digit (Z_of_byte x / 16);
                      hex_digit (Z_of_byte x mod 16)]) b.

(** Value of a hexadecimal digit character ([0-9], [a-f], [A-F]). *)
Definition hex_value (c : codepoint) : option Z :=
  if (48 <=? c) && (c <=? 57) then Some (c - 48)
  else if (97 <=? c) && (c <=? 102) then Some (c - 87)
  else if (65 <=? c) && (c <=? 70) then Some (c - 55)
  else None.

(** ASCII whitespace as [bytes.fromhex] sees it: space, and [\t \n \v \f \r]. *)
Definition is_space (c : codepoint) : bool :=
  (c =? 32) || ((9 <=? c) && (c <=? 13)).

(** [bytes.fromhex(s)]: two hexadecimal digits per byte; whitespace is skipped
    between bytes; anything else raises [ValueError]. *)
Fixpoint bytes_fromhex (s : str) : result bytes :=
  match s with
  | [] => Ok []
  | c :: rest =>
      if is_space c then bytes_fromhex rest
      else
        match hex_value c, rest with
        | Some hi, d :: rest' =>
            match hex_value d with
            | Some lo => bs ← bytes_fromhex rest'; Ok (byte_of_Z (hi * 16 + lo) :: bs)
            | None => Raise ValueError
            end
        | _, _ => Raise ValueError
        end
  end.

(** [s.replace("0x", "")]: every occurrence of the two characters [0x],
    scanning from the left, is removed. *)
Fixpoint replace_0x (s : str) : str :=
  match s with
  | 48 :: 120 :: rest => replace_0x rest
  | c :: rest => c :: replace_0x rest
  | [] => []
  end.

(** [s.startswith("0x")] *)
Definition startswith_0x (s : str) : bool :=
  match s with
  | 48 :: 120 :: _ => true
  | _ => false
  end.

(** [int(s, 16)] on a string of hexadecimal digits, as [bytes.hex] and its
    slices produce them: the empty string raises [ValueError].  (The signs,
    underscores, blanks and the [0x] prefix that [int] also accepts do not
    occur in such strings; the model raises on them.) *)
Definition int16_digits (s : str) : option Z :=
  fold_left (fun acc c =>
               match acc, hex_value c with
               | Some a, Some d => Some (a * 16 + d)
               | _, _ => None
               end) s (Some 0).

Definition int16 (s : str) : result Z :=
  match s with
  | [] => Raise ValueError
  | _ => match int16_digits s with
         | Some v => Ok v
         | None => Raise ValueError
         end
  end.

(** [s.encode('utf8')]: one to four bytes per code point; a surrogate
    (U+D800..U+DFFF) cannot be encoded and raises [UnicodeEncodeError], a
    [ValueError]. *)
Definition utf8_char (c : codepoint) : result bytes :=
  if (c <? 0) || (1114111 <? c) then Raise ValueError
  else if c <? 128 then Ok [byte_of_Z c]
  else if c <? 2048 then
    Ok [byte_of_Z (192 + c / 64); byte_of_Z (128 + c mod 64)]
  else if (55296 <=? c) && (c <=? 57343) then Raise ValueError
  else if c <? 65536 then
    Ok [byte_of_Z (224 + c / 4096); byte_of_Z (128 + (c / 64) mod 64);
        byte_of_Z (128 + c mod 64)]
  else
    Ok [byte_of_Z (240 + c / 262144); byte_of_Z (128 + (c / 4096) mod 64);
        byte_of_Z (128 + (c / 64) mod 64); byte_of_Z (128 + c mod 64)].

Fixpoint utf8_encode (s : str) : result bytes :=
  match s with
  | [] => Ok []
  | c :: rest => b ← utf8_char c; bs ← utf8_encode rest; Ok (b ++ bs)
  end.

(** ** The eth_abi package: [encode] and [decode]

    The two programs import [encode] and [decode] from eth_abi (version 4 and
    later, default strict decoding); this is the part of its behaviour they
    use, following the contract ABI the package implements. *)
Module EthAbi.

(** The type strings ["uintN"], ["intN"], ["bool"], ["address"], ["string"]. *)
Inductive abi_type : Type :=
| Tuint (bits : Z)
| Tint (bits : Z)
| Tbool
| Taddress
| Tstring.

(** The Python values handed to [encode] and returned by [decode].  An
    address is held as the 160-bit number its 40 hexadecimal digits denote. *)
Inductive value : Type :=
| VInt (z : Z)
| VBool (b : bool)
| VAddr (a : Z)
| VStr (s : str).

Definition is_dynamic (t : abi_type) : bool :=
  match t with
  | Tstring => true
  | _ => false
  end.

Definition encode_uint_256 (v : Z) : bytes := to_bytes_big 32 v.

Definition ceil32 (x : Z) : Z :=
  if x mod 32 =? 0 then x else x + 32 - x mod 32.

(** [value.ljust(n, b'\0')] *)
Definition zpad_right (b : bytes) (n : Z) : bytes :=
  b ++ replicate (Z.to_nat (n - len b)) x00.

(** One encoder call: [validate_value] then the 32-byte word, or for a
    string its length word and padded bytes.  A value of the wrong Python
    type or out of the type's bounds raises an [EncodingError]. *)
Definition encode_value (t : abi_type) (v : value) : result bytes :=
  match t, v with
  | Tuint bits, VInt z =>
      if (0 <=? z) && (z <? 2 ^ bits) then Ok (encode_uint_256 z)
      else Raise EncodingError
  | Tint bits, VInt z =>
      if (- 2 ^ (bits - 1) <=? z) && (z <? 2 ^ (bits - 1))
      then Ok (encode_uint_256 (z mod 2 ^ 256))
      else Raise EncodingError
  | Tbool, VBool b => Ok (encode_uint_256 (if b then 1 else 0))
  | Taddress, VAddr a =>
      if (0 <=? a) && (a <? 2 ^ 160) then Ok (encode_uint_256 a)
      else Raise EncodingError
  | Tstring, VStr s =>
      value_as_bytes ← utf8_encode s;
      let value_length := len value_as_bytes in
      Ok (encode_uint_256 value_length
            ++ zpad_right value_as_bytes (ceil32 value_length))
  | _, _ => Raise EncodingError
  end.

(** The chunks of the tuple encoder: for each item its head chunk ([None]
    stands for the offset word of a dynamic item) and its tail chunk. *)
Fixpoint encode_chunks (types : list abi_type) (args : list value)
  : result (list (option bytes * bytes)) :=
  match types, args with
  | [], [] => Ok []
  | t :: types', v :: args' =>
      e ← encode_value t v;
      rest ← encode_chunks types' args';
      Ok ((if is_dynamic t then (None, e) else (Some e, [])) :: rest)
  | _, _ => Raise EncodingError
  end.

Definition head_length (chunks : list (option bytes * bytes)) : Z :=
  fold_left (fun acc c => acc + match fst c with
                                | None => 32
                                | Some item => len item
                                end) chunks 0.

(** Head chunks with the offsets filled in; [offset] is the running length of
    the tail chunks already placed. *)
Fixpoint head_chunks (hl offset : Z) (chunks : list (option bytes * bytes))
  : list bytes :=
  match chunks with
  | [] => []
  | (h, t) :: rest =>
      match h with
      | None => encode_uint_256 (hl + offset)
      | Some chunk => chunk
      end :: head_chunks hl (offset + len t) rest
  end.

(** [encode(types, args)] *)
Definition encode (types : list abi_type) (args : list value) : result bytes :=
  chunks ← encode_chunks types args;
  let hl := head_length chunks in
  Ok (concat (head_chunks hl 0 chunks) ++ concat (map snd chunks)).

(** Decoding of one 32-byte word of a static type, strict: the padding bytes
    must be the zero- or sign-extension of the value. *)
Definition decode_word (t : abi_type) (w : bytes) : result value :=
  let raw := from_bytes_big w in
  match t with
  | Tuint bits =>
      if raw <? 2 ^ bits then Ok (VInt raw) else Raise DecodingError
  | Tint bits =>
      let low := raw mod 2 ^ bits in
      let v := if low <? 2 ^ (bits - 1) then low else low - 2 ^ bits in
      if raw =? v mod 2 ^ 256 then Ok (VInt v) else Raise DecodingError
  | Tbool =>
      if raw =? 0 then Ok (VBool false)
      else if raw =? 1 then Ok (VBool true)
      else Raise DecodingError
  | Taddress =>
      if raw <? 2 ^ 160 then Ok (VAddr raw) else Raise DecodingError
  | Tstring => Raise DecodingError
  end.

(** [decode(types, data)] for static types: the words are read in order from
    the front of [data]; a word that is not complete raises
    [InsufficientDataBytes]; bytes after the last word are ignored.  (The
    programs never decode a ["string"] with eth_abi.) *)
Fixpoint decode (types : list abi_type) (data : bytes) : result (list value) :=
  match types with
  | [] => Ok []
  | t :: types' =>
      let w := take 32 data in
      if len w =? 32
      then v ← decode_word t w; vs ← decode types' (drop 32 data); Ok (v :: vs)
      else Raise DecodingError
  end.

End EthAbi.

(** ** web3: addresses

    An account address is text, 40 hexadecimal digits after [0x]; it is held
    here as the 160-bit number those digits denote.
    [Web3.to_checksum_address] re-spells the digits in EIP-55 mixed case,
    which leaves the number unchanged, and raises [ValueError] for text that
    is not an address. *)
Definition address := Z.

Definition is_address (a : address) : bool := (0 <=? a) && (a <? 2 ^ 160).

Definition to_checksum_address (a : address) : result address :=
  if is_address a then Ok a else Raise ValueError.

(** ** corewriter_example.py *)
Module CoreWriter.
Import EthAbi.

Inductive ActionId : Type :=
| LIMIT_ORDER
| VAULT_TRANSFER
| TOKEN_DELEGATE
| STAKING_DEPOSIT
| STAKING_WITHDRAW
| SPOT_SEND
| USD_CLASS_TRANSFER
| FINALIZE_EVM_CONTRACT
| ADD_API_WALLET
| CANCEL_ORDER_BY_OID
| CANCEL_ORDER_BY_CLOID
| APPROVE_BUILDER_FEE
| SEND_ASSET
| REFLECT_EVM_SUPPLY
| BORROW_LEND_OP.

(** The integer value of a member of the [IntEnum]. *)
Definition ActionId_value (a : ActionId) : Z :=
  match a with
  | LIMIT_ORDER => 1
  | VAULT_TRANSFER => 2
  | TOKEN_DELEGATE => 3
  | STAKING_DEPOSIT => 4
  | STAKING_WITHDRAW => 5
  | SPOT_SEND => 6
  | USD_CLASS_TRANSFER => 7
  | FINALIZE_EVM_CONTRACT => 8
  | ADD_API_WALLET => 9
  | CANCEL_ORDER_BY_OID => 10
  | CANCEL_ORDER_BY_CLOID => 11
  | APPROVE_BUILDER_FEE => 12
  | SEND_ASSET => 13
  | REFLECT_EVM_SUPPLY => 14
  | BORROW_LEND_OP => 15
  end.

Definition VERSION : Z := 1.

(** The parameter dataclasses; an [int] field is a [Z], whatever width its
    comment announces: the bounds are checked by [encode]. *)
Module LimitOrderParams.
Record t : Type := mk
  { asset : Z; is_buy : bool; limit_px : Z; sz : Z;
    reduce_only : bool; encoded_tif : Z; cloid : Z }.
End LimitOrderParams.

Module VaultTransferParams.
Record t : Type := mk { vault : address; is_deposit : bool; usd : Z }.
End VaultTransferParams.

Module TokenDelegateParams.
Record t : Type := mk { validator : address; wei : Z; is_undelegate : bool }.
End TokenDelegateParams.

Module StakingParams.
Record t : Type := mk { wei : Z }.
End StakingParams.

Module SpotSendParams.
Record t : Type := mk { destination : address; token : Z; wei : Z }.
End SpotSendParams.

Module UsdClassTransferParams.
Record t : Type := mk { ntl : Z; to_perp : bool }.
End UsdClassTransferParams.

Module FinalizeEvmContractParams.
Record t : Type := mk { token : Z; variant : Z; create_nonce : Z }.
End FinalizeEvmContractParams.

Module AddApiWalletParams.
Record t : Type := mk { wallet : address; name : str }.
End AddApiWalletParams.

Module CancelOrderByOidParams.
Record t : Type := mk { asset : Z; oid : Z }.
End CancelOrderByOidParams.

Module CancelOrderByCloidParams.
Record t : Type := mk { asset : Z; cloid : Z }.
End CancelOrderByCloidParams.

Module ApproveBuilderFeeParams.
Record t : Type := mk { max_fee_rate : Z; builder : address }.
End ApproveBuilderFeeParams.

Module SendAssetParams.
Record t : Type := mk
  { dest : address; sub_account : address; src_dex : Z; dest_dex : Z;
    token : Z; wei : Z }.
End SendAssetParams.

Module ReflectEvmSupplyParams.
Record t : Type := mk { token : Z; wei : Z; is_mint : bool }.
End ReflectEvmSupplyParams.

Module BorrowLendOpParams.
Record t : Type := mk { operation : Z; token : Z; wei : Z }.
End BorrowLendOpParams.

(** [HyperCoreWriter._encode_header] *)
Definition _encode_header (action_id : Z) : result bytes :=
  bytes_of_ints
    [ VERSION;
      Z.land (Z.shiftr action_id 16) 255;
      Z.land (Z.shiftr action_id 8) 255;
      Z.land action_id 255 ].

(** [HyperCoreWriter._concat_bytes] *)
Definition _concat_bytes (header data : bytes) : bytes := header ++ data.

Definition build_limit_order (params : LimitOrderParams.t) : result bytes :=
  header ← _encode_header (ActionId_value LIMIT_ORDER);
  data ← encode
    [Tuint 32; Tbool; Tuint 64; Tuint 64; Tbool; Tuint 8; Tuint 128]
    [VInt (LimitOrderParams.asset params); VBool (LimitOrderParams.is_buy params);
     VInt (LimitOrderParams.limit_px params); VInt (LimitOrderParams.sz params);
     VBool (LimitOrderParams.reduce_only params);
     VInt (LimitOrderParams.encoded_tif params);
     VInt (LimitOrderParams.cloid params)];
  Ok (_concat_bytes header data).

Definition build_vault_transfer (params : VaultTransferParams.t) : result bytes :=
  header ← _encode_header (ActionId_value VAULT_TRANSFER);
  vault_addr ← to_checksum_address (VaultTransferParams.vault params);
  data ← encode
    [Taddress; Tbool; Tuint 64]
    [VAddr vault_addr; VBool (VaultTransferParams.is_deposit params);
     VInt (VaultTransferParams.usd params)];
  Ok (_concat_bytes header data).

Definition build_token_delegate (params : TokenDelegateParams.t) : result bytes :=
  header ← _encode_header (ActionId_value TOKEN_DELEGATE);
  validator_addr ← to_checksum_address (TokenDelegateParams.validator params);
  data ← encode
    [Taddress; Tuint 64; Tbool]
    [VAddr validator_addr; VInt (TokenDelegateParams.wei params);
     VBool (TokenDelegateParams.is_undelegate params)];
  Ok (_concat_bytes header data).

Definition build_staking_deposit (params : StakingParams.t) : result bytes :=
  header ← _encode_header (ActionId_value STAKING_DEPOSIT);
  data ← encode [Tuint 64] [VInt (StakingParams.wei params)];
  Ok (_concat_bytes header data).

Definition build_staking_withdraw (params : StakingParams.t) : result bytes :=
  header ← _encode_header (ActionId_value STAKING_WITHDRAW);
  data ← encode [Tuint 64] [VInt (StakingParams.wei params)];
  Ok (_concat_bytes header data).

Definition build_spot_send (params : SpotSendParams.t) : result bytes :=
  header ← _encode_header (ActionId_value SPOT_SEND);
  dest_addr ← to_checksum_address (SpotSendParams.destination params);
  data ← encode
    [Taddress; Tuint 64; Tuint 64]
    [VAddr dest_addr; VInt (SpotSendParams.token params);
     VInt (SpotSendParams.wei params)];
  Ok (_concat_bytes header data).

Definition build_usd_class_transfer (params : UsdClassTransferParams.t)
  : result bytes :=
  header ← _encode_header (ActionId_value USD_CLASS_TRANSFER);
  data ← encode
    [Tuint 64; Tbool]
    [VInt (UsdClassTransferParams.ntl params);
     VBool (UsdClassTransferParams.to_perp params)];
  Ok (_concat_bytes header data).

Definition build_finalize_evm_contract (params : FinalizeEvmContractParams.t)
  : result bytes :=
  header ← _encode_header (ActionId_value FINALIZE_EVM_CONTRACT);
  data ← encode
    [Tuint 64; Tuint 8; Tuint 64]
    [VInt (FinalizeEvmContractParams.token params);
     VInt (FinalizeEvmContractParams.variant params);
     VInt (FinalizeEvmContractParams.create_nonce params)];
  Ok (_concat_bytes header data).

Definition build_add_api_wallet (params : AddApiWalletParams.t) : result bytes :=
  header ← _encode_header (ActionId_value ADD_API_WALLET);
  wallet_addr ← to_checksum_address (AddApiWalletParams.wallet params);
  data ← encode
    [Taddress; Tstring]
    [VAddr wallet_addr; VStr (AddApiWalletParams.name params)];
  Ok (_concat_bytes header data).

Definition build_cancel_order_by_oid (params : CancelOrderByOidParams.t)
  : result bytes :=
  header ← _encode_header (ActionId_value CANCEL_ORDER_BY_OID);
  data ← encode
    [Tuint 32; Tuint 64]
    [VInt (CancelOrderByOidParams.asset params);
     VInt (CancelOrderByOidParams.oid params)];
  Ok (_concat_bytes header data).

Definition build_cancel_order_by_cloid (params : CancelOrderByCloidParams.t)
  : result bytes :=
  header ← _encode_header (ActionId_value CANCEL_ORDER_BY_CLOID);
  data ← encode
    [Tuint 32; Tuint 128]
    [VInt (CancelOrderByCloidParams.asset params);
     VInt (CancelOrderByCloidParams.cloid params)];
  Ok (_concat_bytes header data).

Definition build_approve_builder_fee (params : ApproveBuilderFeeParams.t)
  : result bytes :=
  header ← _encode_header (ActionId_value APPROVE_BUILDER_FEE);
  builder_addr ← to_checksum_address (ApproveBuilderFeeParams.builder params);
  data ← encode
    [Tuint 64; Taddress]
    [VInt (ApproveBuilderFeeParams.max_fee_rate params); VAddr builder_addr];
  Ok (_concat_bytes header data).

Definition build_send_asset (params : SendAssetParams.t) : result bytes :=
  header ← _encode_header (ActionId_value SEND_ASSET);
  dest_addr ← to_checksum_address (SendAssetParams.dest params);
  sub_addr ← to_checksum_address (SendAssetParams.sub_account params);
  data ← encode
    [Taddress; Taddress; Tuint 32; Tuint 32; Tuint 64; Tuint 64]
    [VAddr dest_addr; VAddr sub_addr;
     VInt (SendAssetParams.src_dex params); VInt (SendAssetParams.dest_dex params);
     VInt (SendAssetParams.token params); VInt (SendAssetParams.wei params)];
  Ok (_concat_bytes header data).

Definition build_reflect_evm_supply (params : ReflectEvmSupplyParams.t)
  : result bytes :=
  header ← _encode_header (ActionId_value REFLECT_EVM_SUPPLY);
  data ← encode
    [Tuint 64; Tuint 64; Tbool]
    [VInt (ReflectEvmSupplyParams.token params);
     VInt (ReflectEvmSupplyParams.wei params);
     VBool (ReflectEvmSupplyParams.is_mint params)];
  Ok (_concat_bytes header data).

Definition build_borrow_lend_op (params : BorrowLendOpParams.t) : result bytes :=
  header ← _encode_header (ActionId_value BORROW_LEND_OP);
  data ← encode
    [Tuint 8; Tuint 64; Tuint 64]
    [VInt (BorrowLendOpParams.operation params);
     VInt (BorrowLendOpParams.token params);
     VInt (BorrowLendOpParams.wei params)];
  Ok (_concat_bytes header data).

(** The argument of [decode_action]: [bytes], or a [str] of hexadecimal text. *)
Inductive bytes_or_str : Type :=
| Bytes (b : bytes)
| Str (s : str).

(** The dictionary that [decode_action] returns, by key. *)
Record DecodedAction : Type := mkDecodedAction
  { version : Z; action_id : Z; params : str }.

(** [HyperCoreWriter.decode_action] *)
Definition decode_action (data : bytes_or_str) : result DecodedAction :=
  data ← match data with
         | Str s => bytes_fromhex (replace_0x s)
         | Bytes b => Ok b
         end;
  version ← getitem data 0;
  b1 ← getitem data 1;
  b2 ← getitem data 2;
  b3 ← getitem data 3;
  let action_id :=
    Z.lor (Z.lor (Z.shiftl (Z_of_byte b1) 16) (Z.shiftl (Z_of_byte b2) 8))
          (Z_of_byte b3) in
  let params := slice_from data 4 in
  Ok {| version := Z_of_byte version;
        action_id := action_id;
        params := str_lit "0x" ++ bytes_hex params |}.

End CoreWriter.

(** ** multicall_example.py *)
Module Multicall.
Import EthAbi.

Definition MULTICALL3_ADDRESS : address :=
  0xcA11bde05977b3631167028862bE2a173976CA11.

(** The table [PRECOMPILES]; a key that is not in it raises [KeyError]. *)
Definition PRECOMPILES (key : string) : result address :=
  if String.eqb key "position" then Ok 0x800
  else if String.eqb key "spotBalance" then Ok 0x801
  else if String.eqb key "markPx" then Ok 0x806
  else if String.eqb key "oraclePx" then Ok 0x807
  else if String.eqb key "spotPx" then Ok 0x808
  else if String.eqb key "perpAssetInfo" then Ok 0x80a
  else if String.eqb key "spotInfo" then Ok 0x80b
  else if String.eqb key "tokenInfo" then Ok 0x80c
  else if String.eqb key "tokenSupply" then Ok 0x80d
  else Raise KeyError.

Module Position.
Record t : Type := mk
  { perp_index : Z; szi : Z; entry_ntl : Z; isolated_raw_usd : Z;
    leverage : Z; is_isolated : bool }.
Definition is_long (p : t) : bool := 0 <? szi p.
Definition is_short (p : t) : bool := szi p <? 0.
End Position.

Module SpotBalance.
Record t : Type := mk { token_index : Z; total : Z; hold : Z; entry_ntl : Z }.
End SpotBalance.

Module PerpAssetInfo.
Record t : Type := mk
  { index : Z; coin : str; margin_table_id : Z; sz_decimals : Z;
    max_leverage : Z; only_isolated : bool }.
End PerpAssetInfo.

(** [[lst[i:i + chunk_size] for i in range(0, len(lst), chunk_size)]] *)
Definition chunk_list {A : Type} (lst : list A) (chunk_size : Z)
  : result (list (list A)) :=
  starts ← range3 0 (len lst) chunk_size;
  Ok (map (fun i => slice lst i (i + chunk_size)) starts).

(** A Multicall3 request [(target, allowFailure, callData)] and a reply
    [(success, returnData)]. *)
Definition Call3 : Type := address * bool * bytes.
Definition Result3 : Type := bool * bytes.

(** [HyperCoreMulticall._encode_call] *)
Definition _encode_call (target : address) (calldata : bytes) : result Call3 :=
  target ← to_checksum_address target;
  Ok (target, true, calldata).

(** [HyperCoreMulticall._parse_perp_asset_info]: the statements inside
    [try], then the function with its [except Exception: return None]. *)
Definition read_uint (hex_data : str) (word_index : Z) : result Z :=
  let start := 2 + word_index * 64 in
  let slice_data := slice hex_data start (start + 64) in
  int16 slice_data.

Definition parse_coin (string_hex : str) : result str :=
  js ← range3 0 (len string_hex) 2;
  for_each (fun coin j =>
              char_code ← int16 (slice string_hex j (j + 2));
              if 0 <? char_code
              then c ← chr char_code; Ok (coin ++ [c])
              else Ok coin)
           js [].

Definition parse_perp_asset_info_try (hex_data : str) (index : Z)
  : result PerpAssetInfo.t :=
  let hex_data :=
    if negb (startswith_0x hex_data) then str_lit "0x" ++ hex_data
    else hex_data in
  word0 ← read_uint hex_data 0;
  let tuple_offset := word0 / 32 in
  string_offset ← read_uint hex_data tuple_offset;
  margin_table_id ← read_uint hex_data (tuple_offset + 1);
  sz_decimals ← read_uint hex_data (tuple_offset + 2);
  max_leverage ← read_uint hex_data (tuple_offset + 3);
  isolated_word ← read_uint hex_data (tuple_offset + 4);
  let only_isolated := negb (isolated_word =? 0) in
  let string_start := tuple_offset + string_offset / 32 in
  string_length ← read_uint hex_data string_start;
  let string_data_start := 2 + (string_start + 1) * 64 in
  let string_hex :=
    slice hex_data string_data_start (string_data_start + string_length * 2) in
  coin ← parse_coin string_hex;
  Ok (PerpAssetInfo.mk index coin margin_table_id sz_decimals max_leverage
                       only_isolated).

Definition _parse_perp_asset_info (hex_data : str) (index : Z)
  : option PerpAssetInfo.t :=
  try_except_none (parse_perp_asset_info_try hex_data index).

(** The body of the [for] loop of [batch_get_positions] for one reply: the
    position appended, if any. *)
Definition position_of_result (perp_indices : list Z) (i : Z) (r : Result3)
  : option Position.t :=
  let '(success, return_data) := r in
  if success && (32 <=? len return_data) then
    try_except_none
      (vals ← decode [Tint 64; Tuint 64; Tint 64; Tuint 32; Tbool] return_data;
       match vals with
       | [VInt szi; VInt entry_ntl; VInt isolated_raw_usd; VInt leverage;
          VBool is_isolated] =>
           perp_index ← getitem perp_indices i;
           Ok (Position.mk perp_index szi entry_ntl isolated_raw_usd leverage
                           is_isolated)
       | _ => Raise ValueError
       end)
  else None.

(** The body of the loop of [batch_get_spot_balances] for one reply. *)
Definition balance_of_result (token_indices : list Z) (i : Z) (r : Result3)
  : option SpotBalance.t :=
  let '(success, return_data) := r in
  if success && (24 <=? len return_data) then
    try_except_none
      (vals ← decode [Tuint 64; Tuint 64; Tuint 64] return_data;
       match vals with
       | [VInt total; VInt hold; VInt entry_ntl] =>
           token_index ← getitem token_indices i;
           Ok (SpotBalance.mk token_index total hold entry_ntl)
       | _ => Raise ValueError
       end)
  else None.

(** [for i, r in enumerate(results): x = body(i, r); if x: out.append(x)] *)
Definition collect {A B : Type} (body : Z -> A -> option B) (results : list A)
  : list B :=
  fold_left (fun out ir => match body (fst ir) (snd ir) with
                           | Some x => out ++ [x]
                           | None => out
                           end)
            (enumerate results) [].

(** The loop of [batch_get_mark_prices]: nothing is caught here. *)
Definition prices_of_results (perp_indices : list Z) (results : list Result3)
  : result (gmap Z Z) :=
  for_each (fun (prices : gmap Z Z) (ir : Z * Result3) =>
              let '(i, (success, return_data)) := ir in
              if success && (0 <? len return_data) then
                vals ← decode [Tuint 64] return_data;
                first ← getitem vals 0;
                match first with
                | VInt price =>
                    perp_index ← getitem perp_indices i;
                    Ok (<[perp_index := price]> prices)
                | _ => Raise TypeError
                end
              else Ok prices)
           (enumerate results) ∅.

(** The loop of [batch_get_perp_asset_info]. *)
Definition infos_of_results (perp_indices : list Z) (results : list Result3)
  : result (list PerpAssetInfo.t) :=
  for_each (fun infos (ir : Z * Result3) =>
              let '(i, (success, return_data)) := ir in
              if success && (0 <? len return_data) then
                index ← getitem perp_indices i;
                match _parse_perp_asset_info (bytes_hex return_data) index with
                | Some info => Ok (infos ++ [info])
                | None => Ok infos
                end
              else Ok infos)
           (enumerate results) [].

(** *** The batch calls

    [self.multicall.functions.aggregate3(calls).call()] is the one place
    where the program talks to the node.  The node is a parameter: from its
    current state and the requests it gives the replies (or the call raises)
    and its next state.  Every call made is recorded, with its outcome. *)
Section node.
Context {World : Type}.
Variable aggregate3 : list Call3 -> World -> result (list Result3) * World.

Record State : Type := mkState
  { world : World;
    calls_made : list (list Call3 * result (list Result3)) }.

(** A method of [HyperCoreMulticall]: it may raise, and it may call the node. *)
Definition M (A : Type) : Type := State -> result A * State.

Definition ret {A : Type} (a : A) : M A := fun st => (Ok a, st).

Definition lift {A : Type} (r : result A) : M A := fun st => (r, st).

Definition bindM {A B : Type} (m : M A) (k : A -> M B) : M B :=
  fun st => match m st with
            | (Ok a, st') => k a st'
            | (Raise e, st') => (Raise e, st')
            end.

Notation "'let*' x ':=' m 'in' k" := (bindM m (fun x => k))
  (at level 10, x name, m at level 100, k at level 200).

Definition call_aggregate3 (calls : list Call3) : M (list Result3) :=
  fun st =>
    let '(r, w) := aggregate3 calls (world st) in
    (r, {| world := w; calls_made := calls_made st ++ [(calls, r)] |}).

(** [for x in l: acc = body(acc, x)] for a body that may call the node. *)
Fixpoint for_eachM {A S : Type} (body : S -> A -> M S) (l : list A) (acc : S)
  : M S :=
  match l with
  | [] => ret acc
  | x :: l' => let* acc' := body acc x in for_eachM body l' acc'
  end.

Definition batch_get_mark_prices (perp_indices : list Z) : M (gmap Z Z) :=
  let* calls :=
    lift (comprehension
            (fun idx => target ← PRECOMPILES "markPx";
                        calldata ← encode [Tuint 32] [VInt idx];
                        _encode_call target calldata)
            perp_indices) in
  let* results := call_aggregate3 calls in
  lift (prices_of_results perp_indices results).

Definition get_all_mark_prices : M (gmap Z Z) :=
  let total_perps := 225 in
  let batch_size := 200 in
  let all_indices := range total_perps in
  let* chunks := lift (chunk_list all_indices batch_size) in
  for_eachM (fun (all_prices : gmap Z Z) chunk =>
               let* prices := batch_get_mark_prices chunk in
               ret (prices ∪ all_prices))
            chunks ∅.

Definition batch_get_positions (user : address) (perp_indices : list Z)
  : M (list Position.t) :=
  let* user_addr := lift (to_checksum_address user) in
  let* calls :=
    lift (comprehension
            (fun idx => target ← PRECOMPILES "position";
                        calldata ← encode [Taddress; Tuint 16]
                                          [VAddr user_addr; VInt idx];
                        _encode_call target calldata)
            perp_indices) in
  let* results := call_aggregate3 calls in
  ret (collect (position_of_result perp_indices) results).

Definition get_all_positions (user : address) : M (list Position.t) :=
  let total_perps := 225 in
  let batch_size := 200 in
  let all_indices := range total_perps in
  let* chunks := lift (chunk_list all_indices batch_size) in
  for_eachM (fun all_positions chunk =>
               let* positions := batch_get_positions user chunk in
               ret (all_positions ++ positions))
            chunks [].

Definition get_non_zero_positions (user : address) : M (list Position.t) :=
  let* all_positions := get_all_positions user in
  ret (filter (fun p => Position.szi p ≠ 0) all_positions).

Definition batch_get_spot_balances (user : address) (token_indices : list Z)
  : M (list SpotBalance.t) :=
  let* user_addr := lift (to_checksum_address user) in
  let* calls :=
    lift (comprehension
            (fun idx => target ← PRECOMPILES "spotBalance";
                        calldata ← encode [Taddress; Tuint 64]
                                          [VAddr user_addr; VInt idx];
                        _encode_call target calldata)
            token_indices) in
  let* results := call_aggregate3 calls in
  ret (collect (balance_of_result token_indices) results).

Definition get_all_spot_balances (user : address) : M (list SpotBalance.t) :=
  let total_tokens := 425 in
  let batch_size := 300 in
  let all_indices := range total_tokens in
  let* chunks := lift (chunk_list all_indices batch_size) in
  for_eachM (fun all_balances chunk =>
               let* balances := batch_get_spot_balances user chunk in
               ret (all_balances ++ balances))
            chunks [].

Definition get_non_zero_balances (user : address) : M (list SpotBalance.t) :=
  let* all_balances := get_all_spot_balances user in
  ret (filter (fun b => SpotBalance.total b ≠ 0) all_balances).

Definition batch_get_perp_asset_info (perp_indices : list Z)
  : M (list PerpAssetInfo.t) :=
  let* calls :=
    lift (comprehension
            (fun idx => target ← PRECOMPILES "perpAssetInfo";
                        calldata ← encode [Tuint 32] [VInt idx];
                        _encode_call target calldata)
            perp_indices) in
  let* results := call_aggregate3 calls in
  lift (infos_of_results perp_indices results).

End node.

End Multicall.

(** ** Notions used to state the properties *)

(** The [k]-th window of width [m] of a list. *)
Definition window {A : Type} (m : nat) (l : list A) (k : nat) : list A :=
  take m (drop (k * m) l).

(** The [w]-th 32-byte word of a byte string (shorter, or empty, where the
    string ends early). *)
Definition word_at (b : bytes) (w : Z) : bytes :=
  take 32 (drop (Z.to_nat (32 * w)) b).

Module CoreWriterSpec.
Import EthAbi CoreWriter.

(** The encoding of [AddApiWallet] for the name ["bot1"], with the offset
    word left open: header, address word, offset word, length word 4, the
    four bytes of the name and 28 zero bytes. *)
Definition bot1_layout (offset : Z) (wallet : address) : Prop :=
  build_add_api_wallet (AddApiWalletParams.mk wallet (str_lit "bot1")) =
  Ok ([x01; x00; x00; x09]
        ++ encode_uint_256 wallet
        ++ encode_uint_256 offset
        ++ encode_uint_256 4
        ++ [x62; x6f; x74; x31] ++ replicate 28 x00).

(** The tagged union of the 15 actions, each with its parameter record. *)
Inductive Action : Type :=
| LimitOrder (p : LimitOrderParams.t)
| VaultTransfer (p : VaultTransferParams.t)
| TokenDelegate (p : TokenDelegateParams.t)
| StakingDeposit (p : StakingParams.t)
| StakingWithdraw (p : StakingParams.t)
| SpotSend (p : SpotSendParams.t)
| UsdClassTransfer (p : UsdClassTransferParams.t)
| FinalizeEvmContract (p : FinalizeEvmContractParams.t)
| AddApiWallet (p : AddApiWalletParams.t)
| CancelOrderByOid (p : CancelOrderByOidParams.t)
| CancelOrderByCloid (p : CancelOrderByCloidParams.t)
| ApproveBuilderFee (p : ApproveBuilderFeeParams.t)
| SendAsset (p : SendAssetParams.t)
| ReflectEvmSupply (p : ReflectEvmSupplyParams.t)
| BorrowLendOp (p : BorrowLendOpParams.t).

Definition kind (a : Action) : ActionId :=
  match a with
  | LimitOrder _ => LIMIT_ORDER
  | VaultTransfer _ => VAULT_TRANSFER
  | TokenDelegate _ => TOKEN_DELEGATE
  | StakingDeposit _ => STAKING_DEPOSIT
  | StakingWithdraw _ => STAKING_WITHDRAW
  | SpotSend _ => SPOT_SEND
  | UsdClassTransfer _ => USD_CLASS_TRANSFER
  | FinalizeEvmContract _ => FINALIZE_EVM_CONTRACT
  | AddApiWallet _ => ADD_API_WALLET
  | CancelOrderByOid _ => CANCEL_ORDER_BY_OID
  | CancelOrderByCloid _ => CANCEL_ORDER_BY_CLOID
  | ApproveBuilderFee _ => APPROVE_BUILDER_FEE
  | SendAsset _ => SEND_ASSET
  | ReflectEvmSupply _ => REFLECT_EVM_SUPPLY
  | BorrowLendOp _ => BORROW_LEND_OP
  end.

(** The build function of each variant. *)
Definition build (a : Action) : result bytes :=
  match a with
  | LimitOrder p => build_limit_order p
  | VaultTransfer p => build_vault_transfer p
  | TokenDelegate p => build_token_delegate p
  | StakingDeposit p => build_staking_deposit p
  | StakingWithdraw p => build_staking_withdraw p
  | SpotSend p => build_spot_send p
  | UsdClassTransfer p => build_usd_class_transfer p
  | FinalizeEvmContract p => build_finalize_evm_contract p
  | AddApiWallet p => build_add_api_wallet p
  | CancelOrderByOid p => build_cancel_order_by_oid p
  | CancelOrderByCloid p => build_cancel_order_by_cloid p
  | ApproveBuilderFee p => build_approve_builder_fee p
  | SendAsset p => build_send_asset p
  | ReflectEvmSupply p => build_reflect_evm_supply p
  | BorrowLendOp p => build_borrow_lend_op p
  end.

(** [0 <= z < 2^bits] *)
Definition is_uint (bits z : Z) : bool := (0 <=? z) && (z <? 2 ^ bits).

(** A parameter record is well typed when every field holds a value of the
    type announced for it: an unsigned integer of the stated width, a
    20-byte address, text that UTF-8 can encode. *)
Definition well_typed (a : Action) : bool :=
  match a with
  | LimitOrder p =>
      is_uint 32 (LimitOrderParams.asset p)
      && is_uint 64 (LimitOrderParams.limit_px p)
      && is_uint 64 (LimitOrderParams.sz p)
      && is_uint 8 (LimitOrderParams.encoded_tif p)
      && is_uint 128 (LimitOrderParams.cloid p)
  | VaultTransfer p =>
      is_address (VaultTransferParams.vault p)
      && is_uint 64 (VaultTransferParams.usd p)
  | TokenDelegate p =>
      is_address (TokenDelegateParams.validator p)
      && is_uint 64 (TokenDelegateParams.wei p)
  | StakingDeposit p => is_uint 64 (StakingParams.wei p)
  | StakingWithdraw p => is_uint 64 (StakingParams.wei p)
  | SpotSend p =>
      is_address (SpotSendParams.destination p)
      && is_uint 64 (SpotSendParams.token p)
      && is_uint 64 (SpotSendParams.wei p)
  | UsdClassTransfer p => is_uint 64 (UsdClassTransferParams.ntl p)
  | FinalizeEvmContract p =>
      is_uint 64 (FinalizeEvmContractParams.token p)
      && is_uint 8 (FinalizeEvmContractParams.variant p)
      && is_uint 64 (FinalizeEvmContractParams.create_nonce p)
  | AddApiWallet p =>
      is_address (AddApiWalletParams.wallet p)
      && match utf8_encode (AddApiWalletParams.name p) with
         | Ok _ => true
         | Raise _ => false
         end
  | CancelOrderByOid p =>
      is_uint 32 (CancelOrderByOidParams.asset p)
      && is_uint 64 (CancelOrderByOidParams.oid p)
  | CancelOrderByCloid p =>
      is_uint 32 (CancelOrderByCloidParams.asset p)
      && is_uint 128 (CancelOrderByCloidParams.cloid p)
  | ApproveBuilderFee p =>
      is_uint 64 (ApproveBuilderFeeParams.max_fee_rate p)
      && is_address (ApproveBuilderFeeParams.builder p)
  | SendAsset p =>
      is_address (SendAssetParams.dest p)
      && is_address (SendAssetParams.sub_account p)
      && is_uint 32 (SendAssetParams.src_dex p)
      && is_uint 32 (SendAssetParams.dest_dex p)
      && is_uint 64 (SendAssetParams.token p)
      && is_uint 64 (SendAssetParams.wei p)
  | ReflectEvmSupply p =>
      is_uint 64 (ReflectEvmSupplyParams.token p)
      && is_uint 64 (ReflectEvmSupplyParams.wei p)
  | BorrowLendOp p =>
      is_uint 8 (BorrowLendOpParams.operation p)
      && is_uint 64 (BorrowLendOpParams.token p)
      && is_uint 64 (BorrowLendOpParams.wei p)
  end.

(** Hexadecimal text after its optional [0x] prefix. *)
Definition strip_0x_prefix (s : str) : str :=
  match s with
  | 48 :: 120 :: rest => rest
  | _ => s
  end.

(** The text has a character that is not a hexadecimal digit. *)
Definition has_invalid_character (s : str) : Prop :=
  Exists (fun c => hex_value c = None) (strip_0x_prefix s).

End CoreWriterSpec.

Module MulticallSpec.
Import EthAbi Multicall.

(** The reply of the [perpAssetInfo] precompile for a record: the ABI
    encoding of the structure [(string coin, uint32 marginTableId,
    uint8 szDecimals, uint8 maxLeverage, bool onlyIsolated)].  Word 0 is the
    offset of the tuple (32); its head has five words, the first being the
    offset of the string (160); then come the length word of the string and
    its bytes, padded with zeros to a 32-byte boundary. *)
Definition perp_asset_info_response
  (coin : bytes) (margin_table_id sz_decimals max_leverage : Z)
  (only_isolated : bool) : bytes :=
  encode_uint_256 32
    ++ encode_uint_256 160
    ++ encode_uint_256 margin_table_id
    ++ encode_uint_256 sz_decimals
    ++ encode_uint_256 max_leverage
    ++ encode_uint_256 (if only_isolated then 1 else 0)
    ++ encode_uint_256 (len coin)
    ++ zpad_right coin (ceil32 (len coin)).

(** The characters of a coin symbol read from string data: one per byte,
    the zero bytes left out. *)
Definition coin_of_bytes (data : bytes) : str :=
  map Z_of_byte (filter (fun x => Z_of_byte x ≠ 0) data).

(** The indices kept from a batch: those whose reply, at the same position,
    passes the test. *)
Definition kept {A : Type} (keep : A -> bool) (indices : list Z) (rs : list A)
  : list Z :=
  omap (fun ir => if keep (snd ir) then Some (fst ir) else None) (zip indices rs).

(** The requests that the batch functions build for one index. *)
Definition price_call (idx : Z) : Call3 :=
  (0x806, true, encode_uint_256 idx).

Definition position_call (user : address) (idx : Z) : Call3 :=
  (0x800, true, encode_uint_256 user ++ encode_uint_256 idx).

Definition balance_call (user : address) (idx : Z) : Call3 :=
  (0x801, true, encode_uint_256 user ++ encode_uint_256 idx).

(** A position with its index replaced. *)
Definition with_index (p : Position.t) (idx : Z) : Position.t :=
  Position.mk idx (Position.szi p) (Position.entry_ntl p)
              (Position.isolated_raw_usd p) (Position.leverage p)
              (Position.is_isolated p).


Definition holds_price (r : Result3) : bool :=
  fst r && (0 <? len (snd r)).

(** The two chunks of the 225 perp indices. *)
Definition first_chunk : list Z := range 200.
Definition second_chunk : list Z := map (Z.add 200) (range 25).

Section node.
Context {World : Type}.
Variable aggregate3 : list Call3 -> World -> result (list Result3) * World.

(** The contract of the batch call: it returns, and gives one reply for each
    request. *)
Definition answers : Prop :=
  forall calls w,
    exists rs, fst (aggregate3 calls w) = Ok rs /\ length rs = length calls.


End node.

(** *** Sample nodes *)

(** A node that answers every request successfully with 24 zero bytes. *)
Definition short_node (calls : list Call3) (w : unit)
  : result (list Result3) * unit :=
  (Ok (map (fun _ => (true, replicate 24 x00)) calls), tt).

(** A node that fails the requests whose index (the last byte of the
    calldata) is a multiple of 3, and otherwise answers with a well-formed
    reply of the precompile addressed: a position whose size is the index
    modulo 2, a balance whose total is the index modulo 2, a price. *)
Definition sample_reply (c : Call3) : Result3 :=
  let '(target, _, calldata) := c in
  let k := match last calldata with
           | Some x => Z_of_byte x
           | None => 0
           end in
  if k mod 3 =? 0 then (false, [])
  else if target =? 0x800 then
    (true, concat (map encode_uint_256 [k mod 2; 1000; 0; 3; 0]))
  else if target =? 0x801 then
    (true, concat (map encode_uint_256 [k mod 2; 0; 500]))
  else (true, encode_uint_256 (100 + k)).

Definition sample_node (calls : list Call3) (w : unit)
  : result (list Result3) * unit :=
  (Ok (map sample_reply calls), tt).

(** A node whose successful replies are one byte long. *)
Definition garbled_node (calls : list Call3) (w : unit)
  : result (list Result3) * unit :=
  (Ok (map (fun _ => (true, [x01])) calls), tt).

Definition initial_state : @State unit := mkState tt [].

End MulticallSpec.

(** ** Notions used to state the further properties *)

Module CoreWriterLayout.
Import EthAbi CoreWriter CoreWriterSpec.

(** A boolean as the integer of its ABI word. *)
Definition bool_word (b : bool) : Z := if b then 1 else 0.

(** The fields of a record in the order of its dataclass, as integers: the
    values that the words of the parameter tuple hold.  [AddApiWallet] has
    a string field and no such list. *)
Definition field_words (a : Action) : option (list Z) :=
  match a with
  | LimitOrder p =>
      Some [LimitOrderParams.asset p; bool_word (LimitOrderParams.is_buy p);
            LimitOrderParams.limit_px p; LimitOrderParams.sz p;
            bool_word (LimitOrderParams.reduce_only p);
            LimitOrderParams.encoded_tif p; LimitOrderParams.cloid p]
  | VaultTransfer p =>
      Some [VaultTransferParams.vault p;
            bool_word (VaultTransferParams.is_deposit p);
            VaultTransferParams.usd p]
  | TokenDelegate p =>
      Some [TokenDelegateParams.validator p; TokenDelegateParams.wei p;
            bool_word (TokenDelegateParams.is_undelegate p)]
  | StakingDeposit p => Some [StakingParams.wei p]
  | StakingWithdraw p => Some [StakingParams.wei p]
  | SpotSend p =>
      Some [SpotSendParams.destination p; SpotSendParams.token p;
            SpotSendParams.wei p]
  | UsdClassTransfer p =>
      Some [UsdClassTransferParams.ntl p;
            bool_word (UsdClassTransferParams.to_perp p)]
  | FinalizeEvmContract p =>
      Some [FinalizeEvmContractParams.token p;
            FinalizeEvmContractParams.variant p;
            FinalizeEvmContractParams.create_nonce p]
  | AddApiWallet _ => None
  | CancelOrderByOid p =>
      Some [CancelOrderByOidParams.asset p; CancelOrderByOidParams.oid p]
  | CancelOrderByCloid p =>
      Some [CancelOrderByCloidParams.asset p; CancelOrderByCloidParams.cloid p]
  | ApproveBuilderFee p =>
      Some [ApproveBuilderFeeParams.max_fee_rate p;
            ApproveBuilderFeeParams.builder p]
  | SendAsset p =>
      Some [SendAssetParams.dest p; SendAssetParams.sub_account p;
            SendAssetParams.src_dex p; SendAssetParams.dest_dex p;
            SendAssetParams.token p; SendAssetParams.wei p]
  | ReflectEvmSupply p =>
      Some [ReflectEvmSupplyParams.token p; ReflectEvmSupplyParams.wei p;
            bool_word (ReflectEvmSupplyParams.is_mint p)]
  | BorrowLendOp p =>
      Some [BorrowLendOpParams.operation p; BorrowLendOpParams.token p;
            BorrowLendOpParams.wei p]
  end.

End CoreWriterLayout.

Module MulticallNodes.
Import EthAbi Multicall MulticallSpec.

(** A node that cannot be reached: every call raises. *)
Definition down_node (calls : list Call3) (w : unit)
  : result (list Result3) * unit :=
  (Raise ValueError, tt).

(** A node that answers its first call as [sample_node] does and raises
    on every later one; its state counts the calls received. *)
Definition flaky_node (calls : list Call3) (n : nat)
  : result (list Result3) * nat :=
  match n with
  | O => (Ok (map sample_reply calls), S n)
  | S _ => (Raise ValueError, S n)
  end.

(** A node that answers every request successfully: with a position for
    the [position] precompile and with a balance otherwise. *)
Definition full_reply (c : Call3) : Result3 :=
  let '(target, _, _) := c in
  if target =? 0x800
  then (true, concat (map encode_uint_256 [1; 1000; 0; 3; 0]))
  else (true, concat (map encode_uint_256 [1; 0; 500])).

Definition full_node (calls : list Call3) (w : unit)
  : result (list Result3) * unit :=
  (Ok (map full_reply calls), tt).

(** A node that answers every request with the asset record of BTC. *)
Definition info_node (calls : list Call3) (w : unit)
  : result (list Result3) * unit :=
  (Ok (map (fun _ => (true, perp_asset_info_response [x42; x54; x43] 1 5 50
                              false)) calls), tt).

(** A node that answers as [sample_node] does and adds one reply that
    nobody asked for. *)
Definition chatty_node (calls : list Call3) (w : unit)
  : result (list Result3) * unit :=
  (Ok (map sample_reply calls ++ [(true, [x01])]), tt).

End MulticallNodes.

Module MulticallReplies.
Import EthAbi Multicall.

(** The price that a reply of the [markPx] precompile carries: the value
    of its first word, when the call succeeded and returned something. *)
Definition price_of_reply (r : Result3) : option Z :=
  if fst r && (0 <? len (snd r))
  then Some (from_bytes_big (word_at (snd r) 0))
  else None.

(** The request that [batch_get_perp_asset_info] builds for one index. *)
Definition info_call (idx : Z) : Call3 :=
  (0x80a, true, encode_uint_256 idx).

(** The record that [batch_get_perp_asset_info] makes from the reply to
    the request for [idx], if any. *)
Definition info_of_reply (idx : Z) (r : Result3) : option PerpAssetInfo.t :=
  if fst r && (0 <? len (snd r))
  then _parse_perp_asset_info (bytes_hex (snd r)) idx
  else None.

End MulticallReplies.

(** ** corewriter_example.py: the transaction senders

    [send_raw_action] and the fifteen [send_*] methods use web3: the
    account of a private key, the signature of a transaction, and the
    requests to the node.  These are parameters ([Web3] below): the local
    operations are functions that may raise, a request to the node takes
    the state of the node and gives a result (or raises) and the next
    state.  Every request made is recorded, in order. *)
Module CoreWriterSend.
Import EthAbi CoreWriter.

(** The dictionary passed to [build_transaction]. *)
Record TxParams : Type := mkTxParams
  { tx_from : address; tx_nonce : Z; tx_gas : Z; tx_gasPrice : Z }.

Section web3.
Context {World Key Account ContractCall Tx SignedTx TxHash Receipt : Type}.

Record Web3 : Type := mkWeb3
  { (* [w3.eth.account.from_key(private_key)] and [account.address] *)
    from_key : Key -> result Account;
    account_address : Account -> address;
    (* [w3.eth.get_transaction_count(address)] *)
    get_transaction_count : address -> World -> result Z * World;
    (* [w3.eth.gas_price] *)
    gas_price : World -> result Z * World;
    (* [core_writer.functions.sendRawAction(action_data)] *)
    sendRawAction : bytes -> result ContractCall;
    (* [.build_transaction({...})] *)
    build_transaction : ContractCall -> TxParams -> World -> result Tx * World;
    (* [w3.eth.account.sign_transaction(tx, private_key)] and
       [signed_tx.raw_transaction] *)
    sign_transaction : Tx -> Key -> result SignedTx;
    raw_transaction : SignedTx -> bytes;
    (* [w3.eth.send_raw_transaction(raw)] *)
    send_raw_transaction : bytes -> World -> result TxHash * World;
    (* [w3.eth.wait_for_transaction_receipt(tx_hash)] *)
    wait_for_transaction_receipt : TxHash -> World -> result Receipt * World;
    (* [tx_hash.hex()] *)
    hash_hex : TxHash -> str }.

(** The dataclass [TxResult]. *)
Record TxResult : Type := mkTxResult { hash : str; receipt : Receipt }.

(** The requests to the node. *)
Inductive request : Type :=
| GetTransactionCount (a : address)
| GasPrice
| BuildTransaction (c : ContractCall) (p : TxParams)
| SendRawTransaction (raw : bytes)
| WaitForTransactionReceipt (h : TxHash).

Record State : Type := mkState
  { world : World;
    requests : list request }.

(** A method of [HyperCoreWriter] that may use web3. *)
Definition M (A : Type) : Type := State -> result A * State.

Definition ret {A : Type} (a : A) : M A := fun st => (Ok a, st).

Definition lift {A : Type} (r : result A) : M A := fun st => (r, st).

Definition bindM {A B : Type} (m : M A) (k : A -> M B) : M B :=
  fun st => match m st with
            | (Ok a, st') => k a st'
            | (Raise e, st') => (Raise e, st')
            end.

Notation "'let*' x ':=' m 'in' k" := (bindM m (fun x => k))
  (at level 10, x name, m at level 100, k at level 200).

(** One request: it is recorded, and the node moves on, whatever the
    outcome. *)
Definition rpc {A : Type} (r : request) (f : World -> result A * World) : M A :=
  fun st =>
    let '(res, w) := f (world st) in
    (res, {| world := w; requests := requests st ++ [r] |}).

Variable w3 : Web3.

Definition send_raw_action (private_key : Key) (action_data : bytes)
  : M TxResult :=
  let* account := lift (from_key w3 private_key) in
  let* call := lift (sendRawAction w3 action_data) in
  let* nonce :=
    rpc (GetTransactionCount (account_address w3 account))
        (get_transaction_count w3 (account_address w3 account)) in
  let* gasPrice := rpc GasPrice (gas_price w3) in
  let params :=
    {| tx_from := account_address w3 account; tx_nonce := nonce;
       tx_gas := 100000; tx_gasPrice := gasPrice |} in
  let* tx := rpc (BuildTransaction call params)
                 (build_transaction w3 call params) in
  let* signed_tx := lift (sign_transaction w3 tx private_key) in
  let* tx_hash :=
    rpc (SendRawTransaction (raw_transaction w3 signed_tx))
        (send_raw_transaction w3 (raw_transaction w3 signed_tx)) in
  let* receipt := rpc (WaitForTransactionReceipt tx_hash)
                      (wait_for_transaction_receipt w3 tx_hash) in
  ret {| hash := hash_hex w3 tx_hash; receipt := receipt |}.

Definition send_limit_order (private_key : Key) (params : LimitOrderParams.t)
  : M TxResult :=
  let* action_data := lift (build_limit_order params) in
  send_raw_action private_key action_data.

Definition send_vault_transfer (private_key : Key)
  (params : VaultTransferParams.t) : M TxResult :=
  let* action_data := lift (build_vault_transfer params) in
  send_raw_action private_key action_data.

Definition send_token_delegate (private_key : Key)
  (params : TokenDelegateParams.t) : M TxResult :=
  let* action_data := lift (build_token_delegate params) in
  send_raw_action private_key action_data.

Definition send_staking_deposit (private_key : Key) (params : StakingParams.t)
  : M TxResult :=
  let* action_data := lift (build_staking_deposit params) in
  send_raw_action private_key action_data.

Definition send_staking_withdraw (private_key : Key) (params : StakingParams.t)
  : M TxResult :=
  let* action_data := lift (build_staking_withdraw params) in
  send_raw_action private_key action_data.

Definition send_spot_send (private_key : Key) (params : SpotSendParams.t)
  : M TxResult :=
  let* action_data := lift (build_spot_send params) in
  send_raw_action private_key action_data.

Definition send_usd_class_transfer (private_key : Key)
  (params : UsdClassTransferParams.t) : M TxResult :=
  let* action_data := lift (build_usd_class_transfer params) in
  send_raw_action private_key action_data.

Definition send_finalize_evm_contract (private_key : Key)
  (params : FinalizeEvmContractParams.t) : M TxResult :=
  let* action_data := lift (build_finalize_evm_contract params) in
  send_raw_action private_key action_data.

Definition send_add_api_wallet (private_key : Key)
  (params : AddApiWalletParams.t) : M TxResult :=
  let* action_data := lift (build_add_api_wallet params) in
  send_raw_action private_key action_data.

Definition send_cancel_order_by_oid (private_key : Key)
  (params : CancelOrderByOidParams.t) : M TxResult :=
  let* action_data := lift (build_cancel_order_by_oid params) in
  send_raw_action private_key action_data.

Definition send_cancel_order_by_cloid (private_key : Key)
  (params : CancelOrderByCloidParams.t) : M TxResult :=
  let* action_data := lift (build_cancel_order_by_cloid params) in
  send_raw_action private_key action_data.

Definition send_approve_builder_fee (private_key : Key)
  (params : ApproveBuilderFeeParams.t) : M TxResult :=
  let* action_data := lift (build_approve_builder_fee params) in
  send_raw_action private_key action_data.

Definition send_send_asset (private_key : Key) (params : SendAssetParams.t)
  : M TxResult :=
  let* action_data := lift (build_send_asset params) in
  send_raw_action private_key action_data.

Definition send_reflect_evm_supply (private_key : Key)
  (params : ReflectEvmSupplyParams.t) : M TxResult :=
  let* action_data := lift (build_reflect_evm_supply params) in
  send_raw_action private_key action_data.

Definition send_borrow_lend_op (private_key : Key)
  (params : BorrowLendOpParams.t) : M TxResult :=
  let* action_data := lift (build_borrow_lend_op params) in
  send_raw_action private_key action_data.

End web3.

End CoreWriterSend.

(** ** Notions used to state the properties of the senders *)
Module CoreWriterSendSpec.
Import EthAbi CoreWriter CoreWriterSpec CoreWriterSend.

Section web3.
Context {World Key Account ContractCall Tx SignedTx TxHash Receipt : Type}.
Variable w3 : @Web3 World Key Account ContractCall Tx SignedTx TxHash Receipt.

(** The sender of an action. *)
Definition send (private_key : Key) (a : Action) : M TxResult :=
  match a with
  | LimitOrder p => send_limit_order w3 private_key p
  | VaultTransfer p => send_vault_transfer w3 private_key p
  | TokenDelegate p => send_token_delegate w3 private_key p
  | StakingDeposit p => send_staking_deposit w3 private_key p
  | StakingWithdraw p => send_staking_withdraw w3 private_key p
  | SpotSend p => send_spot_send w3 private_key p
  | UsdClassTransfer p => send_usd_class_transfer w3 private_key p
  | FinalizeEvmContract p => send_finalize_evm_contract w3 private_key p
  | AddApiWallet p => send_add_api_wallet w3 private_key p
  | CancelOrderByOid p => send_cancel_order_by_oid w3 private_key p
  | CancelOrderByCloid p => send_cancel_order_by_cloid w3 private_key p
  | ApproveBuilderFee p => send_approve_builder_fee w3 private_key p
  | SendAsset p => send_send_asset w3 private_key p
  | ReflectEvmSupply p => send_reflect_evm_supply w3 private_key p
  | BorrowLendOp p => send_borrow_lend_op w3 private_key p
  end.

(** The kind of a request, without its data. *)
Inductive request_kind : Type :=
| KGetTransactionCount | KGasPrice | KBuildTransaction
| KSendRawTransaction | KWaitForTransactionReceipt.

Definition kind_of (r : @request ContractCall TxHash) : request_kind :=
  match r with
  | GetTransactionCount _ => KGetTransactionCount
  | GasPrice => KGasPrice
  | BuildTransaction _ _ => KBuildTransaction
  | SendRawTransaction _ => KSendRawTransaction
  | WaitForTransactionReceipt _ => KWaitForTransactionReceipt
  end.

(** The requests of one [send_raw_action], in the order of the code. *)
Definition script : list request_kind :=
  [KGetTransactionCount; KGasPrice; KBuildTransaction;
   KSendRawTransaction; KWaitForTransactionReceipt].

End web3.

(** *** A sample web3

    Keys are integers, the account of key [k] has address [k] (key 0 is
    refused); the node counts the transactions it has received and uses
    the count as nonce; a transaction is its call data with its
    parameters; signing prefixes the byte [0x01]; the hash of a raw
    transaction is the raw transaction; the receipt is the count. *)
Definition sample_web3
  : @Web3 Z Z address bytes (bytes * TxParams) bytes bytes Z :=
  {| from_key := fun k => if k =? 0 then Raise ValueError else Ok k;
     account_address := fun a => a;
     get_transaction_count := fun _ w => (Ok w, w);
     gas_price := fun w => (Ok 1000000000, w);
     sendRawAction := fun data => Ok data;
     build_transaction := fun c p w => (Ok (c, p), w);
     sign_transaction := fun tx _ => Ok (x01 :: fst tx);
     raw_transaction := fun s => s;
     send_raw_transaction := fun raw w => (Ok raw, w + 1);
     wait_for_transaction_receipt := fun _ w => (Ok w, w);
     hash_hex := fun h => str_lit "0x" ++ bytes_hex h |}.

(** A web3 whose node refuses every transaction sent. *)
Definition refusing_web3
  : @Web3 Z Z address bytes (bytes * TxParams) bytes bytes Z :=
  {| from_key := from_key sample_web3;
     account_address := account_address sample_web3;
     get_transaction_count := get_transaction_count sample_web3;
     gas_price := gas_price sample_web3;
     sendRawAction := sendRawAction sample_web3;
     build_transaction := build_transaction sample_web3;
     sign_transaction := sign_transaction sample_web3;
     raw_transaction := raw_transaction sample_web3;
     send_raw_transaction := fun _ w => (Raise ValueError, w);
     wait_for_transaction_receipt := wait_for_transaction_receipt sample_web3;
     hash_hex := hash_hex sample_web3 |}.

End CoreWriterSendSpec.

Import EthAbi CoreWriter CoreWriterSpec Multicall MulticallSpec.

(** * Properties *)

(** ** Slices and ranges *)

Section slices.
Context {A : Type}.
Implicit Types l : list A.

Lemma clamp_index_nonneg l (i : Z) :
  0 <= i -> clamp_index l i = Nat.min (length l) (Z.to_nat i).
Proof.
  intros Hi. unfold clamp_index, len.
  destruct (Z.ltb_spec i 0); lia.
Qed.

Lemma slice_nonneg l (a b : Z) :
  0 <= a -> 0 <= b -> slice l a b = drop (Z.to_nat a) (take (Z.to_nat b) l).
Proof.
  intros Ha Hb. unfold slice. rewrite !clamp_index_nonneg by lia.
  assert (Ht : forall n : nat, take (Nat.min (length l) n) l = take n l).
  { intros n. destruct (Nat.le_gt_cases (length l) n).
    - rewrite Nat.min_l by lia. rewrite !take_ge by lia. reflexivity.
    - rewrite Nat.min_r by lia. reflexivity. }
  rewrite Ht.
  destruct (Nat.le_gt_cases (length l) (Z.to_nat a)).
  - rewrite Nat.min_l by lia.
    rewrite !drop_ge; [reflexivity | rewrite length_take; lia ..].
  - rewrite Nat.min_r by lia. reflexivity.
Qed.

Lemma slice_from_nonneg l (a : Z) :
  0 <= a -> slice_from l a = drop (Z.to_nat a) l.
Proof.
  intros Ha. unfold slice_from. rewrite clamp_index_nonneg by lia.
  destruct (Nat.le_gt_cases (length l) (Z.to_nat a)).
  - rewrite Nat.min_l by lia. rewrite !drop_ge by lia. reflexivity.
  - rewrite Nat.min_r by lia. reflexivity.
Qed.

Lemma concat_windows (m : nat) l (c : nat) :
  concat (map (window m l) (seq 0 c)) = take (c * m) l.
Proof.
  induction c as [|c IH].
  - reflexivity.
  - rewrite seq_S, map_app, concat_app, IH. simpl.
    rewrite app_nil_r. unfold window.
    rewrite take_take_drop. f_equal. lia.
Qed.

Lemma length_window (m : nat) l (k : nat) :
  length (window m l k) = Nat.min m (length l - k * m).
Proof. unfold window. rewrite length_take, length_drop. reflexivity. Qed.

End slices.

(** Number of chunks: the ceiling of [n / m]. *)
Lemma range_len_pos (n m : Z) :
  0 <= n -> 0 < m ->
  0 <= range_len 0 n m /\
  n <= range_len 0 n m * m /\
  (range_len 0 n m - 1) * m < n \/ (n = 0 /\ range_len 0 n m = 0).
Proof.
  intros Hn Hm. unfold range_len.
  destruct (Z.ltb_spec 0 m); [|lia].
  destruct (Z.ltb_spec 0 n).
  - left. replace (n - 0 - 1) with (n - 1) by lia.
    pose proof (Z.div_mod (n - 1) m ltac:(lia)) as Hd.
    pose proof (Z.mod_pos_bound (n - 1) m ltac:(lia)) as Hb.
    pose proof (Z.div_pos (n - 1) m ltac:(lia) ltac:(lia)).
    split; [lia|]. split; nia.
  - right. lia.
Qed.

Lemma chunk_list_windows {A : Type} (lst : list A) (n : Z) :
  0 < n ->
  chunk_list lst n =
  Ok (map (window (Z.to_nat n) lst)
          (seq 0 (Z.to_nat (range_len 0 (len lst) n)))).
Proof.
  intros Hn. unfold chunk_list, range3.
  destruct (Z.eqb_spec n 0); [lia|].
  cbn. f_equal. rewrite map_map. apply map_ext. intros k.
  rewrite slice_nonneg by lia. unfold window.
  rewrite take_drop_commute. f_equal; [lia|]. f_equal. lia.
Qed.

(** C10. For every list and every positive chunk size, [chunk_list] returns
    chunks whose concatenation, in order, is the list itself; every chunk has
    at most [chunk_size] elements, and every chunk but possibly the last has
    exactly [chunk_size] elements. *)
Theorem chunk_list_partition {A : Type} (lst : list A) (chunk_size : Z) :
  0 < chunk_size ->
  exists chunks : list (list A),
    chunk_list lst chunk_size = Ok chunks /\
    concat chunks = lst /\
    (forall c, In c chunks -> len c <= chunk_size) /\
    (forall (i : nat) c, (S i < length chunks)%nat -> chunks !! i = Some c ->
                         len c = chunk_size).
Proof.
  intros Hn. eexists. split; [apply chunk_list_windows; exact Hn|].
  set (m := Z.to_nat chunk_size).
  set (c := Z.to_nat (range_len 0 (len lst) chunk_size)).
  assert (Hc : (length lst <= c * m)%nat /\ ((c - 1) * m < length lst \/ c = 0)%nat).
  { subst c m. unfold len.
    set (r := range_len 0 (Z.of_nat (length lst)) chunk_size).
    destruct (range_len_pos (len lst) chunk_size) as [(H0 & H1 & H2)|[H1 H2]];
      unfold len in *; try lia.
    - fold r in H0, H1, H2. split.
      + apply Nat2Z.inj_le. rewrite Nat2Z.inj_mul, !Z2Nat.id by lia. exact H1.
      + destruct (Z.eq_dec r 0) as [->|Hr]; [right; reflexivity|left].
        apply Nat2Z.inj_lt.
        rewrite Nat2Z.inj_mul, Nat2Z.inj_sub, !Z2Nat.id by lia. exact H2. }
  destruct Hc as [Hc1 Hc2].
  split; [|split].
  - rewrite concat_windows. apply take_ge. exact Hc1.
  - intros ch Hin. apply in_map_iff in Hin as (k & <- & _).
    unfold len. rewrite length_window. lia.
  - intros i ch Hi Hlk. rewrite length_map, length_seq in Hi.
    rewrite list_lookup_fmap in Hlk.
    rewrite lookup_seq_lt in Hlk by lia. simpl in Hlk.
    injection Hlk as <-. unfold len. rewrite length_window.
    assert (S i * m <= (c - 1) * m)%nat by (apply Nat.mul_le_mono_r; lia).
    destruct Hc2 as [Hc2|Hc2]; [|lia].
    simpl in *. lia.
Qed.

Lemma chunk_list_partition_witness :
  exists chunks : list (list Z),
    chunk_list [1; 2; 3; 4; 5] 2 = Ok chunks /\
    concat chunks = [1; 2; 3; 4; 5] /\
    (forall c, In c chunks -> len c <= 2) /\
    (forall (i : nat) c, (S i < length chunks)%nat -> chunks !! i = Some c ->
                         len c = 2).
Proof. apply (chunk_list_partition [1; 2; 3; 4; 5] 2). lia. Defined.

(** ** Bytes and big-endian words *)

Lemma Z_of_byte_range (b : byte) : 0 <= Z_of_byte b < 256.
Proof.
  unfold Z_of_byte. pose proof (Byte.to_N_bounded b). lia.
Qed.

Lemma Z_of_byte_of_Z (z : Z) : 0 <= z < 256 -> Z_of_byte (byte_of_Z z) = z.
Proof.
  intros Hz. unfold Z_of_byte, byte_of_Z.
  rewrite Z.mod_small by lia.
  destruct (Byte.of_N (Z.to_N z)) as [b|] eqn:E.
  - apply Byte.to_of_N in E. lia.
  - apply Byte.of_N_None_iff in E. lia.
Qed.

Lemma byte_of_Z_of_byte (b : byte) : byte_of_Z (Z_of_byte b) = b.
Proof.
  pose proof (Z_of_byte_range b) as Hr.
  unfold byte_of_Z, Z_of_byte in *. rewrite Z.mod_small by lia.
  rewrite N2Z.id, Byte.of_to_N. reflexivity.
Qed.

Lemma byte_of_Z_mod (z : Z) : byte_of_Z (z mod 256) = byte_of_Z z.
Proof. unfold byte_of_Z. rewrite Z.mod_mod by lia. reflexivity. Qed.

Lemma length_to_bytes_big (n : nat) (v : Z) : length (to_bytes_big n v) = n.
Proof.
  revert v. induction n as [|n IH]; intros v; simpl.
  - reflexivity.
  - rewrite length_app, IH. simpl. lia.
Qed.

Lemma len_encode_uint_256 (v : Z) : len (encode_uint_256 v) = 32.
Proof. unfold len, encode_uint_256. rewrite length_to_bytes_big. reflexivity. Qed.

Lemma from_bytes_big_snoc (b : bytes) (x : byte) :
  from_bytes_big (b ++ [x]) = from_bytes_big b * 256 + Z_of_byte x.
Proof. unfold from_bytes_big. rewrite fold_left_app. reflexivity. Qed.

Lemma from_bytes_big_nonneg (b : bytes) : 0 <= from_bytes_big b.
Proof.
  induction b as [|x b IH] using rev_ind.
  - reflexivity.
  - rewrite from_bytes_big_snoc. pose proof (Z_of_byte_range x). lia.
Qed.

Lemma from_to_bytes_big (n : nat) (v : Z) :
  0 <= v < 256 ^ Z.of_nat n -> from_bytes_big (to_bytes_big n v) = v.
Proof.
  revert v. induction n as [|n IH]; intros v Hv.
  - simpl in *. change (from_bytes_big []) with 0. lia.
  - rewrite Nat2Z.inj_succ, Z.pow_succ_r in Hv by lia.
    simpl. rewrite from_bytes_big_snoc.
    rewrite IH.
    + rewrite <- byte_of_Z_mod, Z_of_byte_of_Z by (apply Z.mod_pos_bound; lia).
      pose proof (Z.div_mod v 256). lia.
    + split; [apply Z.div_pos; lia|].
      apply Z.div_lt_upper_bound; lia.
Qed.

Lemma from_bytes_encode_uint_256 (v : Z) :
  0 <= v < 2 ^ 256 -> from_bytes_big (encode_uint_256 v) = v.
Proof.
  intros Hv. apply from_to_bytes_big.
  change (256 ^ Z.of_nat 32) with (2 ^ 256). exact Hv.
Qed.

(** ** corewriter_example.py *)

(** C3. [build_usd_class_transfer] with [ntl = 1000000] and [to_perp = True]
    returns exactly the four header bytes [01 00 00 07] followed by two
    32-byte words: the first has big-endian value [0x0F4240] (so is
    left-padded with zeros), the second has value 1. *)
Theorem build_usd_class_transfer_example :
  exists ntl_word bool_word : bytes,
    build_usd_class_transfer (UsdClassTransferParams.mk 1000000 true) =
      Ok ([x01; x00; x00; x07] ++ ntl_word ++ bool_word) /\
    ntl_word = replicate 29 x00 ++ [x0f; x42; x40] /\
    len ntl_word = 32 /\ from_bytes_big ntl_word = 0x0F4240 /\
    bool_word = replicate 31 x00 ++ [x01] /\
    len bool_word = 32 /\ from_bytes_big bool_word = 1.
Proof.
  exists (replicate 29 x00 ++ [x0f; x42; x40]), (replicate 31 x00 ++ [x01]).
  repeat split; vm_compute; reflexivity.
Qed.

Lemma ceil32_pad (n : Z) :
  0 <= n -> 0 <= ceil32 n - n < 32 /\ (n + (ceil32 n - n)) mod 32 = 0.
Proof.
  intros Hn. unfold ceil32.
  pose proof (Z.mod_pos_bound n 32 ltac:(lia)) as Hb.
  destruct (Z.eqb_spec (n mod 32) 0) as [E|E].
  - split; [lia|]. replace (n + (n - n)) with n by lia. exact E.
  - split; [lia|].
    replace (n + (n + 32 - n mod 32 - n)) with (n - n mod 32 + 1 * 32) by lia.
    rewrite Z.mod_add by lia.
    rewrite (Z.div_mod n 32) at 1 by lia.
    replace (32 * (n / 32) + n mod 32 - n mod 32) with (n / 32 * 32) by lia.
    apply Z.mod_mul. lia.
Qed.

Lemma encode_header_action (a : ActionId) :
  _encode_header (ActionId_value a) =
  Ok [x01; x00; x00; byte_of_Z (ActionId_value a)].
Proof. destruct a; reflexivity. Qed.

Lemma encode_address_string (wallet : address) (name : str) (utf8 : bytes) :
  is_address wallet = true -> utf8_encode name = Ok utf8 ->
  encode [Taddress; Tstring] [VAddr wallet; VStr name] =
  Ok (encode_uint_256 wallet ++ encode_uint_256 64
        ++ encode_uint_256 (len utf8)
        ++ utf8 ++ replicate (Z.to_nat (ceil32 (len utf8) - len utf8)) x00).
Proof.
  intros Hw Hn. unfold encode, encode_chunks, encode_value.
  unfold is_address in Hw. rewrite Hw, Hn. cbn [mbind result_bind is_dynamic].
  unfold head_length. cbn [fold_left fst snd head_chunks concat map].
  rewrite len_encode_uint_256. cbn [Z.add].
  unfold zpad_right. rewrite !app_nil_r, <- !app_assoc. reflexivity.
Qed.

Lemma build_add_api_wallet_bytes (wallet : address) (name : str) (utf8 : bytes) :
  is_address wallet = true ->
  utf8_encode name = Ok utf8 ->
  build_add_api_wallet (AddApiWalletParams.mk wallet name) =
    Ok ([x01; x00; x00; x09]
          ++ encode_uint_256 wallet
          ++ encode_uint_256 64
          ++ encode_uint_256 (len utf8)
          ++ utf8 ++ replicate (Z.to_nat (ceil32 (len utf8) - len utf8)) x00).
Proof.
  intros Hw Hu. unfold build_add_api_wallet.
  rewrite encode_header_action.
  cbn [mbind result_bind AddApiWalletParams.wallet AddApiWalletParams.name].
  unfold to_checksum_address. rewrite Hw. cbn [mbind result_bind].
  rewrite (encode_address_string _ _ _ Hw Hu). reflexivity.
Qed.

(** C1 (as the code has it). For every wallet address and every name that
    UTF-8 can encode, the [AddApiWallet] action is the header followed by the
    address word, an offset word equal to the byte length of the whole head
    of the tuple (two words: [0x40]), a length word equal to the number of
    UTF-8 bytes of the name, and those bytes right-padded with zeros to a
    32-byte boundary; in particular, for the name ["bot1"] the offset word is
    [0x40], the length word is [0x04] and the data is [626f7431] followed by
    28 zero bytes. *)
Theorem build_add_api_wallet_layout (wallet : address) (name : str) (utf8 : bytes) :
  is_address wallet = true ->
  utf8_encode name = Ok utf8 ->
  let pad := ceil32 (len utf8) - len utf8 in
  build_add_api_wallet (AddApiWalletParams.mk wallet name) =
    Ok ([x01; x00; x00; x09]
          ++ encode_uint_256 wallet
          ++ encode_uint_256 64
          ++ encode_uint_256 (len utf8)
          ++ utf8 ++ replicate (Z.to_nat pad) x00) /\
  len (encode_uint_256 wallet) + len (encode_uint_256 64) = 64 /\
  0 <= pad < 32 /\
  (len utf8 + pad) mod 32 = 0 /\
  bot1_layout 64 wallet.
Proof.
  intros Hw Hn pad.
  split; [apply build_add_api_wallet_bytes; assumption|].
  split; [rewrite !len_encode_uint_256; reflexivity|].
  destruct (ceil32_pad (len utf8)) as [Hp Hm]; [unfold len; lia|].
  split; [exact Hp|]. split; [exact Hm|].
  unfold bot1_layout.
  rewrite (build_add_api_wallet_bytes wallet (str_lit "bot1") [x62; x6f; x74; x31])
    by (assumption || reflexivity).
  reflexivity.
Qed.

Lemma build_add_api_wallet_layout_witness :
  is_address 0x1234567890123456789012345678901234567890 = true /\
  utf8_encode (str_lit "bot1") = Ok [x62; x6f; x74; x31] /\
  build_add_api_wallet
    (AddApiWalletParams.mk 0x1234567890123456789012345678901234567890
                           (str_lit "bot1")) =
    Ok ([x01; x00; x00; x09]
          ++ encode_uint_256 0x1234567890123456789012345678901234567890
          ++ encode_uint_256 64
          ++ encode_uint_256 4
          ++ [x62; x6f; x74; x31] ++ replicate 28 x00).
Proof.
  split; [reflexivity|]. split; [reflexivity|].
  exact (proj1 (build_add_api_wallet_layout
                  0x1234567890123456789012345678901234567890
                  (str_lit "bot1") [x62; x6f; x74; x31]
                  eq_refl eq_refl)).
Defined.

(** C1 (as stated) fails: for the name ["bot1"] the offset word is [0x40],
    not [0x20]. *)
Lemma build_add_api_wallet_offset_not_0x20 :
  ~ bot1_layout 0x20 0x1234567890123456789012345678901234567890.
Proof.
  unfold bot1_layout. intros H. vm_compute in H. discriminate H.
Qed.

(** *** Hexadecimal text *)

Lemma hex_value_hex_digit (d : Z) :
  0 <= d < 16 -> hex_value (hex_digit d) = Some d.
Proof.
  intros Hd. unfold hex_digit, hex_value.
  destruct (Z.ltb_spec d 10).
  - replace ((48 <=? 48 + d) && (48 + d <=? 57)) with true
      by (symmetry; apply andb_true_iff; split; apply Z.leb_le; lia).
    f_equal. lia.
  - replace ((48 <=? 87 + d) && (87 + d <=? 57)) with false
      by (symmetry; apply andb_false_iff; right; apply Z.leb_gt; lia).
    replace ((97 <=? 87 + d) && (87 + d <=? 102)) with true
      by (symmetry; apply andb_true_iff; split; apply Z.leb_le; lia).
    f_equal. lia.
Qed.

Lemma is_space_hex_digit (d : Z) : 0 <= d < 16 -> is_space (hex_digit d) = false.
Proof.
  intros Hd. unfold hex_digit, is_space.
  destruct (Z.ltb_spec d 10); apply orb_false_iff; split;
    try (apply Z.eqb_neq; lia);
    apply andb_false_iff; right; apply Z.leb_gt; lia.
Qed.

Lemma byte_digits (x : byte) :
  0 <= Z_of_byte x / 16 < 16 /\ 0 <= Z_of_byte x mod 16 < 16 /\
  byte_of_Z (Z_of_byte x / 16 * 16 + Z_of_byte x mod 16) = x.
Proof.
  pose proof (Z_of_byte_range x) as Hr.
  split; [split; [apply Z.div_pos; lia | apply Z.div_lt_upper_bound; lia]|].
  split; [apply Z.mod_pos_bound; lia|].
  rewrite <- (byte_of_Z_of_byte x) at 3. f_equal.
  pose proof (Z.div_mod (Z_of_byte x) 16). lia.
Qed.

Lemma bytes_fromhex_hex (b : bytes) : bytes_fromhex (bytes_hex b) = Ok b.
Proof.
  induction b as [|x b IH]; [reflexivity|].
  destruct (byte_digits x) as (Hhi & Hlo & Hx).
  change (bytes_hex (x :: b))
    with (hex_digit (Z_of_byte x / 16) :: hex_digit (Z_of_byte x mod 16)
            :: bytes_hex b).
  cbn [bytes_fromhex].
  rewrite is_space_hex_digit, !hex_value_hex_digit by assumption.
  rewrite IH. cbn [mbind result_bind]. rewrite Hx. reflexivity.
Qed.

(** *** The header round trip *)

Lemma decode_action_header (a : ActionId) (data : bytes) :
  decode_action (Bytes ([x01; x00; x00; byte_of_Z (ActionId_value a)] ++ data)) =
  Ok {| version := 1;
        action_id := ActionId_value a;
        params := str_lit "0x" ++ bytes_hex data |}.
Proof.
  unfold decode_action. cbn [mbind result_bind].
  rewrite slice_from_nonneg by lia.
  destruct a; reflexivity.
Qed.

Ltac split_andb :=
  repeat match goal with
         | H : _ && _ = true |- _ => apply andb_true_iff in H; destruct H
         end.

Ltac use_bounds :=
  repeat match goal with
         | H : is_uint _ _ = true |- _ => unfold is_uint in H
         | H : is_address _ = true |- _ => unfold is_address in H
         end;
  repeat match goal with
         | H : (_ <=? _) && (_ <? _) = true |- _ =>
             rewrite H; cbn [mbind result_bind]
         end.

Lemma build_header (a : Action) :
  well_typed a = true ->
  exists data : bytes,
    build a = Ok ([x01; x00; x00; byte_of_Z (ActionId_value (kind a))] ++ data).
Proof.
  intros Hwt.
  destruct a as [p|p|p|p|p|p|p|p|p|p|p|p|p|p|p]; destruct p;
    cbn [well_typed LimitOrderParams.asset LimitOrderParams.limit_px
         LimitOrderParams.sz LimitOrderParams.encoded_tif LimitOrderParams.cloid
         VaultTransferParams.vault VaultTransferParams.usd
         TokenDelegateParams.validator TokenDelegateParams.wei
         StakingParams.wei
         SpotSendParams.destination SpotSendParams.token SpotSendParams.wei
         UsdClassTransferParams.ntl
         FinalizeEvmContractParams.token FinalizeEvmContractParams.variant
         FinalizeEvmContractParams.create_nonce
         AddApiWalletParams.wallet AddApiWalletParams.name
         CancelOrderByOidParams.asset CancelOrderByOidParams.oid
         CancelOrderByCloidParams.asset CancelOrderByCloidParams.cloid
         ApproveBuilderFeeParams.max_fee_rate ApproveBuilderFeeParams.builder
         SendAssetParams.dest SendAssetParams.sub_account SendAssetParams.src_dex
         SendAssetParams.dest_dex SendAssetParams.token SendAssetParams.wei
         ReflectEvmSupplyParams.token ReflectEvmSupplyParams.wei
         BorrowLendOpParams.operation BorrowLendOpParams.token
         BorrowLendOpParams.wei] in Hwt;
    split_andb;
    try match goal with
        | H : match utf8_encode ?n with _ => _ end = true |- _ =>
            destruct (utf8_encode n) eqn:Hutf8; [clear H | discriminate H]
        end;
    unfold build, kind,
      build_limit_order, build_vault_transfer, build_token_delegate,
      build_staking_deposit, build_staking_withdraw, build_spot_send,
      build_usd_class_transfer, build_finalize_evm_contract,
      build_add_api_wallet, build_cancel_order_by_oid,
      build_cancel_order_by_cloid, build_approve_builder_fee,
      build_send_asset, build_reflect_evm_supply, build_borrow_lend_op;
    rewrite encode_header_action;
    unfold encode, encode_chunks, encode_value, to_checksum_address, is_address;
    cbn [mbind result_bind LimitOrderParams.asset LimitOrderParams.limit_px
         LimitOrderParams.sz LimitOrderParams.encoded_tif LimitOrderParams.cloid
         LimitOrderParams.is_buy LimitOrderParams.reduce_only
         VaultTransferParams.vault VaultTransferParams.usd
         VaultTransferParams.is_deposit
         TokenDelegateParams.validator TokenDelegateParams.wei
         TokenDelegateParams.is_undelegate
         StakingParams.wei
         SpotSendParams.destination SpotSendParams.token SpotSendParams.wei
         UsdClassTransferParams.ntl UsdClassTransferParams.to_perp
         FinalizeEvmContractParams.token FinalizeEvmContractParams.variant
         FinalizeEvmContractParams.create_nonce
         AddApiWalletParams.wallet AddApiWalletParams.name
         CancelOrderByOidParams.asset CancelOrderByOidParams.oid
         CancelOrderByCloidParams.asset CancelOrderByCloidParams.cloid
         ApproveBuilderFeeParams.max_fee_rate ApproveBuilderFeeParams.builder
         SendAssetParams.dest SendAssetParams.sub_account SendAssetParams.src_dex
         SendAssetParams.dest_dex SendAssetParams.token SendAssetParams.wei
         ReflectEvmSupplyParams.token ReflectEvmSupplyParams.wei
         ReflectEvmSupplyParams.is_mint
         BorrowLendOpParams.operation BorrowLendOpParams.token
         BorrowLendOpParams.wei];
    use_bounds;
    try (rewrite Hutf8; cbn [mbind result_bind]);
    eexists; unfold _concat_bytes; reflexivity.
Qed.

(** C2. For each of the 15 action variants and every well-typed parameter
    record, the variant's build function returns an encoding, and
    [decode_action] applied to it returns the version [0x01], the
    [action_id] equal to the variant's discriminant, which lies in [1, 15],
    and as [params] the bytes after the four header bytes (as text: their
    hexadecimal digits after [0x], from which [bytes.fromhex] gives those
    bytes back). *)
Theorem decode_action_of_build (a : Action) :
  well_typed a = true ->
  exists enc : bytes,
    build a = Ok enc /\
    decode_action (Bytes enc) =
      Ok {| version := 1;
            action_id := ActionId_value (kind a);
            params := str_lit "0x" ++ bytes_hex (drop 4 enc) |} /\
    1 <= ActionId_value (kind a) <= 15 /\
    bytes_fromhex (bytes_hex (drop 4 enc)) = Ok (drop 4 enc).
Proof.
  intros Hwt. destruct (build_header a Hwt) as [data Hb].
  eexists. split; [exact Hb|].
  split; [apply decode_action_header|].
  split; [destruct a; cbn; lia|].
  apply bytes_fromhex_hex.
Qed.

Lemma decode_action_of_build_witness :
  exists enc : bytes,
    build (LimitOrder (LimitOrderParams.mk 0 true 10500000000000 100 false 0 0))
      = Ok enc /\
    decode_action (Bytes enc) =
      Ok {| version := 1;
            action_id := 1;
            params := str_lit "0x" ++ bytes_hex (drop 4 enc) |} /\
    1 <= 1 <= 15 /\
    bytes_fromhex (bytes_hex (drop 4 enc)) = Ok (drop 4 enc).
Proof.
  exact (decode_action_of_build
           (LimitOrder (LimitOrderParams.mk 0 true 10500000000000 100 false 0 0))
           eq_refl).
Defined.

(** *** Malformed input of [decode_action] *)

Lemma decode_bytes_short (b : bytes) :
  len b < 4 ->
  (version ← getitem b 0;
   b1 ← getitem b 1;
   b2 ← getitem b 2;
   b3 ← getitem b 3;
   Ok {| version := Z_of_byte version;
         action_id :=
           Z.lor (Z.lor (Z.shiftl (Z_of_byte b1) 16) (Z.shiftl (Z_of_byte b2) 8))
                 (Z_of_byte b3);
         params := str_lit "0x" ++ bytes_hex (slice_from b 4) |})
  = Raise IndexError.
Proof.
  intros Hlen.
  destruct b as [|x0 [|x1 [|x2 [|x3 b]]]]; try reflexivity.
  unfold len in Hlen. simpl in Hlen. lia.
Qed.

Lemma replace_0x_keeps (s : str) (c : codepoint) :
  In c s -> c <> 48 -> c <> 120 -> In c (replace_0x s).
Proof.
  unfold str, codepoint in *. intros Hin H48 H120.
  assert (Hgen : forall t : list Z, (In c t -> In c (replace_0x t)) /\
                           (forall a, In c (a :: t) -> In c (replace_0x (a :: t)))).
  { induction t as [|a' t [IH1 IH2]].
    - split; [intros []|]. intros a [->|[]].
      assert (E : replace_0x [c] = [c]).
      { unfold replace_0x. destruct c as [|p|p]; try reflexivity.
        repeat (destruct p as [p|p|]; try reflexivity). }
      rewrite E. left. reflexivity.
    - split; [apply IH2|]. intros a Ha.
      destruct (Z.eq_dec a 48) as [->|Ha48].
      + destruct (Z.eq_dec a' 120) as [->|Ha120].
        * change (replace_0x (48 :: 120 :: t)) with (replace_0x t).
          apply IH1. destruct Ha as [E|[E|Ha]]; [lia|lia|exact Ha].
        * assert (E : replace_0x (48 :: a' :: t) = 48 :: replace_0x (a' :: t)).
          { cbn [replace_0x]. destruct a' as [|p|p]; try reflexivity.
            repeat (destruct p as [p|p|]; try reflexivity). lia. }
          rewrite E. right. apply IH2. destruct Ha as [E'|Ha]; [lia|exact Ha].
      + assert (E : replace_0x (a :: a' :: t) = a :: replace_0x (a' :: t)).
        { cbn [replace_0x]. destruct a as [|p|p]; try reflexivity.
          repeat (destruct p as [p|p|]; try reflexivity). lia. }
        rewrite E. destruct Ha as [->|Ha]; [left; reflexivity|].
        right. apply IH2. exact Ha. }
  apply Hgen. exact Hin.
Qed.

Lemma bytes_fromhex_invalid (s : str) (c : codepoint) :
  In c s -> hex_value c = None -> is_space c = false ->
  bytes_fromhex s = Raise ValueError.
Proof.
  unfold str, codepoint in *. intros Hin Hhex Hsp.
  assert (Hgen : forall t : list Z, (In c t -> bytes_fromhex t = Raise ValueError) /\
                           (forall a, In c (a :: t) ->
                                      bytes_fromhex (a :: t) = Raise ValueError)).
  { induction t as [|a' t [IH1 IH2]].
    - split; [intros []|]. intros a [->|[]].
      cbn [bytes_fromhex]. rewrite Hsp, Hhex. reflexivity.
    - split; [apply IH2|]. intros a Ha.
      cbn [bytes_fromhex].
      destruct (is_space a) eqn:Esp.
      + apply IH2. destruct Ha as [->|Ha]; [congruence|exact Ha].
      + destruct (hex_value a) as [hi|] eqn:Ehi; [|reflexivity].
        destruct (hex_value a') as [lo|] eqn:Elo; [|reflexivity].
        rewrite IH1; [reflexivity|].
        destruct Ha as [->|[->|Ha]]; [congruence|congruence|exact Ha]. }
  apply Hgen. exact Hin.
Qed.

(** C4 (as the code has it). [decode_action] raises (an [IndexError])
    whenever its input, bytes or hexadecimal text once normalized, has fewer
    than 4 bytes; and text that contains a character which is neither a
    hexadecimal digit, nor ASCII whitespace, nor the letter [x] makes it
    raise (a [ValueError]) at once: nothing catches it. *)
Theorem decode_action_malformed (b : bytes) (s : str) (c : codepoint) :
  (len b < 4 -> decode_action (Bytes b) = Raise IndexError) /\
  (bytes_fromhex (replace_0x s) = Ok b -> len b < 4 ->
   decode_action (Str s) = Raise IndexError) /\
  (In c s -> hex_value c = None -> is_space c = false -> c <> 120 ->
   decode_action (Str s) = Raise ValueError).
Proof.
  split; [|split].
  - intros Hlen. unfold decode_action. cbn [mbind result_bind].
    apply decode_bytes_short. exact Hlen.
  - intros Hn Hlen. unfold decode_action. rewrite Hn. cbn [mbind result_bind].
    apply decode_bytes_short. exact Hlen.
  - intros Hin Hhex Hsp Hx. unfold decode_action.
    rewrite (bytes_fromhex_invalid (replace_0x s) c); [reflexivity| |exact Hhex|exact Hsp].
    apply replace_0x_keeps; [exact Hin| |exact Hx].
    intros ->. discriminate Hhex.
Qed.

Lemma decode_action_malformed_witness :
  decode_action (Bytes [x01; x00; x00]) = Raise IndexError /\
  decode_action (Str (str_lit "0x010000")) = Raise IndexError /\
  decode_action (Str (str_lit "0x0100000g")) = Raise ValueError.
Proof.
  split; [|split].
  - apply (proj1 (decode_action_malformed [x01; x00; x00] [] 0)).
    unfold len. simpl. lia.
  - apply (proj1 (proj2 (decode_action_malformed
                           [x01; x00; x00] (str_lit "0x010000") 0))).
    + reflexivity.
    + unfold len. simpl. lia.
  - apply (proj2 (proj2 (decode_action_malformed
                           [] (str_lit "0x0100000g") 103))).
    + vm_compute. repeat (first [left; reflexivity | right]).
    + reflexivity.
    + reflexivity.
    + lia.
Defined.

(** C4 (as stated) fails: text with blanks between the digit pairs, and
    text with the characters [0x] inside it, hold characters that are not
    hexadecimal digits, and both are decoded. *)
Lemma decode_action_accepts_non_hex :
  has_invalid_character (str_lit "01 00 00 07") /\
  decode_action (Str (str_lit "01 00 00 07")) =
    Ok {| version := 1; action_id := 7; params := str_lit "0x" |} /\
  ~ raises (decode_action (Str (str_lit "01 00 00 07"))) /\
  has_invalid_character (str_lit "0100000x07") /\
  decode_action (Str (str_lit "0100000x07")) =
    Ok {| version := 1; action_id := 7; params := str_lit "0x" |} /\
  ~ raises (decode_action (Str (str_lit "0100000x07"))).
Proof.
  repeat split.
  - unfold has_invalid_character. apply Exists_exists.
    exists 32. split; [|reflexivity].
    vm_compute. repeat (first [left; reflexivity | right]).
  - intros H. exact H.
  - unfold has_invalid_character. apply Exists_exists.
    exists 120. split; [|reflexivity].
    vm_compute. repeat (first [left; reflexivity | right]).
  - intros H. exact H.
Qed.

(** ** multicall_example.py *)

(** *** The filters over the full universe *)

Section filters.
Context {World : Type}.
Variable aggregate3 : list Call3 -> World -> result (list Result3) * World.

(** C9. [get_non_zero_positions] returns exactly the elements of
    [get_all_positions] whose [szi] is not zero, in the same order, and
    [get_non_zero_balances] returns exactly the elements of
    [get_all_spot_balances] whose [total] is not zero, in the same order (and
    when the full query raises, so does the filtered one). *)
Theorem get_non_zero_is_filter (user : address) (st : State) :
  (forall all_positions st',
     get_all_positions aggregate3 user st = (Ok all_positions, st') ->
     get_non_zero_positions aggregate3 user st =
       (Ok (filter (fun p => Position.szi p ≠ 0) all_positions), st')) /\
  (forall all_balances st',
     get_all_spot_balances aggregate3 user st = (Ok all_balances, st') ->
     get_non_zero_balances aggregate3 user st =
       (Ok (filter (fun b => SpotBalance.total b ≠ 0) all_balances), st')) /\
  (forall e st',
     get_all_positions aggregate3 user st = (Raise e, st') ->
     get_non_zero_positions aggregate3 user st = (Raise e, st')) /\
  (forall e st',
     get_all_spot_balances aggregate3 user st = (Raise e, st') ->
     get_non_zero_balances aggregate3 user st = (Raise e, st')).
Proof.
  unfold get_non_zero_positions, get_non_zero_balances, bindM, ret.
  repeat split; intros ? ? ->; reflexivity.
Qed.

End filters.

Lemma get_non_zero_is_filter_witness :
  exists all_positions st1 all_balances st2,
    get_all_positions sample_node 0x33578377Dd2D850Db9a4FEf38f5a9190bb94E823
      initial_state = (Ok all_positions, st1) /\
    get_non_zero_positions sample_node 0x33578377Dd2D850Db9a4FEf38f5a9190bb94E823
      initial_state =
      (Ok (filter (fun p => Position.szi p ≠ 0) all_positions), st1) /\
    get_all_spot_balances sample_node 0x33578377Dd2D850Db9a4FEf38f5a9190bb94E823
      initial_state = (Ok all_balances, st2) /\
    get_non_zero_balances sample_node 0x33578377Dd2D850Db9a4FEf38f5a9190bb94E823
      initial_state =
      (Ok (filter (fun b => SpotBalance.total b ≠ 0) all_balances), st2) /\
    (0 < length (filter (fun p => Position.szi p ≠ 0%Z) all_positions)
       < length all_positions)%nat.
Proof.
  pose proof (get_non_zero_is_filter sample_node
                0x33578377Dd2D850Db9a4FEf38f5a9190bb94E823 initial_state)
    as (Hp & Hb & _).
  eexists _, _, _, _.
  split; [vm_compute; reflexivity|].
  split; [apply Hp; vm_compute; reflexivity|].
  split; [vm_compute; reflexivity|].
  split; [apply Hb; vm_compute; reflexivity|].
  vm_compute. split; repeat constructor.
Defined.

(** *** Lists of replies *)

Lemma getitem_nat {A : Type} (l : list A) (i : nat) :
  getitem l (Z.of_nat i) =
  match l !! i with
  | Some a => Ok a
  | None => Raise IndexError
  end.
Proof.
  assert (E : (Z.of_nat i <? 0) = false) by (apply Z.ltb_ge; lia).
  unfold getitem. cbv zeta. rewrite E. cbv iota. rewrite E.
  rewrite Nat2Z.id. reflexivity.
Qed.

Lemma enumerate_eq {A : Type} (rs : list A) :
  enumerate rs = zip (map Z.of_nat (seq 0 (length rs))) rs.
Proof. unfold enumerate, range, len. rewrite Nat2Z.id. reflexivity. Qed.

Lemma collect_omap {A B : Type} (body : Z -> A -> option B) (rs : list A) :
  collect body rs = omap (fun ir => body (fst ir) (snd ir)) (enumerate rs).
Proof.
  unfold collect.
  assert (Hgen : forall (l : list (Z * A)) (acc : list B),
    fold_left (fun out ir => match body (fst ir) (snd ir) with
                             | Some x => out ++ [x]
                             | None => out
                             end) l acc
    = acc ++ omap (fun ir => body (fst ir) (snd ir)) l).
  { induction l as [|ir l IH]; intros acc; simpl.
    - rewrite app_nil_r. reflexivity.
    - rewrite IH. destruct (body (fst ir) (snd ir)); [|reflexivity].
      rewrite <- app_assoc. reflexivity. }
  rewrite Hgen. reflexivity.
Qed.

Lemma lookup_zip_seq {A : Type} (rs : list A) (k i : nat) (z : Z) (r : A) :
  zip (map Z.of_nat (seq k (length rs))) rs !! i = Some (z, r) <->
  z = Z.of_nat (k + i) /\ rs !! i = Some r.
Proof.
  revert k i. induction rs as [|r0 rs IH]; intros k i; simpl.
  - split; [discriminate|]. intros [_ H]. discriminate H.
  - destruct i as [|i]; simpl.
    + rewrite Nat.add_0_r. split.
      * intros H. injection H as <- <-. split; reflexivity.
      * intros [-> H]. injection H as <-. reflexivity.
    + rewrite IH. replace (S k + i)%nat with (k + S i)%nat by lia. reflexivity.
Qed.

Lemma elem_of_collect {A B : Type} (body : Z -> A -> option B) (rs : list A) (b : B) :
  b ∈ collect body rs <->
  exists (i : nat) (r : A), rs !! i = Some r /\ body (Z.of_nat i) r = Some b.
Proof.
  rewrite collect_omap, list_elem_of_omap, enumerate_eq. split.
  - intros ([z r] & Hin & Hb). apply list_elem_of_lookup in Hin as [i Hi].
    apply lookup_zip_seq in Hi as [-> Hr]. exists i, r. split; assumption.
  - intros (i & r & Hr & Hb). exists (Z.of_nat i, r). split; [|exact Hb].
    apply list_elem_of_lookup. exists i. apply lookup_zip_seq. split; [|exact Hr].
    reflexivity.
Qed.

(** *** Decoding of fixed tuples *)

Lemma test_word_complete (d : bytes) :
  (len (take 32 d) =? 32) = (32 <=? len d).
Proof.
  unfold len. rewrite length_take.
  destruct (Z.eqb_spec (Z.of_nat (Nat.min 32 (length d))) 32);
    destruct (Z.leb_spec 32 (Z.of_nat (length d))); lia.
Qed.

Lemma len_drop {A : Type} (l : list A) (n : nat) :
  len (drop n l) = Z.max 0 (len l - Z.of_nat n).
Proof. unfold len. rewrite length_drop. lia. Qed.

Lemma decode_short (types : list abi_type) (d : bytes) :
  len d < 32 * len types -> exists e, decode types d = Raise e.
Proof.
  revert d. induction types as [|t types IH]; intros d Hd.
  - unfold len in Hd. simpl in Hd. lia.
  - cbn [decode]. rewrite test_word_complete.
    destruct (Z.leb_spec 32 (len d)); [|eexists; reflexivity].
    destruct (decode_word t (take 32 d)); [|eexists; reflexivity].
    cbn [mbind result_bind].
    destruct (IH (drop 32 d)) as [e He].
    + unfold len in *. rewrite length_drop. simpl length in Hd. lia.
    + rewrite He. eexists. reflexivity.
Qed.

Lemma decode_word_uint (bits : Z) (w : bytes) (v : value) :
  decode_word (Tuint bits) w = Ok v ->
  v = VInt (from_bytes_big w) /\ 0 <= from_bytes_big w < 2 ^ bits.
Proof.
  unfold decode_word. pose proof (from_bytes_big_nonneg w).
  destruct (Z.ltb_spec (from_bytes_big w) (2 ^ bits)); [|discriminate].
  intros H'. injection H' as <-. split; [reflexivity|lia].
Qed.

Lemma word_at_0 (d : bytes) : word_at d 0 = take 32 d.
Proof. reflexivity. Qed.

Lemma word_at_1 (d : bytes) : word_at d 1 = take 32 (drop 32 d).
Proof. reflexivity. Qed.

Lemma word_at_2 (d : bytes) : word_at d 2 = take 32 (drop 32 (drop 32 d)).
Proof. unfold word_at. rewrite drop_drop. reflexivity. Qed.

Lemma decode_uint64x3 (d : bytes) :
  decode [Tuint 64; Tuint 64; Tuint 64] d =
  if (96 <=? len d)
     && (from_bytes_big (word_at d 0) <? 2 ^ 64)
     && (from_bytes_big (word_at d 1) <? 2 ^ 64)
     && (from_bytes_big (word_at d 2) <? 2 ^ 64)
  then Ok [VInt (from_bytes_big (word_at d 0));
           VInt (from_bytes_big (word_at d 1));
           VInt (from_bytes_big (word_at d 2))]
  else Raise DecodingError.
Proof.
  rewrite word_at_0, word_at_1, word_at_2.
  cbn [decode]. unfold decode_word.
  rewrite !test_word_complete, !len_drop.
  destruct (Z.leb_spec 32 (len d));
    destruct (Z.leb_spec 96 (len d)); try lia;
    cbn [andb]; try reflexivity;
    destruct (from_bytes_big (take 32 d) <? 2 ^ 64);
    cbn [andb mbind result_bind]; try reflexivity;
    destruct (Z.leb_spec 32 (Z.max 0 (len d - Z.of_nat 32)));
    try lia; try reflexivity;
    destruct (from_bytes_big (take 32 (drop 32 d)) <? 2 ^ 64);
    cbn [andb mbind result_bind]; try reflexivity;
    destruct (Z.leb_spec 32 (Z.max 0 (Z.max 0 (len d - Z.of_nat 32) - Z.of_nat 32)));
    try lia; try reflexivity;
    destruct (from_bytes_big (take 32 (drop 32 (drop 32 d))) <? 2 ^ 64);
    cbn [andb mbind result_bind]; reflexivity.
Qed.

Lemma balance_of_result_eq (token_indices : list Z) (i : nat) (success : bool)
      (d : bytes) :
  balance_of_result token_indices (Z.of_nat i) (success, d) =
  if success && (96 <=? len d)
     && (from_bytes_big (word_at d 0) <? 2 ^ 64)
     && (from_bytes_big (word_at d 1) <? 2 ^ 64)
     && (from_bytes_big (word_at d 2) <? 2 ^ 64)
  then match token_indices !! i with
       | Some idx =>
           Some (SpotBalance.mk idx (from_bytes_big (word_at d 0))
                                (from_bytes_big (word_at d 1))
                                (from_bytes_big (word_at d 2)))
       | None => None
       end
  else None.
Proof.
  unfold balance_of_result. rewrite decode_uint64x3, getitem_nat.
  destruct success; [|reflexivity]. cbn [andb].
  destruct (Z.leb_spec 24 (len d)); destruct (Z.leb_spec 96 (len d));
    try lia; cbn [andb]; try reflexivity.
  destruct (_ && _ && _); [|reflexivity].
  cbn [mbind result_bind]. destruct (token_indices !! i); reflexivity.
Qed.

(** *** The requests *)

Lemma comprehension_ok {A B : Type} (f : A -> result B) (g : A -> B) (l : list A) :
  (forall x, In x l -> f x = Ok (g x)) -> comprehension f l = Ok (map g l).
Proof.
  induction l as [|x l IH]; intros Hf; [reflexivity|].
  cbn [comprehension]. rewrite (Hf x) by (left; reflexivity).
  cbn [mbind result_bind]. rewrite IH by (intros y Hy; apply Hf; right; exact Hy).
  reflexivity.
Qed.

Lemma encode_address_uint (bits : Z) (user : address) (idx : Z) :
  is_address user = true -> is_uint bits idx = true ->
  encode [Taddress; Tuint bits] [VAddr user; VInt idx] =
  Ok (encode_uint_256 user ++ encode_uint_256 idx).
Proof.
  intros Hu Hi. unfold encode, encode_chunks, encode_value.
  use_bounds. cbn [mbind result_bind is_dynamic head_chunks map snd concat].
  rewrite !app_nil_r. reflexivity.
Qed.

Lemma encode_uint (bits : Z) (idx : Z) :
  is_uint bits idx = true ->
  encode [Tuint bits] [VInt idx] = Ok (encode_uint_256 idx).
Proof.
  intros Hi. unfold encode, encode_chunks, encode_value.
  use_bounds. cbn [mbind result_bind is_dynamic head_chunks map snd concat].
  rewrite !app_nil_r. reflexivity.
Qed.

Section batches.
Context {World : Type}.
Variable aggregate3 : list Call3 -> World -> result (list Result3) * World.

Lemma batch_get_spot_balances_run (user : address) (token_indices : list Z)
      (st : State) (rs : list Result3) (w' : World) :
  is_address user = true ->
  Forall (fun idx => is_uint 64 idx = true) token_indices ->
  aggregate3 (map (balance_call user) token_indices) (world st) = (Ok rs, w') ->
  batch_get_spot_balances aggregate3 user token_indices st =
  (Ok (collect (balance_of_result token_indices) rs),
   {| world := w';
      calls_made := calls_made st
                      ++ [(map (balance_call user) token_indices, Ok rs)] |}).
Proof.
  intros Hu Hidx Hnode. unfold batch_get_spot_balances, bindM, lift, ret.
  unfold to_checksum_address. rewrite Hu.
  rewrite (comprehension_ok _ (balance_call user)).
  - unfold call_aggregate3. rewrite Hnode. reflexivity.
  - intros idx Hin. rewrite Forall_forall in Hidx.
    rewrite encode_address_uint
      by (try (apply Hidx, list_elem_of_In); assumption).
    reflexivity.
Qed.

Lemma batch_get_positions_run (user : address) (perp_indices : list Z)
      (st : State) (rs : list Result3) (w' : World) :
  is_address user = true ->
  Forall (fun idx => is_uint 16 idx = true) perp_indices ->
  aggregate3 (map (position_call user) perp_indices) (world st) = (Ok rs, w') ->
  batch_get_positions aggregate3 user perp_indices st =
  (Ok (collect (position_of_result perp_indices) rs),
   {| world := w';
      calls_made := calls_made st
                      ++ [(map (position_call user) perp_indices, Ok rs)] |}).
Proof.
  intros Hu Hidx Hnode. unfold batch_get_positions, bindM, lift, ret.
  unfold to_checksum_address. rewrite Hu.
  rewrite (comprehension_ok _ (position_call user)).
  - unfold call_aggregate3. rewrite Hnode. reflexivity.
  - intros idx Hin. rewrite Forall_forall in Hidx.
    rewrite encode_address_uint
      by (try (apply Hidx, list_elem_of_In); assumption).
    reflexivity.
Qed.

Lemma batch_get_mark_prices_run (perp_indices : list Z)
      (st : State) (rs : list Result3) (w' : World) :
  Forall (fun idx => is_uint 32 idx = true) perp_indices ->
  aggregate3 (map price_call perp_indices) (world st) = (Ok rs, w') ->
  batch_get_mark_prices aggregate3 perp_indices st =
  (prices_of_results perp_indices rs,
   {| world := w';
      calls_made := calls_made st ++ [(map price_call perp_indices, Ok rs)] |}).
Proof.
  intros Hidx Hnode. unfold batch_get_mark_prices, bindM, lift, ret.
  rewrite (comprehension_ok _ price_call).
  - unfold call_aggregate3. rewrite Hnode.
    destruct (prices_of_results perp_indices rs); reflexivity.
  - intros idx Hin. rewrite Forall_forall in Hidx.
    rewrite encode_uint by (apply Hidx, list_elem_of_In; assumption).
    reflexivity.
Qed.

End batches.

(** *** Spot balances *)

Lemma sample_node_answers : answers sample_node.
Proof.
  intros calls w. exists (map sample_reply calls).
  split; [reflexivity | apply length_map].
Qed.

Section spot_balances.
Context {World : Type}.
Variable aggregate3 : list Call3 -> World -> result (list Result3) * World.

(** C8 (as the code has it). [batch_get_spot_balances] decodes a
    [SpotBalance] for every successful batch element whose payload has at
    least 96 bytes (three 32-byte words) each word being an unsigned 64-bit
    value; the fields [total], [hold] and [entry_ntl] of every record are
    unsigned 64-bit integers; and a successful element with a shorter
    payload, in particular one shorter than 24 bytes, produces no record
    for its index. *)
Theorem batch_get_spot_balances_records (user : address) (token_indices : list Z)
        (st : State) :
  is_address user = true ->
  Forall (fun idx => is_uint 64 idx = true) token_indices ->
  answers aggregate3 ->
  exists (calls : list Call3) (rs : list Result3)
         (balances : list SpotBalance.t) (st' : State),
    batch_get_spot_balances aggregate3 user token_indices st = (Ok balances, st') /\
    calls_made st' = calls_made st ++ [(calls, Ok rs)] /\
    length calls = length token_indices /\
    length rs = length calls /\
    (forall (i : nat) (idx : Z) (d : bytes),
       rs !! i = Some (true, d) -> token_indices !! i = Some idx ->
       96 <= len d ->
       from_bytes_big (word_at d 0) < 2 ^ 64 ->
       from_bytes_big (word_at d 1) < 2 ^ 64 ->
       from_bytes_big (word_at d 2) < 2 ^ 64 ->
       SpotBalance.mk idx (from_bytes_big (word_at d 0))
                      (from_bytes_big (word_at d 1))
                      (from_bytes_big (word_at d 2)) ∈ balances) /\
    (forall b, b ∈ balances ->
       0 <= SpotBalance.total b < 2 ^ 64 /\
       0 <= SpotBalance.hold b < 2 ^ 64 /\
       0 <= SpotBalance.entry_ntl b < 2 ^ 64) /\
    (NoDup token_indices ->
     forall (i : nat) (idx : Z) (d : bytes),
       rs !! i = Some (true, d) -> token_indices !! i = Some idx ->
       len d < 96 ->
       forall b, b ∈ balances -> SpotBalance.token_index b <> idx).
Proof.
  intros Hu Hidx Hans.
  destruct (Hans (map (balance_call user) token_indices) (world st))
    as (rs & Hrs & Hlen).
  destruct (aggregate3 (map (balance_call user) token_indices) (world st))
    as [r w'] eqn:Hnode. cbn [fst] in Hrs. subst r.
  exists (map (balance_call user) token_indices), rs,
         (collect (balance_of_result token_indices) rs).
  eexists. split; [apply batch_get_spot_balances_run; eassumption|].
  split; [reflexivity|]. split; [apply length_map|]. split; [exact Hlen|].
  split; [|split].
  - intros i idx d Hr Hi Hd H0 H1 H2.
    apply elem_of_collect. exists i, (true, d). split; [exact Hr|].
    rewrite balance_of_result_eq, Hi.
    replace (96 <=? len d) with true by (symmetry; apply Z.leb_le; exact Hd).
    replace (from_bytes_big (word_at d 0) <? 2 ^ 64) with true
      by (symmetry; apply Z.ltb_lt; exact H0).
    replace (from_bytes_big (word_at d 1) <? 2 ^ 64) with true
      by (symmetry; apply Z.ltb_lt; exact H1).
    replace (from_bytes_big (word_at d 2) <? 2 ^ 64) with true
      by (symmetry; apply Z.ltb_lt; exact H2).
    reflexivity.
  - intros b Hb. apply elem_of_collect in Hb as (i & [s d] & Hr & Hb).
    rewrite balance_of_result_eq in Hb.
    destruct (_ && _ && _ && _ && _) eqn:E; [|discriminate Hb].
    destruct (token_indices !! i); [|discriminate Hb].
    injection Hb as <-.
    cbn [SpotBalance.total SpotBalance.hold SpotBalance.entry_ntl].
    repeat (apply andb_true_iff in E; destruct E as [E ?]).
    pose proof (from_bytes_big_nonneg (word_at d 0)).
    pose proof (from_bytes_big_nonneg (word_at d 1)).
    pose proof (from_bytes_big_nonneg (word_at d 2)).
    repeat split; try assumption; apply Z.ltb_lt; assumption.
  - intros Hnd i idx d Hr Hi Hd b Hb Heq.
    apply elem_of_collect in Hb as (j & [s d'] & Hr' & Hb).
    rewrite balance_of_result_eq in Hb.
    destruct (_ && _ && _ && _ && _) eqn:E; [|discriminate Hb].
    destruct (token_indices !! j) as [idx'|] eqn:Hj; [|discriminate Hb].
    injection Hb as <-. cbn [SpotBalance.token_index] in Heq. subst idx'.
    assert (j = i) by (eapply NoDup_lookup; eassumption). subst j.
    pose proof (eq_trans (eq_sym Hr) Hr') as Hsd. injection Hsd as <- <-.
    repeat (apply andb_true_iff in E; destruct E as [E ?]).
    match goal with
    | H : (96 <=? len d) = true |- _ => apply Z.leb_le in H; lia
    end.
Qed.

End spot_balances.

Lemma batch_get_spot_balances_records_witness :
  is_address 0x33578377Dd2D850Db9a4FEf38f5a9190bb94E823 = true /\
  Forall (fun idx => is_uint 64 idx = true) [1; 2; 3; 4] /\
  answers sample_node /\
  exists (rs : list Result3) (balances : list SpotBalance.t) (st' : State),
    batch_get_spot_balances sample_node
      0x33578377Dd2D850Db9a4FEf38f5a9190bb94E823 [1; 2; 3; 4] initial_state
      = (Ok balances, st') /\
    length rs = 4%nat /\
    (forall b, b ∈ balances ->
       0 <= SpotBalance.total b < 2 ^ 64 /\
       0 <= SpotBalance.hold b < 2 ^ 64 /\
       0 <= SpotBalance.entry_ntl b < 2 ^ 64).
Proof.
  assert (Hidx : Forall (fun idx => is_uint 64 idx = true) [1; 2; 3; 4])
    by (repeat constructor).
  split; [reflexivity|]. split; [exact Hidx|].
  split; [exact sample_node_answers|].
  destruct (batch_get_spot_balances_records sample_node
              0x33578377Dd2D850Db9a4FEf38f5a9190bb94E823 [1; 2; 3; 4]
              initial_state eq_refl Hidx sample_node_answers)
    as (calls & rs & balances & st' & Hrun & _ & Hc & Hr & _ & Hfields & _).
  exists rs, balances, st'.
  split; [exact Hrun|]. split; [rewrite Hr, Hc; reflexivity|]. exact Hfields.
Defined.

(** C8 (as stated) fails: a successful element whose payload has 24 bytes
    yields no record. *)
Lemma batch_get_spot_balances_24_bytes :
  24 <= len (replicate 24 x00) /\
  exists (calls : list Call3) (st' : State),
    batch_get_spot_balances short_node
      0x33578377Dd2D850Db9a4FEf38f5a9190bb94E823 [0] initial_state
      = (Ok [], st') /\
    calls_made st' = [(calls, Ok [(true, replicate 24 x00)])].
Proof.
  split; [vm_compute; discriminate|].
  eexists _, _. split; vm_compute; reflexivity.
Qed.

(** *** The indices kept from a batch *)

Section kept.
Context {A : Type} (keep : A -> bool).

Lemma kept_nil_l (rs : list A) : kept keep [] rs = [].
Proof. reflexivity. Qed.

Lemma kept_nil_r (indices : list Z) : kept keep indices [] = [].
Proof. unfold kept. rewrite zip_with_nil_r. reflexivity. Qed.

Lemma kept_cons (idx : Z) (indices : list Z) (r : A) (rs : list A) :
  kept keep (idx :: indices) (r :: rs) =
  if keep r then idx :: kept keep indices rs else kept keep indices rs.
Proof. unfold kept. cbn. destruct (keep r); reflexivity. Qed.

Lemma kept_sublist (indices : list Z) (rs : list A) :
  kept keep indices rs `sublist_of` indices.
Proof.
  revert rs. induction indices as [|idx indices IH]; intros rs.
  - rewrite kept_nil_l. constructor.
  - destruct rs as [|r rs].
    + rewrite kept_nil_r. apply sublist_nil_l.
    + rewrite kept_cons. destruct (keep r).
      * apply sublist_skip, IH.
      * apply sublist_cons, IH.
Qed.



End kept.

(** The keys of the records collected from a batch. *)
Lemma map_key_collect {A B P : Type} (pre : A -> option P) (mkb : P -> Z -> B)
      (key : B -> Z) (body : Z -> A -> option B) (indices : list Z) (rs : list A) :
  (forall (i : nat) r,
     body (Z.of_nat i) r =
     match pre r, indices !! i with
     | Some p, Some idx => Some (mkb p idx)
     | _, _ => None
     end) ->
  (forall p idx, key (mkb p idx) = idx) ->
  map key (collect body rs) =
  kept (fun r => match pre r with Some _ => true | None => false end) indices rs.
Proof.
  intros Hbody Hkey. rewrite collect_omap, enumerate_eq.
  change (kept ?f indices rs) with (kept f (drop 0 indices) rs).
  generalize 0%nat as k. induction rs as [|r rs IH]; intros k.
  - rewrite kept_nil_r. reflexivity.
  - cbn [length seq map zip zip_with omap list_omap fst snd].
    rewrite Hbody.
    destruct (indices !! k) as [idx|] eqn:Hk.
    + rewrite (drop_S _ _ _ Hk), kept_cons.
      destruct (pre r) as [p|]; cbn [map]; rewrite ?Hkey, IH; reflexivity.
    + rewrite (drop_ge indices k) by (apply lookup_ge_None; exact Hk).
      rewrite kept_nil_l.
      specialize (IH (S k)).
      rewrite (drop_ge indices (S k)) in IH
        by (apply lookup_ge_None in Hk; lia).
      rewrite kept_nil_l in IH.
      destruct (pre r); exact IH.
Qed.

(** *** Positions and prices of a batch *)

Lemma position_of_result_index (perp_indices : list Z) (i : nat) (r : Result3) :
  position_of_result perp_indices (Z.of_nat i) r =
  match position_of_result [0] 0 r, perp_indices !! i with
  | Some p, Some idx => Some (with_index p idx)
  | _, _ => None
  end.
Proof.
  unfold position_of_result. destruct r as [success return_data].
  destruct (success && (32 <=? len return_data)); [|reflexivity].
  rewrite getitem_nat.
  destruct (decode _ return_data) as [vals|e]; [|reflexivity].
  cbn [mbind result_bind try_except_none].
  repeat match goal with
         | |- context [match ?x with _ => _ end] =>
             is_var x; destruct x; cbn [try_except_none]; try reflexivity
         end;
    change (getitem [0] 0) with (Ok 0 : result Z);
    cbn [mbind result_bind try_except_none];
    destruct (perp_indices !! i); reflexivity.
Qed.

Lemma position_not_kept (d : bytes) : position_of_result [0] 0 (false, d) = None.
Proof. reflexivity. Qed.

Lemma prices_of_results_dom (perp_indices : list Z) (rs : list Result3) :
  Forall (fun r : Result3 =>
            fst r = true -> 0 < len (snd r) ->
            exists v, decode [Tuint 64] (snd r) = Ok [VInt v]) rs ->
  (length rs <= length perp_indices)%nat ->
  exists prices : gmap Z Z,
    prices_of_results perp_indices rs = Ok prices /\
    dom prices = list_to_set (kept holds_price perp_indices rs).
Proof.
  intros Hdec Hlen. unfold prices_of_results. rewrite enumerate_eq.
  assert (Hgen : forall (rs : list Result3) (k : nat) (acc : gmap Z Z),
    Forall (fun r : Result3 =>
              fst r = true -> 0 < len (snd r) ->
              exists v, decode [Tuint 64] (snd r) = Ok [VInt v]) rs ->
    (k + length rs <= length perp_indices)%nat ->
    exists prices : gmap Z Z,
      for_each
        (fun (prices : gmap Z Z) (ir : Z * Result3) =>
           let '(i, (success, return_data)) := ir in
           if success && (0 <? len return_data) then
             vals ← decode [Tuint 64] return_data;
             first ← getitem vals 0;
             match first with
             | VInt price =>
                 perp_index ← getitem perp_indices i;
                 Ok (<[perp_index := price]> prices)
             | _ => Raise TypeError
             end
           else Ok prices)
        (zip (map Z.of_nat (seq k (length rs))) rs) acc = Ok prices /\
      dom prices = dom acc ∪ list_to_set (kept holds_price (drop k perp_indices) rs)).
  { clear rs Hdec Hlen. induction rs as [|[success d] rs IH]; intros k acc Hdec Hlen.
    - exists acc. split; [reflexivity|]. rewrite kept_nil_r.
      rewrite list_to_set_nil, union_empty_r_L. reflexivity.
    - apply Forall_cons in Hdec as [Hd Hdec]. cbn [length] in Hlen.
      destruct (lookup_lt_is_Some_2 perp_indices k) as [idx Hidx]; [lia|].
      rewrite (drop_S _ _ _ Hidx), kept_cons.
      cbn [length seq map zip zip_with for_each].
      unfold holds_price. cbn [fst snd] in Hd |- *.
      destruct (success && (0 <? len d)) eqn:E.
      + apply andb_true_iff in E as [-> E]. apply Z.ltb_lt in E.
        destruct (Hd eq_refl E) as [v Hv]. rewrite Hv.
        cbn [mbind result_bind].
        change (getitem [VInt v] 0) with (Ok (VInt v) : result value).
        cbn [mbind result_bind]. rewrite getitem_nat, Hidx.
        cbn [mbind result_bind].
        destruct (IH (S k) (<[idx := v]> acc) Hdec ltac:(lia)) as (m & Hm & Hdom).
        exists m. split; [exact Hm|]. rewrite Hdom, dom_insert_L.
        rewrite list_to_set_cons.
        rewrite (union_comm_L {[idx]} (dom acc)), <- union_assoc_L.
        reflexivity.
      + cbn [mbind result_bind].
        destruct (IH (S k) acc Hdec ltac:(lia)) as (m & Hm & Hdom).
        exists m. split; [exact Hm|]. exact Hdom. }
  destruct (Hgen rs 0%nat ∅ Hdec ltac:(lia)) as (m & Hm & Hdom).
  exists m. split; [exact Hm|]. rewrite Hdom, dom_empty_L, union_empty_l_L.
  reflexivity.
Qed.

(** *** The 225 perp indices in two batches *)

Lemma chunk_list_perps :
  chunk_list (range 225) 200 = Ok [first_chunk; second_chunk].
Proof. vm_compute. reflexivity. Qed.

Lemma chunks_cover : first_chunk ++ second_chunk = range 225.
Proof. vm_compute. reflexivity. Qed.

Lemma NoDup_range (n : Z) : NoDup (range n).
Proof. unfold range. apply NoDup_fmap_2; [apply _|apply NoDup_seq]. Qed.

Lemma length_range (n : Z) : length (range n) = Z.to_nat n.
Proof. unfold range. rewrite length_map, length_seq. reflexivity. Qed.

Lemma Forall_forallb {A : Type} (f : A -> bool) (l : list A) :
  forallb f l = true -> Forall (fun x => f x = true) l.
Proof.
  induction l as [|x l IH]; intros H; constructor;
    apply andb_true_iff in H as [? ?]; auto.
Qed.

Lemma chunks_uint16 :
  Forall (fun idx => is_uint 16 idx = true) first_chunk /\
  Forall (fun idx => is_uint 16 idx = true) second_chunk.
Proof. split; apply Forall_forallb; vm_compute; reflexivity. Qed.

Lemma chunks_uint32 :
  Forall (fun idx => is_uint 32 idx = true) first_chunk /\
  Forall (fun idx => is_uint 32 idx = true) second_chunk.
Proof. split; apply Forall_forallb; vm_compute; reflexivity. Qed.

Section two_batches.
Context {World : Type}.
Variable aggregate3 : list Call3 -> World -> result (list Result3) * World.

Lemma get_all_positions_run (user : address) (st : State)
      (rs1 rs2 : list Result3) (w1 w2 : World) :
  is_address user = true ->
  aggregate3 (map (position_call user) first_chunk) (world st) = (Ok rs1, w1) ->
  aggregate3 (map (position_call user) second_chunk) w1 = (Ok rs2, w2) ->
  get_all_positions aggregate3 user st =
  (Ok (collect (position_of_result first_chunk) rs1
         ++ collect (position_of_result second_chunk) rs2),
   {| world := w2;
      calls_made :=
        calls_made st ++ [(map (position_call user) first_chunk, Ok rs1);
                          (map (position_call user) second_chunk, Ok rs2)] |}).
Proof.
  intros Hu H1 H2. unfold get_all_positions, bindM, lift.
  rewrite chunk_list_perps. cbn [for_eachM]. unfold bindM, ret.
  rewrite (batch_get_positions_run aggregate3 user first_chunk st rs1 w1 Hu
             (proj1 chunks_uint16) H1).
  rewrite (batch_get_positions_run aggregate3 user second_chunk
             {| world := w1;
                calls_made :=
                  calls_made st ++ [(map (position_call user) first_chunk, Ok rs1)] |}
             rs2 w2 Hu (proj2 chunks_uint16) H2).
  cbn [calls_made app]. rewrite <- app_assoc. reflexivity.
Qed.

Lemma get_all_mark_prices_run (st : State) (rs1 rs2 : list Result3)
      (w1 w2 : World) (prices1 prices2 : gmap Z Z) :
  aggregate3 (map price_call first_chunk) (world st) = (Ok rs1, w1) ->
  aggregate3 (map price_call second_chunk) w1 = (Ok rs2, w2) ->
  prices_of_results first_chunk rs1 = Ok prices1 ->
  prices_of_results second_chunk rs2 = Ok prices2 ->
  get_all_mark_prices aggregate3 st =
  (Ok (prices2 ∪ (prices1 ∪ ∅)),
   {| world := w2;
      calls_made :=
        calls_made st ++ [(map price_call first_chunk, Ok rs1);
                          (map price_call second_chunk, Ok rs2)] |}).
Proof.
  intros H1 H2 Hp1 Hp2. unfold get_all_mark_prices, bindM, lift.
  rewrite chunk_list_perps. cbn [for_eachM]. unfold bindM, ret.
  rewrite (batch_get_mark_prices_run aggregate3 first_chunk st rs1 w1
             (proj1 chunks_uint32) H1), Hp1.
  rewrite (batch_get_mark_prices_run aggregate3 second_chunk
             {| world := w1;
                calls_made :=
                  calls_made st ++ [(map price_call first_chunk, Ok rs1)] |}
             rs2 w2 (proj2 chunks_uint32) H2), Hp2.
  cbn [calls_made app]. rewrite <- app_assoc. reflexivity.
Qed.

End two_batches.





Section perps_in_two_batches.
Context {World : Type}.
Variable aggregate3 : list Call3 -> World -> result (list Result3) * World.


End perps_in_two_batches.



(** *** Reading words from hexadecimal text *)

Lemma bytes_hex_cons (x : byte) (b : bytes) :
  bytes_hex (x :: b) =
  hex_digit (Z_of_byte x / 16) :: hex_digit (Z_of_byte x mod 16) :: bytes_hex b.
Proof. reflexivity. Qed.

Lemma bytes_hex_app (a b : bytes) : bytes_hex (a ++ b) = bytes_hex a ++ bytes_hex b.
Proof. unfold bytes_hex. apply flat_map_app. Qed.

Lemma length_bytes_hex (b : bytes) : length (bytes_hex b) = (2 * length b)%nat.
Proof.
  induction b as [|x b IH]; [reflexivity|].
  rewrite bytes_hex_cons. cbn [length]. rewrite IH. lia.
Qed.

Lemma take_bytes_hex (k : nat) (b : bytes) :
  take (2 * k) (bytes_hex b) = bytes_hex (take k b).
Proof.
  revert b. induction k as [|k IH]; intros b; [reflexivity|].
  destruct b as [|x b]; [reflexivity|].
  replace (2 * S k)%nat with (S (S (2 * k))) by lia.
  rewrite bytes_hex_cons. cbn [take]. rewrite bytes_hex_cons, IH. reflexivity.
Qed.

Lemma drop_bytes_hex (k : nat) (b : bytes) :
  drop (2 * k) (bytes_hex b) = bytes_hex (drop k b).
Proof.
  revert b. induction k as [|k IH]; intros b; [reflexivity|].
  destruct b as [|x b]; [reflexivity|].
  replace (2 * S k)%nat with (S (S (2 * k))) by lia.
  rewrite bytes_hex_cons. cbn [drop]. apply IH.
Qed.

Lemma int16_digits_hex (b : bytes) :
  int16_digits (bytes_hex b) = Some (from_bytes_big b).
Proof.
  unfold int16_digits, from_bytes_big. generalize 0 as a.
  induction b as [|x b IH]; intros a; [reflexivity|].
  destruct (byte_digits x) as (Hhi & Hlo & _).
  rewrite bytes_hex_cons. cbn [fold_left].
  rewrite !hex_value_hex_digit by assumption.
  rewrite IH. do 2 f_equal.
  pose proof (Z.div_mod (Z_of_byte x) 16). lia.
Qed.

Lemma int16_hex (b : bytes) :
  int16 (bytes_hex b) =
  match b with
  | [] => Raise ValueError
  | _ => Ok (from_bytes_big b)
  end.
Proof.
  destruct b as [|x b]; [reflexivity|].
  unfold int16. rewrite int16_digits_hex. rewrite bytes_hex_cons. reflexivity.
Qed.

(** The text handed to [read_uint]: [0x] and the digits of the reply. *)
Lemma slice_hex_data (b : bytes) (first count : nat) :
  slice (str_lit "0x" ++ bytes_hex b)
        (2 + Z.of_nat (2 * first)) (2 + Z.of_nat (2 * first) + Z.of_nat (2 * count))
  = bytes_hex (take count (drop first b)).
Proof.
  rewrite slice_nonneg by lia.
  replace (Z.to_nat (2 + Z.of_nat (2 * first))) with (2 + 2 * first)%nat by lia.
  replace (Z.to_nat (2 + Z.of_nat (2 * first) + Z.of_nat (2 * count)))
    with (2 + 2 * (first + count))%nat by lia.
  change (str_lit "0x") with [48; 120].
  cbn [app]. change (take (2 + ?n) (?x :: ?y :: ?l)) with (x :: y :: take n l).
  change (drop (2 + ?n) (?x :: ?y :: ?l)) with (drop n l).
  rewrite take_bytes_hex, drop_bytes_hex, take_drop_commute. reflexivity.
Qed.

Lemma read_uint_hex (b : bytes) (w : Z) :
  0 <= w ->
  read_uint (str_lit "0x" ++ bytes_hex b) w = int16 (bytes_hex (word_at b w)).
Proof.
  intros Hw. unfold read_uint, word_at. cbv zeta.
  rewrite <- (slice_hex_data b (Z.to_nat (32 * w)) 32).
  f_equal. f_equal; lia.
Qed.

Lemma word_at_nil (b : bytes) (w : Z) :
  0 <= w -> len b <= 32 * w -> word_at b w = [].
Proof.
  intros Hw Hb. unfold word_at. rewrite drop_ge by (unfold len in Hb; lia).
  reflexivity.
Qed.

Lemma word_at_not_nil (b : bytes) (w : Z) :
  0 <= w -> 32 * w < len b -> word_at b w <> [].
Proof.
  intros Hw Hb E. apply (f_equal length) in E. unfold word_at in E.
  rewrite length_take, length_drop in E. unfold len in Hb.
  change (length (@nil byte)) with 0%nat in E. lia.
Qed.

Lemma read_uint_end (b : bytes) (w : Z) :
  0 <= w -> len b <= 32 * w ->
  read_uint (str_lit "0x" ++ bytes_hex b) w = Raise ValueError.
Proof.
  intros Hw Hb. rewrite read_uint_hex, word_at_nil by assumption. reflexivity.
Qed.

Lemma read_uint_word (b : bytes) (w : Z) :
  0 <= w -> 32 * w < len b ->
  read_uint (str_lit "0x" ++ bytes_hex b) w = Ok (from_bytes_big (word_at b w)).
Proof.
  intros Hw Hb. rewrite read_uint_hex, int16_hex by assumption.
  pose proof (word_at_not_nil b w Hw Hb).
  destruct (word_at b w); [congruence|reflexivity].
Qed.

Lemma startswith_0x_hex (b : bytes) : startswith_0x (bytes_hex b) = false.
Proof.
  destruct b as [|x b]; [reflexivity|].
  rewrite bytes_hex_cons. unfold startswith_0x.
  destruct (byte_digits x) as (_ & Hlo & _).
  destruct (Z.eq_dec (hex_digit (Z_of_byte x / 16)) 48) as [->|Hne].
  - destruct (Z.eq_dec (hex_digit (Z_of_byte x mod 16)) 120) as [E|Hne].
    + unfold hex_digit in E. destruct (Z.ltb_spec (Z_of_byte x mod 16) 10); lia.
    + destruct (hex_digit (Z_of_byte x mod 16)) as [|p|p]; try reflexivity.
      repeat (destruct p as [p|p|]; try reflexivity). lia.
  - destruct (hex_digit (Z_of_byte x / 16)) as [|p|p]; try reflexivity.
    repeat (destruct p as [p|p|]; try reflexivity). lia.
Qed.

(** *** The coin symbol *)

Lemma slice_bytes_hex (b : bytes) (first count : nat) :
  slice (bytes_hex b) (Z.of_nat (2 * first))
        (Z.of_nat (2 * first) + Z.of_nat (2 * count))
  = bytes_hex (take count (drop first b)).
Proof.
  rewrite slice_nonneg by lia.
  replace (Z.to_nat (Z.of_nat (2 * first))) with (2 * first)%nat by lia.
  replace (Z.to_nat (Z.of_nat (2 * first) + Z.of_nat (2 * count)))
    with (2 * (first + count))%nat by lia.
  rewrite take_bytes_hex, drop_bytes_hex, take_drop_commute. reflexivity.
Qed.

Lemma range_len_even (n : nat) : range_len 0 (Z.of_nat (2 * n)) 2 = Z.of_nat n.
Proof.
  unfold range_len. cbn [Z.ltb Z.compare].
  destruct (Z.ltb_spec 0 (Z.of_nat (2 * n))); [|lia].
  replace (Z.of_nat (2 * n) - 0 - 1) with (1 + (Z.of_nat n - 1) * 2) by lia.
  rewrite Z.div_add by lia. change (1 / 2) with 0. lia.
Qed.

Lemma coin_of_bytes_cons (x : byte) (data : bytes) :
  coin_of_bytes (x :: data) =
  if 0 <? Z_of_byte x then Z_of_byte x :: coin_of_bytes data
  else coin_of_bytes data.
Proof.
  unfold coin_of_bytes, bytes. rewrite filter_cons.
  pose proof (Z_of_byte_range x).
  destruct (decide (Z_of_byte x ≠ 0)); destruct (Z.ltb_spec 0 (Z_of_byte x));
    try reflexivity; lia.
Qed.

Lemma chr_byte (x : byte) : chr (Z_of_byte x) = Ok (Z_of_byte x).
Proof.
  pose proof (Z_of_byte_range x). unfold chr.
  replace ((0 <=? Z_of_byte x) && (Z_of_byte x <=? 1114111)) with true
    by (symmetry; apply andb_true_iff; split; apply Z.leb_le; lia).
  reflexivity.
Qed.

Lemma parse_coin_hex (data : bytes) :
  parse_coin (bytes_hex data) = Ok (coin_of_bytes data).
Proof.
  unfold parse_coin, range3. cbn [Z.eqb mbind result_bind].
  unfold len. rewrite length_bytes_hex, range_len_even, Nat2Z.id.
  assert (Hgen : forall (suf pre : bytes) (acc : str),
    data = pre ++ suf ->
    for_each
      (fun coin j =>
         char_code ← int16 (slice (bytes_hex data) j (j + 2));
         if 0 <? char_code then c ← chr char_code; Ok (coin ++ [c]) else Ok coin)
      (map (fun k => 0 + Z.of_nat k * 2) (seq (length pre) (length suf))) acc
    = Ok (acc ++ coin_of_bytes suf)).
  { induction suf as [|x suf IH]; intros pre acc Hdata.
    - cbn. rewrite app_nil_r. reflexivity.
    - cbn [length seq map for_each].
      replace (slice (bytes_hex data) (0 + Z.of_nat (length pre) * 2)
                     (0 + Z.of_nat (length pre) * 2 + 2))
        with (slice (bytes_hex data) (Z.of_nat (2 * length pre))
                    (Z.of_nat (2 * length pre) + Z.of_nat (2 * 1)))
        by (f_equal; lia).
      rewrite slice_bytes_hex.
      replace (drop (length pre) data) with (x :: suf)
        by (rewrite Hdata, drop_app_length; reflexivity).
      change (take 1 (x :: suf)) with [x].
      rewrite int16_hex.
      change (from_bytes_big [x]) with (Z_of_byte x).
      cbn [mbind result_bind].
      rewrite coin_of_bytes_cons.
      pose proof (Z_of_byte_range x) as Hx.
      specialize (IH (pre ++ [x])).
      rewrite length_app, Nat.add_1_r in IH. cbn [length] in IH.
      destruct (Z.ltb_spec 0 (Z_of_byte x)).
      + rewrite chr_byte. cbn [mbind result_bind].
        rewrite IH by (rewrite <- app_assoc; exact Hdata).
        rewrite <- app_assoc. reflexivity.
      + cbn [mbind result_bind].
        rewrite IH by (rewrite <- app_assoc; exact Hdata). reflexivity. }
  apply (Hgen data [] []). reflexivity.
Qed.

(** *** The parser on a reply *)

(** What [_parse_perp_asset_info] computes from the bytes of a reply: with
    [t] the tuple offset in words and [ss] the word of the string length, it
    raises (a [ValueError], from [int] of an empty slice) exactly when the
    reply ends at or before the start of word [t + 4] or of word [ss]. *)
Lemma parse_perp_asset_info_bytes (b : bytes) (index : Z) :
  let t := from_bytes_big (word_at b 0) / 32 in
  let ss := t + from_bytes_big (word_at b t) / 32 in
  parse_perp_asset_info_try (bytes_hex b) index =
  if (len b <=? 32 * (t + 4)) || (len b <=? 32 * ss) then Raise ValueError
  else Ok (PerpAssetInfo.mk
             index
             (coin_of_bytes
                (take (Z.to_nat (from_bytes_big (word_at b ss)))
                      (drop (Z.to_nat (32 * (ss + 1))) b)))
             (from_bytes_big (word_at b (t + 1)))
             (from_bytes_big (word_at b (t + 2)))
             (from_bytes_big (word_at b (t + 3)))
             (negb (from_bytes_big (word_at b (t + 4)) =? 0))).
Proof.
  intros t ss.
  assert (Ht : 0 <= t).
  { subst t. apply Z.div_pos; [apply from_bytes_big_nonneg|lia]. }
  assert (Hss : t <= ss).
  { subst ss. pose proof (from_bytes_big_nonneg (word_at b t)).
    assert (0 <= from_bytes_big (word_at b t) / 32) by (apply Z.div_pos; lia).
    lia. }
  unfold parse_perp_asset_info_try.
  rewrite startswith_0x_hex. cbn [negb].
  destruct (Z.leb_spec (len b) (32 * (t + 4))) as [Hshort|Hlong].
  - cbn [orb].
    destruct (Z.leb_spec (len b) (32 * 0));
      [rewrite (read_uint_end b 0) by lia; reflexivity|].
    rewrite (read_uint_word b 0) by lia. cbn [mbind result_bind]. fold t.
    destruct (Z.leb_spec (len b) (32 * t));
      [rewrite (read_uint_end b t) by lia; reflexivity|].
    rewrite (read_uint_word b t) by lia. cbn [mbind result_bind].
    destruct (Z.leb_spec (len b) (32 * (t + 1)));
      [rewrite (read_uint_end b (t + 1)) by lia; reflexivity|].
    rewrite (read_uint_word b (t + 1)) by lia. cbn [mbind result_bind].
    destruct (Z.leb_spec (len b) (32 * (t + 2)));
      [rewrite (read_uint_end b (t + 2)) by lia; reflexivity|].
    rewrite (read_uint_word b (t + 2)) by lia. cbn [mbind result_bind].
    destruct (Z.leb_spec (len b) (32 * (t + 3)));
      [rewrite (read_uint_end b (t + 3)) by lia; reflexivity|].
    rewrite (read_uint_word b (t + 3)) by lia. cbn [mbind result_bind].
    rewrite (read_uint_end b (t + 4)) by lia. reflexivity.
  - cbn [orb].
    rewrite (read_uint_word b 0) by lia. cbn [mbind result_bind]. fold t.
    rewrite (read_uint_word b t) by lia. cbn [mbind result_bind].
    rewrite (read_uint_word b (t + 1)) by lia. cbn [mbind result_bind].
    rewrite (read_uint_word b (t + 2)) by lia. cbn [mbind result_bind].
    rewrite (read_uint_word b (t + 3)) by lia. cbn [mbind result_bind].
    rewrite (read_uint_word b (t + 4)) by lia. cbn [mbind result_bind].
    fold ss.
    destruct (Z.leb_spec (len b) (32 * ss));
      [rewrite (read_uint_end b ss) by lia; reflexivity|].
    rewrite (read_uint_word b ss) by lia. cbn [mbind result_bind].
    pose proof (from_bytes_big_nonneg (word_at b ss)) as Hsl.
    replace (slice (str_lit "0x" ++ bytes_hex b) (2 + (ss + 1) * 64)
                   (2 + (ss + 1) * 64 + from_bytes_big (word_at b ss) * 2))
      with (slice (str_lit "0x" ++ bytes_hex b)
                  (2 + Z.of_nat (2 * Z.to_nat (32 * (ss + 1))))
                  (2 + Z.of_nat (2 * Z.to_nat (32 * (ss + 1)))
                   + Z.of_nat (2 * Z.to_nat (from_bytes_big (word_at b ss)))))
      by (f_equal; lia).
    rewrite slice_hex_data, parse_coin_hex. reflexivity.
Qed.

(** *** Well-formed replies of the [perpAssetInfo] precompile *)

Lemma length_encode_uint_256 (v : Z) : length (encode_uint_256 v) = 32%nat.
Proof. apply length_to_bytes_big. Qed.

Lemma word_at_app_0 (w rest : bytes) :
  length w = 32%nat -> word_at (w ++ rest) 0 = w.
Proof. intros Hw. unfold word_at. cbn [Z.mul Z.to_nat drop]. apply take_app_length'. lia. Qed.

Lemma word_at_app_pred (w rest : bytes) (k : Z) :
  length w = 32%nat -> 1 <= k -> word_at (w ++ rest) k = word_at rest (k - 1).
Proof.
  intros Hw Hk. unfold word_at. f_equal.
  replace (Z.to_nat (32 * k)) with (length w + Z.to_nat (32 * (k - 1)))%nat by lia.
  apply drop_app_add.
Qed.

Lemma word_at_take (l : bytes) (n : nat) (k : Z) :
  0 <= k -> 32 * k + 32 <= Z.of_nat n -> word_at (take n l) k = word_at l k.
Proof.
  intros Hk Hn. unfold word_at.
  rewrite !take_drop_commute, take_take. do 2 f_equal. lia.
Qed.

Lemma len_take {A : Type} (l : list A) (n : nat) :
  len (take n l) = Z.min (Z.of_nat n) (len l).
Proof. unfold len. rewrite length_take. lia. Qed.

Lemma len_app {A : Type} (l k : list A) : len (l ++ k) = len l + len k.
Proof. unfold len. rewrite length_app. lia. Qed.

Lemma response_word_0 (coin : bytes) (m s l : Z) (o : bool) :
  word_at (perp_asset_info_response coin m s l o) 0 = encode_uint_256 32.
Proof. apply word_at_app_0, length_encode_uint_256. Qed.

Lemma response_word_1 (coin : bytes) (m s l : Z) (o : bool) :
  word_at (perp_asset_info_response coin m s l o) 1 = encode_uint_256 160.
Proof.
  unfold perp_asset_info_response.
  rewrite word_at_app_pred by (try apply length_encode_uint_256; lia).
  apply word_at_app_0, length_encode_uint_256.
Qed.

Lemma len_response (coin : bytes) (m s l : Z) (o : bool) :
  224 <= len (perp_asset_info_response coin m s l o).
Proof.
  unfold perp_asset_info_response. rewrite !len_app, !len_encode_uint_256.
  unfold len. lia.
Qed.

Lemma parse_response (coin : bytes) (m s l : Z) (o : bool) (index : Z) :
  0 <= m < 2 ^ 256 -> 0 <= s < 2 ^ 256 -> 0 <= l < 2 ^ 256 ->
  len coin < 2 ^ 256 ->
  _parse_perp_asset_info (bytes_hex (perp_asset_info_response coin m s l o)) index
  = Some (PerpAssetInfo.mk index (coin_of_bytes coin) m s l o).
Proof.
  intros Hm Hs Hl Hc. unfold _parse_perp_asset_info.
  rewrite parse_perp_asset_info_bytes. cbv zeta.
  rewrite response_word_0.
  change (from_bytes_big (encode_uint_256 32) / 32) with 1.
  rewrite response_word_1.
  change (1 + from_bytes_big (encode_uint_256 160) / 32) with 6.
  pose proof (len_response coin m s l o) as Hlen.
  destruct (Z.leb_spec (len (perp_asset_info_response coin m s l o)) (32 * (1 + 4)));
    [lia|].
  destruct (Z.leb_spec (len (perp_asset_info_response coin m s l o)) (32 * 6));
    [lia|].
  cbn [orb try_except_none]. do 2 f_equal.
  - f_equal. unfold perp_asset_info_response.
    change (Z.to_nat (32 * (6 + 1))) with (32 + (32 + (32 + (32 + (32 + (32 + 32))))))%nat.
    rewrite <- !drop_drop.
    rewrite !drop_app_length' by (symmetry; apply length_encode_uint_256).
    do 6 (rewrite word_at_app_pred by (try apply length_encode_uint_256; lia)).
    rewrite word_at_app_0 by apply length_encode_uint_256.
    rewrite from_bytes_encode_uint_256 by (unfold len in *; lia).
    unfold zpad_right, len. rewrite Nat2Z.id. apply take_app_length.
  - unfold perp_asset_info_response.
    do 2 (rewrite word_at_app_pred by (try apply length_encode_uint_256; lia)).
    rewrite word_at_app_0 by apply length_encode_uint_256.
    apply from_bytes_encode_uint_256. exact Hm.
  - unfold perp_asset_info_response.
    do 3 (rewrite word_at_app_pred by (try apply length_encode_uint_256; lia)).
    rewrite word_at_app_0 by apply length_encode_uint_256.
    apply from_bytes_encode_uint_256. exact Hs.
  - unfold perp_asset_info_response.
    do 4 (rewrite word_at_app_pred by (try apply length_encode_uint_256; lia)).
    rewrite word_at_app_0 by apply length_encode_uint_256.
    apply from_bytes_encode_uint_256. exact Hl.
  - unfold perp_asset_info_response.
    do 5 (rewrite word_at_app_pred by (try apply length_encode_uint_256; lia)).
    rewrite word_at_app_0 by apply length_encode_uint_256.
    destruct o; reflexivity.
Qed.

(** C6. For a well-formed reply of the [perpAssetInfo] precompile,
    [_parse_perp_asset_info] returns the record of the reply; its coin
    symbol has one character per byte of the string data, in order, the
    character code being the byte, and bytes equal to 0 are left out; in
    particular, when the string data encode ["BTC"], the coin is ["BTC"]. *)
Theorem parse_perp_asset_info_coin (coin : bytes) (m s l : Z) (o : bool) (index : Z) :
  0 <= m < 2 ^ 256 -> 0 <= s < 2 ^ 256 -> 0 <= l < 2 ^ 256 ->
  len coin < 2 ^ 256 ->
  _parse_perp_asset_info (bytes_hex (perp_asset_info_response coin m s l o)) index
    = Some (PerpAssetInfo.mk index (coin_of_bytes coin) m s l o) /\
  coin_of_bytes coin = map Z_of_byte (filter (fun x => Z_of_byte x ≠ 0) coin) /\
  (coin = [x42; x54; x43] ->
   _parse_perp_asset_info (bytes_hex (perp_asset_info_response coin m s l o)) index
     = Some (PerpAssetInfo.mk index (str_lit "BTC") m s l o)).
Proof.
  intros Hm Hs Hl Hc.
  split; [apply parse_response; assumption|]. split; [reflexivity|].
  intros ->. rewrite parse_response by assumption. reflexivity.
Qed.

Lemma parse_perp_asset_info_coin_witness :
  _parse_perp_asset_info
    (bytes_hex (perp_asset_info_response [x42; x54; x43] 1 5 40 false)) 7
  = Some (PerpAssetInfo.mk 7 (str_lit "BTC") 1 5 40 false).
Proof.
  apply (proj2 (proj2 (parse_perp_asset_info_coin
                         [x42; x54; x43] 1 5 40 false 7
                         ltac:(split; [discriminate|reflexivity])
                         ltac:(split; [discriminate|reflexivity])
                         ltac:(split; [discriminate|reflexivity])
                         eq_refl))).
  reflexivity.
Defined.

Lemma parse_short (response : bytes) (index : Z) :
  let t := from_bytes_big (word_at response 0) / 32 in
  let ss := t + from_bytes_big (word_at response t) / 32 in
  len response <= 32 * (t + 4) \/ len response <= 32 * ss ->
  parse_perp_asset_info_try (bytes_hex response) index = Raise ValueError.
Proof.
  intros t ss H. rewrite parse_perp_asset_info_bytes. fold t. fold ss.
  replace ((len response <=? 32 * (t + 4)) || (len response <=? 32 * ss)) with true;
    [reflexivity|].
  symmetry. apply orb_true_iff. rewrite !Z.leb_le. exact H.
Qed.

(** C5 (as the code has it). For every reply, [_parse_perp_asset_info]
    returns a record or [None]: the statements under [try] either return a
    record or raise a [ValueError], which the handler turns into [None], so
    no exception escapes, and every slice is clamped to the text.  It
    returns [None] on a zero-length reply, and whenever the reply ends at or
    before the start of a word that is read (the last head word, or the
    string length word); so a well-formed reply cut anywhere up to the start
    of its string length word gives [None].  In the batch, a zero-length
    reply is not even parsed and gives no record. *)
Theorem parse_perp_asset_info_safe (response : bytes) (index : Z) :
  (parse_perp_asset_info_try (bytes_hex response) index = Raise ValueError /\
   _parse_perp_asset_info (bytes_hex response) index = None
   \/
   exists info,
     parse_perp_asset_info_try (bytes_hex response) index = Ok info /\
     _parse_perp_asset_info (bytes_hex response) index = Some info /\
     PerpAssetInfo.index info = index) /\
  (response = [] -> _parse_perp_asset_info (bytes_hex response) index = None) /\
  (let t := from_bytes_big (word_at response 0) / 32 in
   let ss := t + from_bytes_big (word_at response t) / 32 in
   len response <= 32 * (t + 4) \/ len response <= 32 * ss ->
   _parse_perp_asset_info (bytes_hex response) index = None) /\
  (forall (coin : bytes) (m s l : Z) (o : bool) (n : nat),
     response = take n (perp_asset_info_response coin m s l o) ->
     (n <= 192)%nat ->
     _parse_perp_asset_info (bytes_hex response) index = None) /\
  (forall (perp_indices : list Z) (success : bool),
     infos_of_results perp_indices [(success, [])] = Ok []).
Proof.
  split; [|split; [|split; [|split]]]; [| | | |intros ? []; reflexivity].
  - unfold _parse_perp_asset_info. rewrite parse_perp_asset_info_bytes. cbv zeta.
    destruct (_ || _); [left; split; reflexivity|right].
    eexists. split; [reflexivity|]. split; reflexivity.
  - intros ->. reflexivity.
  - intros t ss H. unfold _parse_perp_asset_info.
    rewrite (parse_short response index H). reflexivity.
  - intros coin m s l o n -> Hn. unfold _parse_perp_asset_info.
    rewrite parse_short; [reflexivity|].
    pose proof (len_response coin m s l o) as Hlen.
    pose proof (from_bytes_big_nonneg
                  (word_at (take n (perp_asset_info_response coin m s l o)) 0)) as H0.
    assert (Ht : 0 <= from_bytes_big
                        (word_at (take n (perp_asset_info_response coin m s l o)) 0) / 32)
      by (apply Z.div_pos; lia).
    rewrite len_take.
    destruct (Nat.le_gt_cases n 128) as [Hn1|Hn1]; [left; lia|].
    rewrite word_at_take, response_word_0 by lia.
    change (from_bytes_big (encode_uint_256 32) / 32) with 1.
    destruct (Nat.le_gt_cases n 160) as [Hn2|Hn2]; [left; lia|].
    right. rewrite word_at_take, response_word_1 by lia.
    change (1 + from_bytes_big (encode_uint_256 160) / 32) with 6. lia.
Qed.

Lemma parse_perp_asset_info_safe_witness :
  _parse_perp_asset_info (bytes_hex []) 7 = None /\
  _parse_perp_asset_info
    (bytes_hex (take 100 (perp_asset_info_response [x42; x54; x43] 1 5 40 false))) 7
  = None /\
  _parse_perp_asset_info
    (bytes_hex (take 192 (perp_asset_info_response [x42; x54; x43] 1 5 40 false))) 7
  = None.
Proof.
  split; [|split].
  - apply (proj1 (proj2 (parse_perp_asset_info_safe [] 7))). reflexivity.
  - apply (proj1 (proj2 (proj2 (proj2 (parse_perp_asset_info_safe
                                  (take 100 (perp_asset_info_response
                                               [x42; x54; x43] 1 5 40 false)) 7))))
             [x42; x54; x43] 1 5 40 false 100%nat eq_refl).
    repeat constructor.
  - apply (proj1 (proj2 (proj2 (proj2 (parse_perp_asset_info_safe
                                  (take 192 (perp_asset_info_response
                                               [x42; x54; x43] 1 5 40 false)) 7))))
             [x42; x54; x43] 1 5 40 false 192%nat eq_refl).
    repeat constructor.
Defined.

(** C5 (as stated) fails: a well-formed reply cut in the middle of its
    string length word is not rejected; a record with an empty coin is
    returned. *)
Lemma parse_perp_asset_info_cut_in_length_word :
  _parse_perp_asset_info
    (bytes_hex (take 208 (perp_asset_info_response [x42; x54; x43] 1 5 40 false))) 7
  = Some (PerpAssetInfo.mk 7 [] 1 5 40 false) /\
  _parse_perp_asset_info
    (bytes_hex (take 208 (perp_asset_info_response [x42; x54; x43] 1 5 40 false))) 7
  <> None.
Proof.
  split; [vm_compute; reflexivity|].
  intros H. vm_compute in H. discriminate H.
Qed.

Import CoreWriterLayout MulticallNodes MulticallReplies.

(** * Further properties of the two programs *)

(** ** corewriter_example.py: the header *)

Lemma lor_shiftl_add (hi lo n : Z) :
  0 <= n -> 0 <= lo < 2 ^ n -> Z.lor (Z.shiftl hi n) lo = hi * 2 ^ n + lo.
Proof.
  intros Hn Hlo.
  assert (Hland : Z.land (Z.shiftl hi n) lo = 0).
  { apply Z.bits_inj'. intros k Hk. rewrite Z.land_spec, Z.bits_0.
    destruct (Z.lt_ge_cases k n) as [Hlt|Hge].
    - rewrite Z.shiftl_spec_low by assumption. reflexivity.
    - rewrite <- (Z.mod_small lo (2 ^ n)) by assumption.
      rewrite Z.mod_pow2_bits_high by lia. apply andb_false_r. }
  pose proof (Z.add_lor_land (Z.shiftl hi n) lo) as H.
  rewrite Hland, Z.add_0_r in H. rewrite H, Z.shiftl_mul_pow2 by assumption.
  reflexivity.
Qed.

Lemma land_255 (z : Z) : Z.land z 255 = z mod 256.
Proof. change 255 with (Z.ones 8). rewrite Z.land_ones by lia. reflexivity. Qed.

Lemma action_id_of_bytes (b1 b2 b3 : Z) :
  0 <= b1 < 256 -> 0 <= b2 < 256 -> 0 <= b3 < 256 ->
  Z.lor (Z.lor (Z.shiftl b1 16) (Z.shiftl b2 8)) b3 = b1 * 65536 + b2 * 256 + b3.
Proof.
  intros H1 H2 H3.
  rewrite (Z.shiftl_mul_pow2 b2 8) by lia.
  rewrite (lor_shiftl_add b1 (b2 * 2 ^ 8) 16) by lia.
  replace (b1 * 2 ^ 16 + b2 * 2 ^ 8) with (Z.shiftl (b1 * 256 + b2) 8)
    by (rewrite Z.shiftl_mul_pow2 by lia; lia).
  rewrite lor_shiftl_add by lia. lia.
Qed.

Lemma encode_header_bytes (action_id : Z) :
  _encode_header action_id =
  Ok [x01; byte_of_Z (action_id / 65536 mod 256);
      byte_of_Z (action_id / 256 mod 256); byte_of_Z (action_id mod 256)].
Proof.
  unfold _encode_header.
  rewrite !land_255, !Z.shiftr_div_pow2 by lia.
  change (2 ^ 16) with 65536. change (2 ^ 8) with 256.
  pose proof (Z.mod_pos_bound (action_id / 65536) 256 ltac:(lia)).
  pose proof (Z.mod_pos_bound (action_id / 256) 256 ltac:(lia)).
  pose proof (Z.mod_pos_bound action_id 256 ltac:(lia)).
  cbn [bytes_of_ints].
  repeat match goal with
         | |- context [(0 <=? ?v) && (?v <? 256)] =>
             replace ((0 <=? v) && (v <? 256)) with true
               by (symmetry; apply andb_true_iff; split;
                   [apply Z.leb_le | apply Z.ltb_lt]; first [lia | reflexivity])
         end.
  reflexivity.
Qed.

(** X1. [_encode_header] never raises: for every integer it returns four
    bytes, the version and the three low bytes of the id; so an id out of
    [0, 2^24) is cut to 24 bits without a word, and [decode_action] reads
    back the id modulo [2^24] (the id itself when it fits in three bytes). *)
Theorem encode_header_wraps (id : Z) (data : bytes) :
  exists header : bytes,
    _encode_header id = Ok header /\
    len header = 4 /\
    decode_action (Bytes (_concat_bytes header data)) =
      Ok {| version := VERSION;
            action_id := id mod 2 ^ 24;
            params := str_lit "0x" ++ bytes_hex data |}.
Proof.
  eexists. split; [apply encode_header_bytes|]. split; [reflexivity|].
  pose proof (Z.mod_pos_bound (id / 65536) 256 ltac:(lia)) as H1.
  pose proof (Z.mod_pos_bound (id / 256) 256 ltac:(lia)) as H2.
  pose proof (Z.mod_pos_bound id 256 ltac:(lia)) as H3.
  unfold decode_action, _concat_bytes. cbn [mbind result_bind app].
  rewrite slice_from_nonneg by lia.
  change (getitem (?a :: ?l) 0) with (Ok a : result byte).
  cbn [mbind result_bind].
  change (getitem (?a :: ?b :: ?l) 1) with (Ok b : result byte).
  cbn [mbind result_bind].
  change (getitem (?a :: ?b :: ?c :: ?l) 2) with (Ok c : result byte).
  cbn [mbind result_bind].
  change (getitem (?a :: ?b :: ?c :: ?d :: ?l) 3) with (Ok d : result byte).
  cbn [mbind result_bind].
  rewrite !Z_of_byte_of_Z by assumption.
  rewrite action_id_of_bytes by assumption.
  change (drop (Z.to_nat 4) (?a :: ?b :: ?c :: ?d :: ?l)) with l.
  do 2 f_equal. change (2 ^ 24) with 16777216.
  pose proof (Z.div_mod id 16777216 ltac:(lia)).
  pose proof (Z.mod_pos_bound id 16777216 ltac:(lia)).
  pose proof (Z.div_mod id 65536 ltac:(lia)).
  pose proof (Z.mod_pos_bound id 65536 ltac:(lia)).
  pose proof (Z.div_mod id 256 ltac:(lia)).
  pose proof (Z.div_mod (id / 65536) 256 ltac:(lia)).
  pose proof (Z.div_mod (id / 256) 256 ltac:(lia)).
  lia.
Qed.

(** ** corewriter_example.py: [decode_action] *)

Lemma byte_of_Z_eq (z : Z) (b : byte) : z mod 256 = Z_of_byte b -> byte_of_Z z = b.
Proof. intros H. rewrite <- byte_of_Z_mod, H. apply byte_of_Z_of_byte. Qed.

Lemma to_bytes_big_3 (b1 b2 b3 : byte) :
  to_bytes_big 3 (Z_of_byte b1 * 65536 + Z_of_byte b2 * 256 + Z_of_byte b3)
  = [b1; b2; b3].
Proof.
  pose proof (Z_of_byte_range b1). pose proof (Z_of_byte_range b2).
  pose proof (Z_of_byte_range b3).
  cbn [to_bytes_big app].
  f_equal; [|f_equal; [|f_equal]]; apply byte_of_Z_eq;
    Z.div_mod_to_equations; lia.
Qed.

(** X2. [decode_action] checks nothing but the length: every byte string of
    at least four bytes is decoded, whatever its version byte and its id;
    and nothing is lost: the version byte, the three bytes of the id in
    big-endian order and the bytes that the text [params] spells give the
    input back. *)
Theorem decode_action_lossless (b : bytes) :
  4 <= len b ->
  exists (d : DecodedAction) (rest : bytes),
    decode_action (Bytes b) = Ok d /\
    0 <= version d < 256 /\
    0 <= action_id d < 2 ^ 24 /\
    params d = str_lit "0x" ++ bytes_hex rest /\
    bytes_fromhex (bytes_hex rest) = Ok rest /\
    b = byte_of_Z (version d) :: to_bytes_big 3 (action_id d) ++ rest.
Proof.
  intros Hlen.
  destruct b as [|b0 [|b1 [|b2 [|b3 rest]]]];
    try (unfold len in Hlen; simpl in Hlen; lia).
  pose proof (Z_of_byte_range b0). pose proof (Z_of_byte_range b1).
  pose proof (Z_of_byte_range b2). pose proof (Z_of_byte_range b3).
  eexists _, rest. split.
  { unfold decode_action. cbn [mbind result_bind].
    rewrite slice_from_nonneg by lia.
    change (getitem (b0 :: b1 :: b2 :: b3 :: rest) 0) with (Ok b0 : result byte).
    change (getitem (b0 :: b1 :: b2 :: b3 :: rest) 1) with (Ok b1 : result byte).
    change (getitem (b0 :: b1 :: b2 :: b3 :: rest) 2) with (Ok b2 : result byte).
    change (getitem (b0 :: b1 :: b2 :: b3 :: rest) 3) with (Ok b3 : result byte).
    cbn [mbind result_bind].
    rewrite action_id_of_bytes by assumption.
    change (drop (Z.to_nat 4) (b0 :: b1 :: b2 :: b3 :: rest)) with rest.
    reflexivity. }
  cbn [version action_id params].
  split; [assumption|]. split; [change (2 ^ 24) with 16777216; lia|].
  split; [reflexivity|]. split; [apply bytes_fromhex_hex|].
  rewrite byte_of_Z_of_byte, to_bytes_big_3. reflexivity.
Qed.

Lemma decode_action_lossless_witness :
  exists (d : DecodedAction) (rest : bytes),
    decode_action (Bytes [xff; x00; x01; x02; xab]) = Ok d /\
    version d = 255 /\ action_id d = 258 /\
    params d = str_lit "0xab".
Proof.
  destruct (decode_action_lossless [xff; x00; x01; x02; xab])
    as (d & rest & Hd & _); [unfold len; simpl; lia|].
  exists d, rest. split; [exact Hd|].
  assert (E : decode_action (Bytes [xff; x00; x01; x02; xab]) =
              Ok {| version := 255; action_id := 258; params := str_lit "0xab" |})
    by (vm_compute; reflexivity).
  rewrite E in Hd. injection Hd as <-. repeat split.
Defined.

Lemma replace_0x_hex (b : bytes) : replace_0x (bytes_hex b) = bytes_hex b.
Proof.
  assert (Hgen : forall s : list Z, Forall (fun c => c <> 120) s -> replace_0x s = s).
  { assert (H2 : forall s : list Z,
               (Forall (fun c => c <> 120) s -> replace_0x s = s) /\
               (forall a, Forall (fun c => c <> 120) (a :: s) ->
                          replace_0x (a :: s) = a :: s)).
    { induction s as [|a' s [IH1 IH2]].
      - split; [reflexivity|]. intros a _.
        destruct a as [|p|p]; try reflexivity.
        repeat (destruct p as [p|p|]; try reflexivity).
      - split; [apply IH2|]. intros a Ha.
        apply Forall_cons in Ha as [Ha Hs].
        assert (Ha' : a' <> 120) by (apply Forall_cons in Hs; tauto).
        assert (E : replace_0x (a :: a' :: s) = a :: replace_0x (a' :: s)).
        { cbn [replace_0x]. destruct a as [|p|p]; try reflexivity.
          repeat (destruct p as [p|p|]; try reflexivity).
          destruct a' as [|q|q]; try reflexivity.
          repeat (destruct q as [q|q|]; try reflexivity). lia. }
        rewrite E, IH2 by assumption. reflexivity. }
    intros s. apply H2. }
  apply Hgen. unfold bytes_hex.
  induction b as [|x b IH]; [constructor|].
  destruct (byte_digits x) as (Hhi & Hlo & _).
  cbn [flat_map app].
  constructor; [|constructor; [|exact IH]];
    unfold hex_digit;
    match goal with |- (if ?d <? 10 then _ else _) <> _ =>
      destruct (Z.ltb_spec d 10); lia end.
Qed.

(** X3. [decode_action] gives the same answer for the hexadecimal text of a
    byte string, with or without the prefix [0x], as for the byte string
    itself; for a short one, the same [IndexError]. *)
Theorem decode_action_hex_text (b : bytes) :
  decode_action (Str (str_lit "0x" ++ bytes_hex b)) = decode_action (Bytes b) /\
  decode_action (Str (bytes_hex b)) = decode_action (Bytes b).
Proof.
  assert (H : decode_action (Str (bytes_hex b)) = decode_action (Bytes b)).
  { unfold decode_action. rewrite replace_0x_hex, bytes_fromhex_hex. reflexivity. }
  split; [|exact H].
  rewrite <- H. unfold decode_action.
  change (replace_0x (str_lit "0x" ++ bytes_hex b)) with (replace_0x (bytes_hex b)).
  reflexivity.
Qed.

(** ** corewriter_example.py: the builders *)

Ltac unfold_builders :=
  unfold build, well_typed,
    build_limit_order, build_vault_transfer, build_token_delegate,
    build_staking_deposit, build_staking_withdraw, build_spot_send,
    build_usd_class_transfer, build_finalize_evm_contract,
    build_add_api_wallet, build_cancel_order_by_oid,
    build_cancel_order_by_cloid, build_approve_builder_fee,
    build_send_asset, build_reflect_evm_supply, build_borrow_lend_op;
  rewrite encode_header_action;
  unfold encode, encode_chunks, encode_value, to_checksum_address, is_address,
    is_uint;
  cbn [mbind result_bind LimitOrderParams.asset LimitOrderParams.limit_px
       LimitOrderParams.sz LimitOrderParams.encoded_tif LimitOrderParams.cloid
       LimitOrderParams.is_buy LimitOrderParams.reduce_only
       VaultTransferParams.vault VaultTransferParams.usd
       VaultTransferParams.is_deposit
       TokenDelegateParams.validator TokenDelegateParams.wei
       TokenDelegateParams.is_undelegate
       StakingParams.wei
       SpotSendParams.destination SpotSendParams.token SpotSendParams.wei
       UsdClassTransferParams.ntl UsdClassTransferParams.to_perp
       FinalizeEvmContractParams.token FinalizeEvmContractParams.variant
       FinalizeEvmContractParams.create_nonce
       AddApiWalletParams.wallet AddApiWalletParams.name
       CancelOrderByOidParams.asset CancelOrderByOidParams.oid
       CancelOrderByCloidParams.asset CancelOrderByCloidParams.cloid
       ApproveBuilderFeeParams.max_fee_rate ApproveBuilderFeeParams.builder
       SendAssetParams.dest SendAssetParams.sub_account SendAssetParams.src_dex
       SendAssetParams.dest_dex SendAssetParams.token SendAssetParams.wei
       ReflectEvmSupplyParams.token ReflectEvmSupplyParams.wei
       ReflectEvmSupplyParams.is_mint
       BorrowLendOpParams.operation BorrowLendOpParams.token
       BorrowLendOpParams.wei].

Ltac case_bounds :=
  repeat match goal with
         | H : (0 <=? ?z) && (?z <? ?m) = _ |- context [(0 <=? ?z) && (?z <? ?m)] =>
             rewrite H; cbn [mbind result_bind andb]
         | |- context [(0 <=? ?z) && (?z <? ?m)] =>
             destruct ((0 <=? z) && (z <? m)) eqn:?; cbn [mbind result_bind andb]
         | |- context [utf8_encode ?n] =>
             destruct (utf8_encode n); cbn [mbind result_bind andb]
         end.

Lemma build_ok_or_raises (a : Action) :
  (well_typed a = true /\ exists enc, build a = Ok enc) \/
  (well_typed a = false /\ raises (build a)).
Proof.
  destruct a as [p|p|p|p|p|p|p|p|p|p|p|p|p|p|p]; destruct p;
    unfold_builders; case_bounds;
    first [ left; split; [reflexivity | eexists; reflexivity]
          | right; split; [reflexivity | exact I] ].
Qed.

(** X4. The builders fail fast: a build function returns an encoding exactly
    when every field of its record is in the range of its type (and the
    address is an address, the name is text UTF-8 can encode); otherwise it
    raises, and no encoding with a cut or wrapped value is ever returned. *)
Theorem build_fails_fast (a : Action) :
  ((exists enc, build a = Ok enc) <-> well_typed a = true) /\
  (well_typed a = false -> raises (build a)).
Proof.
  destruct (build_ok_or_raises a) as [[Hwt [enc Henc]]|[Hwt Hr]].
  - split; [|congruence]. split; [intros _; exact Hwt|intros _; eauto].
  - split; [|intros _; exact Hr]. split; [|congruence].
    intros [enc Henc]. rewrite Henc in Hr. destruct Hr.
Qed.

Lemma build_fails_fast_witness :
  well_typed (CancelOrderByOid (CancelOrderByOidParams.mk (2 ^ 32) 5)) = false /\
  raises (build (CancelOrderByOid (CancelOrderByOidParams.mk (2 ^ 32) 5))) /\
  well_typed (VaultTransfer (VaultTransferParams.mk (2 ^ 160) true 5)) = false /\
  raises (build (VaultTransfer (VaultTransferParams.mk (2 ^ 160) true 5))).
Proof.
  split; [reflexivity|].
  split; [apply (proj2 (build_fails_fast _)); reflexivity|].
  split; [reflexivity|].
  apply (proj2 (build_fails_fast _)). reflexivity.
Defined.

Lemma word_at_concat_words (ws : list Z) (rest : bytes) (i : nat) (w : Z) :
  ws !! i = Some w ->
  word_at (concat (map encode_uint_256 ws) ++ rest) (Z.of_nat i) = encode_uint_256 w.
Proof.
  revert i. induction ws as [|w0 ws IH]; intros i Hi; [discriminate Hi|].
  cbn [map concat]. rewrite <- app_assoc.
  destruct i as [|i].
  - injection Hi as ->. apply word_at_app_0, length_encode_uint_256.
  - rewrite word_at_app_pred by (try apply length_encode_uint_256; lia).
    replace (Z.of_nat (S i) - 1) with (Z.of_nat i) by lia.
    apply IH. exact Hi.
Qed.

Lemma len_concat_words (ws : list Z) :
  len (concat (map encode_uint_256 ws)) = 32 * len ws.
Proof.
  induction ws as [|w ws IH]; [reflexivity|].
  cbn [map concat]. rewrite len_app, len_encode_uint_256, IH.
  unfold len. cbn [length]. lia.
Qed.

Lemma build_static (a : Action) (ws : list Z) :
  well_typed a = true -> field_words a = Some ws ->
  build a = Ok ([x01; x00; x00; byte_of_Z (ActionId_value (kind a))]
                  ++ concat (map encode_uint_256 ws)) /\
  Forall (fun w => 0 <= w < 2 ^ 160) ws.
Proof.
  intros Hwt Hws.
  destruct a as [p|p|p|p|p|p|p|p|p|p|p|p|p|p|p]; destruct p;
    cbn in Hws; try discriminate Hws; injection Hws as <-;
    revert Hwt; unfold_builders; case_bounds; intros Hwt;
    try discriminate Hwt;
    (split;
     [ unfold _concat_bytes, head_length, kind;
       cbn [fold_left fst snd head_chunks concat map is_dynamic app bool_word];
       rewrite ?app_nil_r, <- ?app_assoc; reflexivity
     | repeat constructor;
       try match goal with
           | |- 0 <= bool_word ?b => destruct b; cbn; lia
           | |- bool_word ?b < _ => destruct b; reflexivity
           end;
       match goal with
       | H : (0 <=? ?z) && (?z <? ?m) = true |- 0 <= ?z =>
           apply andb_true_iff in H as [H _]; apply Z.leb_le in H; exact H
       | H : (0 <=? ?z) && (?z <? ?m) = true |- ?z < _ =>
           apply andb_true_iff in H as [_ H]; apply Z.ltb_lt in H;
           eapply Z.lt_le_trans; [exact H | apply Z.pow_le_mono_r; lia]
       end ]).
Qed.

(** X5. Wire layout of the fourteen actions whose parameters are all
    static.  When every field is in the range of its ABI type, the
    encoding is the four header bytes 01 00 00 id followed by exactly one
    32-byte word per field of the dataclass, in the order of the fields:
    the i-th word is the big-endian, left-zero-padded value of the i-th
    field (a boolean as 0 or 1), and the whole encoding is 4 + 32 * n
    bytes long for n fields. *)
Theorem build_static_layout (a : Action) (ws : list Z) :
  well_typed a = true -> field_words a = Some ws ->
  exists enc,
    build a = Ok enc /\
    slice enc 0 4 = [x01; x00; x00; byte_of_Z (ActionId_value (kind a))] /\
    len enc = 4 + 32 * len ws /\
    forall (i : nat) (w : Z), ws !! i = Some w ->
      word_at (slice_from enc 4) (Z.of_nat i) = encode_uint_256 w /\
      from_bytes_big (word_at (slice_from enc 4) (Z.of_nat i)) = w.
Proof.
  intros Hwt Hws.
  destruct (build_static a ws Hwt Hws) as [Hb Hr].
  eexists. split; [exact Hb|].
  split; [rewrite slice_nonneg by lia; reflexivity|].
  split.
  - rewrite len_app, len_concat_words. reflexivity.
  - intros i w Hi.
    assert (Hw : word_at (slice_from ([x01; x00; x00;
                   byte_of_Z (ActionId_value (kind a))]
                   ++ concat (map encode_uint_256 ws)) 4) (Z.of_nat i)
                 = encode_uint_256 w).
    { rewrite slice_from_nonneg by lia. cbn [Z.to_nat Pos.to_nat Pos.iter_op
        Nat.add app drop].
      rewrite <- (app_nil_r (concat _)).
      apply word_at_concat_words. exact Hi. }
    split; [exact Hw|].
    rewrite Hw. apply from_bytes_encode_uint_256.
    rewrite Forall_lookup in Hr. specialize (Hr i w Hi). cbv beta in Hr.
    split; [lia|].
    eapply Z.lt_le_trans; [apply Hr | apply Z.pow_le_mono_r; lia].
Qed.

Lemma build_static_layout_witness :
  exists enc,
    build (CancelOrderByOid (CancelOrderByOidParams.mk 7 123456789)) = Ok enc /\
    slice enc 0 4 = [x01; x00; x00; x0a] /\
    len enc = 68 /\
    from_bytes_big (word_at (slice_from enc 4) 1) = 123456789.
Proof.
  destruct (build_static_layout
              (CancelOrderByOid (CancelOrderByOidParams.mk 7 123456789))
              [7; 123456789] eq_refl eq_refl)
    as (enc & Hb & Hh & Hl & Hw).
  exists enc. split; [exact Hb|]. split; [exact Hh|]. split; [exact Hl|].
  exact (proj2 (Hw 1%nat 123456789 eq_refl)).
Defined.

Lemma from_to_bytes_big_mod (n : nat) (v : Z) :
  from_bytes_big (to_bytes_big n v) = v mod 256 ^ Z.of_nat n.
Proof.
  revert v. induction n as [|n IH]; intros v.
  - cbn. rewrite Z.mod_1_r. reflexivity.
  - rewrite Nat2Z.inj_succ, Z.pow_succ_r by lia.
    cbn [to_bytes_big]. rewrite from_bytes_big_snoc, IH.
    rewrite <- byte_of_Z_mod, Z_of_byte_of_Z by (apply Z.mod_pos_bound; lia).
    rewrite Z.rem_mul_r by lia. lia.
Qed.

Lemma concat_words_inj (ws ws' : list Z) :
  length ws = length ws' ->
  Forall (fun w => 0 <= w < 2 ^ 160) ws ->
  Forall (fun w => 0 <= w < 2 ^ 160) ws' ->
  concat (map encode_uint_256 ws) = concat (map encode_uint_256 ws') ->
  ws = ws'.
Proof.
  revert ws'. induction ws as [|w ws IH]; intros [|w' ws'] Hl Hr Hr' He;
    try discriminate Hl; [reflexivity|].
  cbn [map concat] in He.
  apply app_inj_1 in He as [Hw He];
    [|rewrite !length_encode_uint_256; reflexivity].
  inversion Hr as [|? ? Hw0 Hr0]; inversion Hr' as [|? ? Hw0' Hr0']; subst.
  apply (f_equal from_bytes_big) in Hw.
  assert (Hp : 2 ^ 160 <= 2 ^ 256) by (apply Z.pow_le_mono_r; lia).
  rewrite !from_bytes_encode_uint_256 in Hw by lia.
  f_equal; [exact Hw|].
  apply IH; [injection Hl; trivial|assumption|assumption|exact He].
Qed.

Ltac bool_to_prop :=
  repeat match goal with
         | H : _ || _ = false |- _ => apply orb_false_iff in H as [? ?]
         | H : _ && _ = false |- _ => apply andb_false_iff in H as [?|?]
         | H : (_ <? _) = false |- _ => apply Z.ltb_ge in H
         | H : (_ <? _) = true |- _ => apply Z.ltb_lt in H
         | H : (_ <=? _) = false |- _ => apply Z.leb_gt in H
         | H : (_ <=? _) = true |- _ => apply Z.leb_le in H
         end.

Ltac utf8_classes H :=
  unfold utf8_char in H;
  repeat match type of H with
         | context [if ?t then _ else _] => destruct t eqn:?
         end;
  try discriminate H; injection H as <-.

Ltac bytes_to_Z :=
  repeat match goal with
         | H : byte_of_Z _ = byte_of_Z _ |- _ =>
             apply (f_equal Z_of_byte) in H;
             rewrite !Z_of_byte_of_Z in H by (Z.div_mod_to_equations; lia)
         end.

Lemma utf8_char_nonempty (c : codepoint) (b : bytes) :
  utf8_char c = Ok b -> b <> [].
Proof. intros H. utf8_classes H; discriminate. Qed.

(** The first byte of a UTF-8 sequence tells its length, and the sequence
    its code point: two encodings that start alike are of one character. *)
Lemma utf8_char_inj (c c' : codepoint) (b b' v v' : bytes) :
  utf8_char c = Ok b -> utf8_char c' = Ok b' ->
  b ++ v = b' ++ v' -> c = c'.
Proof.
  intros H H' He.
  utf8_classes H; utf8_classes H'; bool_to_prop;
    cbn [app] in He; injection He as He; intros; subst;
    bytes_to_Z; Z.div_mod_to_equations; lia.
Qed.

Lemma utf8_encode_inj (s s' : str) (u : bytes) :
  utf8_encode s = Ok u -> utf8_encode s' = Ok u -> s = s'.
Proof.
  revert s' u. induction s as [|c r IH]; intros [|c' r'] u H H';
    cbn [utf8_encode] in H, H'.
  - reflexivity.
  - injection H as <-.
    destruct (utf8_char c') as [b'|] eqn:Hc'; [|discriminate H'].
    destruct (utf8_encode r') as [v'|]; [|discriminate H'].
    cbn in H'. injection H' as H'.
    apply app_eq_nil in H' as [-> _].
    exfalso. exact (utf8_char_nonempty _ _ Hc' eq_refl).
  - injection H' as <-.
    destruct (utf8_char c) as [b|] eqn:Hc; [|discriminate H].
    destruct (utf8_encode r) as [v|]; [|discriminate H].
    cbn in H. injection H as H.
    apply app_eq_nil in H as [-> _].
    exfalso. exact (utf8_char_nonempty _ _ Hc eq_refl).
  - destruct (utf8_char c) as [b|] eqn:Hc; [|discriminate H].
    destruct (utf8_encode r) as [v|] eqn:Hr; [|discriminate H].
    destruct (utf8_char c') as [b'|] eqn:Hc'; [|discriminate H'].
    destruct (utf8_encode r') as [v'|] eqn:Hr'; [|discriminate H'].
    cbn in H, H'. injection H as <-. injection H' as H'.
    assert (c' = c) as -> by exact (utf8_char_inj _ _ _ _ _ _ Hc' Hc H').
    rewrite Hc in Hc'. injection Hc' as <-.
    apply app_inv_head in H' as ->.
    f_equal. exact (IH _ _ eq_refl Hr').
Qed.

Lemma Ok_inj {A : Type} (x y : A) : Ok x = Ok y -> x = y.
Proof. intros H. injection H. trivial. Qed.

Lemma bool_word_inj (b b' : bool) : bool_word b = bool_word b' -> b = b'.
Proof. destruct b, b'; cbn; intros H; congruence. Qed.

Lemma build_add_api_wallet_inj (p p' : AddApiWalletParams.t) (enc : bytes) :
  build_add_api_wallet p = Ok enc -> build_add_api_wallet p' = Ok enc -> p = p'.
Proof.
  destruct p as [w n], p' as [w' n']. intros H H'.
  pose proof (build_ok_or_raises (AddApiWallet (AddApiWalletParams.mk w n)))
    as [[Hwt _]|[_ Hr]];
    [|cbn [build] in Hr; rewrite H in Hr; destruct Hr].
  pose proof (build_ok_or_raises (AddApiWallet (AddApiWalletParams.mk w' n')))
    as [[Hwt' _]|[_ Hr]];
    [|cbn [build] in Hr; rewrite H' in Hr; destruct Hr].
  cbn [well_typed AddApiWalletParams.wallet AddApiWalletParams.name] in Hwt, Hwt'.
  apply andb_true_iff in Hwt as [Hw Hn], Hwt' as [Hw' Hn'].
  destruct (utf8_encode n) as [u|] eqn:Hu; [|discriminate Hn].
  destruct (utf8_encode n') as [u'|] eqn:Hu'; [|discriminate Hn'].
  rewrite (build_add_api_wallet_bytes w n u Hw Hu) in H.
  rewrite (build_add_api_wallet_bytes w' n' u' Hw' Hu') in H'.
  rewrite <- H' in H. clear H'.
  apply Ok_inj, app_inv_head in H.
  pose proof (f_equal (@length byte) H) as Hlen.
  apply app_inj_1 in H as [Hwal H];
    [|rewrite !length_encode_uint_256; reflexivity].
  apply app_inv_head in H.
  apply app_inj_1 in H as [Hl H];
    [|rewrite !length_encode_uint_256; reflexivity].
  apply (f_equal from_bytes_big) in Hwal, Hl.
  unfold is_address in Hw, Hw'.
  apply andb_true_iff in Hw as [Hw1 Hw2], Hw' as [Hw1' Hw2'].
  bool_to_prop.
  assert (Hp : 2 ^ 160 <= 2 ^ 256) by (apply Z.pow_le_mono_r; lia).
  rewrite !from_bytes_encode_uint_256 in Hwal by lia.
  unfold encode_uint_256 in Hl. rewrite !from_to_bytes_big_mod in Hl.
  change (256 ^ Z.of_nat 32) with (2 ^ 256) in Hl.
  rewrite !length_app, !length_encode_uint_256, !length_replicate in Hlen.
  assert (Hlu : len u = len u').
  { assert (Hc : ceil32 (len u) = ceil32 (len u')).
    { assert (Hge : forall x, 0 <= x -> x <= ceil32 x).
      { intros x Hx. unfold ceil32. destruct (x mod 32 =? 0); [lia|].
        pose proof (Z.mod_pos_bound x 32). lia. }
      pose proof (Hge (len u)) as G. pose proof (Hge (len u')) as G'.
      unfold len in *. lia. }
    revert Hc Hl. unfold ceil32, len.
    generalize (Z.of_nat (length u)) (Z.of_nat (length u')).
    intros x y.
    assert (H256 : 2 ^ 256 = 32 * 2 ^ 251) by reflexivity.
    destruct (x mod 32 =? 0) eqn:Ex; destruct (y mod 32 =? 0) eqn:Ey;
      intros Hc Hl; revert Hl; rewrite H256;
      generalize (2 ^ 251); intros; Z.div_mod_to_equations; nia. }
  assert (u = u') as <-.
  { apply app_inj_1 in H as [Hu0 _]; [exact Hu0|].
    unfold len in Hlu. lia. }
  f_equal; [exact Hwal|].
  exact (utf8_encode_inj _ _ _ Hu Hu').
Qed.

Lemma build_kind_inj (a a' : Action) (enc : bytes) :
  well_typed a = true -> well_typed a' = true ->
  build a = Ok enc -> build a' = Ok enc -> kind a = kind a'.
Proof.
  intros Hwt Hwt' H H'.
  destruct (build_header a Hwt) as [d Hd].
  destruct (build_header a' Hwt') as [d' Hd'].
  rewrite H in Hd. rewrite H' in Hd'. apply Ok_inj in Hd, Hd'.
  rewrite Hd in Hd'. apply (f_equal (fun l => l !! 3%nat)) in Hd'.
  cbn in Hd'. apply Some_inj in Hd'.
  destruct (kind a), (kind a'); try reflexivity;
    vm_compute in Hd'; discriminate Hd'.
Qed.

Ltac fields_equal :=
  repeat match goal with
         | H : bool_word _ = bool_word _ |- _ => apply bool_word_inj in H
         end;
  subst; reflexivity.

(** X6. The bytes a build function returns determine the action and the
    fields of its record: two records are built to the same bytes only if
    they are records of the same action with the same integer and boolean
    fields, the same name (UTF-8 is injective) and the same addresses.  An
    address field stands here for the 20-byte address that
    [Web3.to_checksum_address] makes of it before it is encoded: two
    spellings of one address (letter case, prefix) are one value, and the
    spelling is not among what the bytes determine. *)
Theorem build_injective (a a' : Action) (enc enc' : bytes) :
  build a = Ok enc -> build a' = Ok enc' -> (enc = enc' <-> a = a').
Proof.
  intros H H'. split; [intros <-|intros <-; congruence].
  pose proof (build_ok_or_raises a) as [[Hwt _]|[_ Hr]];
    [|rewrite H in Hr; destruct Hr].
  pose proof (build_ok_or_raises a') as [[Hwt' _]|[_ Hr]];
    [|rewrite H' in Hr; destruct Hr].
  pose proof (build_kind_inj a a' enc Hwt Hwt' H H') as Hk.
  destruct a as [p|p|p|p|p|p|p|p|p|p|p|p|p|p|p];
    destruct a' as [p'|p'|p'|p'|p'|p'|p'|p'|p'|p'|p'|p'|p'|p'|p'];
    try discriminate Hk; clear Hk;
    try (f_equal; eapply build_add_api_wallet_inj; eassumption);
    match type of H with
    | build ?x = _ =>
        edestruct (build_static x) as [Hb Hr]; [exact Hwt|reflexivity|]
    end;
    match type of H' with
    | build ?x = _ =>
        edestruct (build_static x) as [Hb' Hr']; [exact Hwt'|reflexivity|]
    end;
    rewrite H in Hb; rewrite H' in Hb'; apply Ok_inj in Hb, Hb';
    rewrite Hb in Hb'; apply app_inv_head in Hb';
    (apply concat_words_inj in Hb'; [|reflexivity|exact Hr|exact Hr']);
    destruct p, p'; cbn in Hb'; injection Hb' as Hb'; intros;
    fields_equal.
Qed.

Lemma build_injective_witness :
  exists enc enc' : bytes,
    build (CancelOrderByOid (CancelOrderByOidParams.mk 7 1)) = Ok enc /\
    build (CancelOrderByCloid (CancelOrderByCloidParams.mk 7 1)) = Ok enc' /\
    enc <> enc'.
Proof.
  assert (H : build (CancelOrderByOid (CancelOrderByOidParams.mk 7 1))
              = Ok ([x01; x00; x00; x0a]
                      ++ concat (map encode_uint_256 [7; 1])))
    by (vm_compute; reflexivity).
  assert (H' : build (CancelOrderByCloid (CancelOrderByCloidParams.mk 7 1))
               = Ok ([x01; x00; x00; x0b]
                       ++ concat (map encode_uint_256 [7; 1])))
    by (vm_compute; reflexivity).
  eexists _, _. split; [exact H|]. split; [exact H'|].
  intros Heq.
  apply (proj1 (build_injective _ _ _ _ H H')) in Heq.
  discriminate Heq.
Defined.

(** X7. [chunk_list] at the edges of its argument.  A chunk size of 0
    raises [ValueError] (the step of [range]); a negative chunk size
    returns no chunk at all, whatever the list holds; a positive chunk size
    gives the ceiling of [len / chunk_size] chunks, none of them empty, so
    an empty list gives no chunk. *)
Theorem chunk_list_edges {A : Type} (lst : list A) (chunk_size : Z) :
  (chunk_size = 0 -> chunk_list lst chunk_size = Raise ValueError) /\
  (chunk_size < 0 -> chunk_list lst chunk_size = Ok []) /\
  (0 < chunk_size ->
   exists chunks : list (list A),
     chunk_list lst chunk_size = Ok chunks /\
     len chunks = (len lst + chunk_size - 1) / chunk_size /\
     Forall (fun c => c <> []) chunks /\
     (lst = [] -> chunks = [])).
Proof.
  split; [|split].
  - intros ->. reflexivity.
  - intros Hn. unfold chunk_list, range3, range_len.
    destruct (Z.eqb_spec chunk_size 0) as [|_]; [lia|].
    destruct (Z.ltb_spec 0 chunk_size) as [|_]; [lia|].
    destruct (Z.ltb_spec (len lst) 0) as [Hl|_]; [unfold len in Hl; lia|].
    reflexivity.
  - intros Hn. eexists. split; [apply chunk_list_windows; exact Hn|].
    set (c := range_len 0 (len lst) chunk_size).
    assert (Hc : c = (len lst + chunk_size - 1) / chunk_size).
    { subst c. unfold range_len.
      destruct (Z.ltb_spec 0 chunk_size) as [_|]; [|lia].
      destruct (Z.ltb_spec 0 (len lst)) as [Hl|Hl].
      - replace (len lst + chunk_size - 1)
          with (len lst - 0 - 1 + 1 * chunk_size) by lia.
        rewrite Z.div_add by lia. reflexivity.
      - assert (len lst = 0) as -> by (unfold len in *; lia).
        rewrite Z.div_small by lia. reflexivity. }
    assert (Hc0 : 0 <= c).
    { rewrite Hc. apply Z.div_pos; unfold len; lia. }
    split; [|split].
    + unfold len. rewrite length_map, length_seq, Z2Nat.id by exact Hc0.
      exact Hc.
    + apply Forall_forall. intros ch Hin.
      apply list_elem_of_In, in_map_iff in Hin as (k & <- & Hk).
      apply in_seq in Hk. intros Hnil.
      apply (f_equal (@length A)) in Hnil.
      rewrite length_window in Hnil. cbn [length] in Hnil.
      assert (Hkc : Z.of_nat (k * Z.to_nat chunk_size) = Z.of_nat k * chunk_size)
        by (rewrite Nat2Z.inj_mul, Z2Nat.id by lia; reflexivity).
      destruct (range_len_pos (len lst) chunk_size) as [(H0 & H1 & H2)|[H1 H2]];
        [unfold len; lia|lia| |].
      * fold c in H0, H1, H2.
        assert (Z.of_nat k * chunk_size <= (c - 1) * chunk_size)
          by (apply Z.mul_le_mono_nonneg_r; lia).
        unfold len in H2. lia.
      * fold c in H2. lia.
    + intros ->. subst c. unfold range_len, len. cbn [length Z.of_nat].
      destruct (0 <? chunk_size); reflexivity.
Qed.

Lemma chunk_list_edges_witness :
  chunk_list [1; 2; 3] 0 = Raise ValueError /\
  chunk_list [1; 2; 3] (-2) = Ok [] /\
  exists chunks : list (list Z),
    chunk_list [1; 2; 3] 2 = Ok chunks /\
    len chunks = 2 /\ Forall (fun c => c <> []) chunks.
Proof.
  destruct (chunk_list_edges [1; 2; 3] 0) as (H0 & _ & _).
  destruct (chunk_list_edges [1; 2; 3] (-2)) as (_ & Hn & _).
  destruct (chunk_list_edges [1; 2; 3] 2) as (_ & _ & Hp).
  split; [apply H0; reflexivity|].
  split; [apply Hn; lia|].
  destruct (Hp ltac:(lia)) as (chunks & Hc & Hl & Hne & _).
  exists chunks. split; [exact Hc|]. split; [exact Hl|exact Hne].
Defined.

Lemma encode_address_uint_bad (bits : Z) (user : address) (idx : Z) :
  is_address user = true -> is_uint bits idx = false ->
  encode [Taddress; Tuint bits] [VAddr user; VInt idx] = Raise EncodingError.
Proof.
  intros Hu Hi. unfold encode, encode_chunks, encode_value.
  unfold is_address in Hu. unfold is_uint in Hi. rewrite Hu, Hi. reflexivity.
Qed.

Lemma encode_uint_bad (bits : Z) (idx : Z) :
  is_uint bits idx = false ->
  encode [Tuint bits] [VInt idx] = Raise EncodingError.
Proof.
  intros Hi. unfold encode, encode_chunks, encode_value.
  unfold is_uint in Hi. rewrite Hi. reflexivity.
Qed.

Lemma comprehension_raises {A B : Type} (f : A -> result B) (l : list A)
      (e : exn) :
  (forall x, In x l -> f x = Raise e \/ exists y, f x = Ok y) ->
  Exists (fun x => f x = Raise e) l ->
  comprehension f l = Raise e.
Proof.
  intros Hall Hex. induction l as [|x l IH]; [inversion Hex|].
  cbn [comprehension].
  destruct (Hall x (or_introl eq_refl)) as [Hx|[y Hx]]; rewrite Hx;
    [reflexivity|].
  cbn [mbind result_bind].
  rewrite IH; [reflexivity| |].
  - intros z Hz. apply Hall. right. exact Hz.
  - apply Exists_cons in Hex as [Hex|Hex]; [congruence|exact Hex].
Qed.

Lemma chunk_list_tokens :
  chunk_list (range 425) 300 = Ok [range 300; map (Z.add 300) (range 125)].
Proof. vm_compute. reflexivity. Qed.

Section validation.
Context {World : Type}.
Variable aggregate3 : list Call3 -> World -> result (list Result3) * World.

(** X8. A user address that is not a 20-byte address is refused before
    anything is sent: the batch functions that take a user, and the
    functions built on them, raise [ValueError] and leave the node and the
    record of calls as they were. *)
Theorem invalid_user_makes_no_call (user : address) (indices : list Z)
        (st : State) :
  is_address user = false ->
  batch_get_positions aggregate3 user indices st = (Raise ValueError, st) /\
  batch_get_spot_balances aggregate3 user indices st = (Raise ValueError, st) /\
  get_all_positions aggregate3 user st = (Raise ValueError, st) /\
  get_all_spot_balances aggregate3 user st = (Raise ValueError, st) /\
  get_non_zero_positions aggregate3 user st = (Raise ValueError, st) /\
  get_non_zero_balances aggregate3 user st = (Raise ValueError, st).
Proof.
  intros Hu.
  assert (Hp : forall l, batch_get_positions aggregate3 user l st
                         = (Raise ValueError, st)).
  { intros l. unfold batch_get_positions, bindM, lift, to_checksum_address.
    rewrite Hu. reflexivity. }
  assert (Hb : forall l, batch_get_spot_balances aggregate3 user l st
                         = (Raise ValueError, st)).
  { intros l. unfold batch_get_spot_balances, bindM, lift, to_checksum_address.
    rewrite Hu. reflexivity. }
  assert (Hap : get_all_positions aggregate3 user st = (Raise ValueError, st)).
  { unfold get_all_positions, bindM, lift. rewrite chunk_list_perps.
    cbn [for_eachM]. unfold bindM. rewrite Hp. reflexivity. }
  assert (Hab : get_all_spot_balances aggregate3 user st
                = (Raise ValueError, st)).
  { unfold get_all_spot_balances, bindM, lift. rewrite chunk_list_tokens.
    cbn [for_eachM]. unfold bindM. rewrite Hb. reflexivity. }
  repeat split; try apply Hp; try apply Hb; try exact Hap; try exact Hab.
  - unfold get_non_zero_positions, bindM. rewrite Hap. reflexivity.
  - unfold get_non_zero_balances, bindM. rewrite Hab. reflexivity.
Qed.

End validation.

Lemma invalid_user_makes_no_call_witness :
  batch_get_spot_balances sample_node (2 ^ 160) [0; 1] initial_state
    = (Raise ValueError, initial_state) /\
  get_non_zero_positions sample_node (2 ^ 160) initial_state
    = (Raise ValueError, initial_state).
Proof.
  destruct (invalid_user_makes_no_call sample_node (2 ^ 160) [0; 1]
              initial_state eq_refl) as (_ & Hb & _ & _ & Hn & _).
  split; [exact Hb|exact Hn].
Defined.

Section index_validation.
Context {World : Type}.
Variable aggregate3 : list Call3 -> World -> result (list Result3) * World.

Lemma calls_raise {B : Type} (bits : Z) (f : Z -> result B) (indices : list Z) :
  (forall idx, is_uint bits idx = false -> f idx = Raise EncodingError) ->
  (forall idx, is_uint bits idx = true -> exists y, f idx = Ok y) ->
  Exists (fun idx => is_uint bits idx = false) indices ->
  comprehension f indices = Raise EncodingError.
Proof.
  intros Hbad Hgood Hex. apply comprehension_raises.
  - intros idx _. destruct (is_uint bits idx) eqn:E; [right|left]; auto.
  - eapply Exists_impl; [exact Hex|]. intros idx. apply Hbad.
Qed.

(** X9. The request list is built in full before the node is asked: one
    index outside the integer type of its precompile argument ([uint16]
    for positions, [uint64] for spot balances, [uint32] for mark prices
    and asset info) makes the whole batch raise an [EncodingError], and no
    call is made, also for the indices that are in range. *)
Theorem index_out_of_range_makes_no_call (user : address) (indices : list Z)
        (st : State) :
  is_address user = true ->
  (Exists (fun idx => is_uint 16 idx = false) indices ->
   batch_get_positions aggregate3 user indices st = (Raise EncodingError, st)) /\
  (Exists (fun idx => is_uint 64 idx = false) indices ->
   batch_get_spot_balances aggregate3 user indices st
     = (Raise EncodingError, st)) /\
  (Exists (fun idx => is_uint 32 idx = false) indices ->
   batch_get_mark_prices aggregate3 indices st = (Raise EncodingError, st) /\
   batch_get_perp_asset_info aggregate3 indices st = (Raise EncodingError, st)).
Proof.
  intros Hu. split; [|split].
  - intros Hex. unfold batch_get_positions, bindM, lift, to_checksum_address.
    rewrite Hu. rewrite (calls_raise 16); [reflexivity| | |exact Hex].
    + intros idx Hi. rewrite encode_address_uint_bad by assumption. reflexivity.
    + intros idx Hi. rewrite encode_address_uint by assumption.
      eexists. reflexivity.
  - intros Hex. unfold batch_get_spot_balances, bindM, lift, to_checksum_address.
    rewrite Hu. rewrite (calls_raise 64); [reflexivity| | |exact Hex].
    + intros idx Hi. rewrite encode_address_uint_bad by assumption. reflexivity.
    + intros idx Hi. rewrite encode_address_uint by assumption.
      eexists. reflexivity.
  - intros Hex. split.
    + unfold batch_get_mark_prices, bindM, lift.
      rewrite (calls_raise 32); [reflexivity| | |exact Hex].
      * intros idx Hi. rewrite encode_uint_bad by assumption. reflexivity.
      * intros idx Hi. rewrite encode_uint by assumption. eexists. reflexivity.
    + unfold batch_get_perp_asset_info, bindM, lift.
      rewrite (calls_raise 32); [reflexivity| | |exact Hex].
      * intros idx Hi. rewrite encode_uint_bad by assumption. reflexivity.
      * intros idx Hi. rewrite encode_uint by assumption. eexists. reflexivity.
Qed.

End index_validation.

Lemma index_out_of_range_makes_no_call_witness :
  batch_get_positions sample_node 1 [0; 65536; 2] initial_state
    = (Raise EncodingError, initial_state) /\
  batch_get_spot_balances sample_node 1 [0; -1] initial_state
    = (Raise EncodingError, initial_state) /\
  batch_get_mark_prices sample_node [2 ^ 32] initial_state
    = (Raise EncodingError, initial_state).
Proof.
  destruct (index_out_of_range_makes_no_call sample_node 1 [0; 65536; 2]
              initial_state eq_refl) as (Hp & _ & _).
  destruct (index_out_of_range_makes_no_call sample_node 1 [0; -1]
              initial_state eq_refl) as (_ & Hb & _).
  destruct (index_out_of_range_makes_no_call sample_node 1 [2 ^ 32]
              initial_state eq_refl) as (_ & _ & Hm).
  split; [|split].
  - apply Hp. apply Exists_cons_tl, Exists_cons_hd. reflexivity.
  - apply Hb. apply Exists_cons_tl, Exists_cons_hd. reflexivity.
  - apply Hm. apply Exists_cons_hd. reflexivity.
Defined.

Section failures.
Context {World : Type}.
Variable aggregate3 : list Call3 -> World -> result (list Result3) * World.

Lemma batch_get_positions_fail (user : address) (perp_indices : list Z)
      (st : State) (e : exn) (w' : World) :
  is_address user = true ->
  Forall (fun idx => is_uint 16 idx = true) perp_indices ->
  aggregate3 (map (position_call user) perp_indices) (world st) = (Raise e, w') ->
  batch_get_positions aggregate3 user perp_indices st =
  (Raise e,
   {| world := w';
      calls_made := calls_made st
                      ++ [(map (position_call user) perp_indices, Raise e)] |}).
Proof.
  intros Hu Hidx Hnode. unfold batch_get_positions, bindM, lift, ret.
  unfold to_checksum_address. rewrite Hu.
  rewrite (comprehension_ok _ (position_call user)).
  - unfold call_aggregate3. rewrite Hnode. reflexivity.
  - intros idx Hin. rewrite Forall_forall in Hidx.
    rewrite encode_address_uint
      by (try (apply Hidx, list_elem_of_In); assumption).
    reflexivity.
Qed.

Lemma batch_get_spot_balances_fail (user : address) (token_indices : list Z)
      (st : State) (e : exn) (w' : World) :
  is_address user = true ->
  Forall (fun idx => is_uint 64 idx = true) token_indices ->
  aggregate3 (map (balance_call user) token_indices) (world st) = (Raise e, w') ->
  batch_get_spot_balances aggregate3 user token_indices st =
  (Raise e,
   {| world := w';
      calls_made := calls_made st
                      ++ [(map (balance_call user) token_indices, Raise e)] |}).
Proof.
  intros Hu Hidx Hnode. unfold batch_get_spot_balances, bindM, lift, ret.
  unfold to_checksum_address. rewrite Hu.
  rewrite (comprehension_ok _ (balance_call user)).
  - unfold call_aggregate3. rewrite Hnode. reflexivity.
  - intros idx Hin. rewrite Forall_forall in Hidx.
    rewrite encode_address_uint
      by (try (apply Hidx, list_elem_of_In); assumption).
    reflexivity.
Qed.

Lemma batch_get_mark_prices_fail (perp_indices : list Z)
      (st : State) (e : exn) (w' : World) :
  Forall (fun idx => is_uint 32 idx = true) perp_indices ->
  aggregate3 (map price_call perp_indices) (world st) = (Raise e, w') ->
  batch_get_mark_prices aggregate3 perp_indices st =
  (Raise e,
   {| world := w';
      calls_made := calls_made st ++ [(map price_call perp_indices, Raise e)] |}).
Proof.
  intros Hidx Hnode. unfold batch_get_mark_prices, bindM, lift, ret.
  rewrite (comprehension_ok _ price_call).
  - unfold call_aggregate3. rewrite Hnode. reflexivity.
  - intros idx Hin. rewrite Forall_forall in Hidx.
    rewrite encode_uint by (apply Hidx, list_elem_of_In; assumption).
    reflexivity.
Qed.

Lemma tokens_uint64 :
  Forall (fun idx => is_uint 64 idx = true) (range 300) /\
  Forall (fun idx => is_uint 64 idx = true) (map (Z.add 300) (range 125)).
Proof. split; apply Forall_forallb; vm_compute; reflexivity. Qed.

(** X10. An exception of the node call is caught nowhere and nothing is
    tried again.  For a valid user address: when the first batch of a full
    query raises, the query raises the same exception after that one call;
    when the second batch raises, the query raises it after two calls and
    the replies of the first batch are lost. *)
Theorem node_failure_propagates (user : address) (st : State) (e : exn) :
  is_address user = true ->
  (forall w1,
     aggregate3 (map (position_call user) first_chunk) (world st)
       = (Raise e, w1) ->
     get_all_positions aggregate3 user st =
       (Raise e,
        {| world := w1;
           calls_made :=
             calls_made st
               ++ [(map (position_call user) first_chunk, Raise e)] |})) /\
  (forall rs1 w1 w2,
     aggregate3 (map (position_call user) first_chunk) (world st)
       = (Ok rs1, w1) ->
     aggregate3 (map (position_call user) second_chunk) w1 = (Raise e, w2) ->
     get_all_positions aggregate3 user st =
       (Raise e,
        {| world := w2;
           calls_made :=
             calls_made st
               ++ [(map (position_call user) first_chunk, Ok rs1);
                   (map (position_call user) second_chunk, Raise e)] |})) /\
  (forall w1,
     aggregate3 (map (balance_call user) (range 300)) (world st)
       = (Raise e, w1) ->
     get_all_spot_balances aggregate3 user st =
       (Raise e,
        {| world := w1;
           calls_made :=
             calls_made st
               ++ [(map (balance_call user) (range 300), Raise e)] |})) /\
  (forall rs1 w1 w2,
     aggregate3 (map (balance_call user) (range 300)) (world st)
       = (Ok rs1, w1) ->
     aggregate3 (map (balance_call user) (map (Z.add 300) (range 125))) w1
       = (Raise e, w2) ->
     get_all_spot_balances aggregate3 user st =
       (Raise e,
        {| world := w2;
           calls_made :=
             calls_made st
               ++ [(map (balance_call user) (range 300), Ok rs1);
                   (map (balance_call user) (map (Z.add 300) (range 125)),
                    Raise e)] |})) /\
  (forall w1,
     aggregate3 (map price_call first_chunk) (world st) = (Raise e, w1) ->
     get_all_mark_prices aggregate3 st =
       (Raise e,
        {| world := w1;
           calls_made :=
             calls_made st ++ [(map price_call first_chunk, Raise e)] |})).
Proof.
  intros Hu.
  destruct chunks_uint16 as [H16a H16b].
  destruct tokens_uint64 as [H64a H64b].
  destruct chunks_uint32 as [H32a H32b].
  repeat split.
  - intros w1 H1. unfold get_all_positions, bindM, lift.
    rewrite chunk_list_perps. cbn [for_eachM]. unfold bindM.
    rewrite (batch_get_positions_fail user first_chunk st e w1 Hu H16a H1).
    reflexivity.
  - intros rs1 w1 w2 H1 H2. unfold get_all_positions, bindM, lift.
    rewrite chunk_list_perps. cbn [for_eachM]. unfold bindM.
    rewrite (batch_get_positions_run aggregate3 user first_chunk st rs1 w1
               Hu H16a H1).
    unfold ret.
    rewrite (batch_get_positions_fail user second_chunk (mkState w1 _) e w2
               Hu H16b H2).
    cbn [calls_made]. rewrite <- app_assoc. reflexivity.
  - intros w1 H1. unfold get_all_spot_balances, bindM, lift.
    rewrite chunk_list_tokens. cbn [for_eachM]. unfold bindM.
    rewrite (batch_get_spot_balances_fail user _ st e w1 Hu H64a H1).
    reflexivity.
  - intros rs1 w1 w2 H1 H2. unfold get_all_spot_balances, bindM, lift.
    rewrite chunk_list_tokens. cbn [for_eachM]. unfold bindM.
    rewrite (batch_get_spot_balances_run aggregate3 user _ st rs1 w1
               Hu H64a H1).
    unfold ret.
    rewrite (batch_get_spot_balances_fail user _ (mkState w1 _) e w2
               Hu H64b H2).
    cbn [calls_made]. rewrite <- app_assoc. reflexivity.
  - intros w1 H1. unfold get_all_mark_prices, bindM, lift.
    rewrite chunk_list_perps. cbn [for_eachM]. unfold bindM.
    rewrite (batch_get_mark_prices_fail first_chunk st e w1 H32a H1).
    reflexivity.
Qed.

End failures.

Lemma node_failure_propagates_witness :
  (exists st',
     get_all_spot_balances down_node 1 initial_state = (Raise ValueError, st') /\
     length (calls_made st') = 1%nat) /\
  (exists st',
     get_all_positions flaky_node 1 (mkState 0%nat []) = (Raise ValueError, st') /\
     length (calls_made st') = 2%nat).
Proof.
  destruct (node_failure_propagates down_node 1 initial_state ValueError eq_refl)
    as (_ & _ & Hb & _).
  destruct (node_failure_propagates flaky_node 1 (mkState 0%nat []) ValueError
              eq_refl) as (_ & Hp & _).
  split.
  - eexists. split; [apply Hb; reflexivity|reflexivity].
  - eexists. split; [eapply Hp; reflexivity|reflexivity].
Defined.

Lemma length_kept {A : Type} (keep : A -> bool) (indices : list Z) (rs : list A) :
  (length (kept keep indices rs) <= length rs)%nat.
Proof.
  revert rs. induction indices as [|idx indices IH]; intros rs.
  - rewrite kept_nil_l. cbn. lia.
  - destruct rs as [|r rs]; [rewrite kept_nil_r; cbn; lia|].
    rewrite kept_cons. specialize (IH rs).
    destruct (keep r); cbn [length]; lia.
Qed.

Lemma balance_of_result_index (token_indices : list Z) (i : nat) (r : Result3) :
  balance_of_result token_indices (Z.of_nat i) r =
  match balance_of_result [0] 0 r, token_indices !! i with
  | Some b, Some idx =>
      Some (SpotBalance.mk idx (SpotBalance.total b) (SpotBalance.hold b)
                           (SpotBalance.entry_ntl b))
  | _, _ => None
  end.
Proof.
  destruct r as [success d].
  rewrite balance_of_result_eq.
  pose proof (balance_of_result_eq [0] 0%nat success d) as H0.
  change (Z.of_nat 0) with 0 in H0. rewrite H0. clear H0.
  destruct (success && (96 <=? len d)
            && (from_bytes_big (word_at d 0) <? 2 ^ 64)
            && (from_bytes_big (word_at d 1) <? 2 ^ 64)
            && (from_bytes_big (word_at d 2) <? 2 ^ 64)); [|reflexivity].
  cbn. destruct (token_indices !! i); reflexivity.
Qed.

Section ordering.
Context {World : Type}.
Variable aggregate3 : list Call3 -> World -> result (list Result3) * World.

(** X11. For a valid user address and indices in the range of their
    type, whatever the node replies (fewer replies than requests, more, or
    replies that cannot be decoded), the position and balance batches list
    their records in the order of the requested indices: the indices of
    the records are a sublist of the requested ones, so no record carries
    an index that was not asked for, an index asked once is reported at
    most once, and there are no more records than replies. *)
Theorem batch_records_follow_requests (user : address) (indices : list Z)
        (st : State) (rs : list Result3) (w' : World) :
  is_address user = true ->
  (Forall (fun idx => is_uint 16 idx = true) indices ->
   aggregate3 (map (position_call user) indices) (world st) = (Ok rs, w') ->
   exists positions st',
     batch_get_positions aggregate3 user indices st = (Ok positions, st') /\
     map Position.perp_index positions `sublist_of` indices /\
     (length positions <= length rs)%nat /\
     (NoDup indices -> NoDup (map Position.perp_index positions))) /\
  (Forall (fun idx => is_uint 64 idx = true) indices ->
   aggregate3 (map (balance_call user) indices) (world st) = (Ok rs, w') ->
   exists balances st',
     batch_get_spot_balances aggregate3 user indices st = (Ok balances, st') /\
     map SpotBalance.token_index balances `sublist_of` indices /\
     (length balances <= length rs)%nat /\
     (NoDup indices -> NoDup (map SpotBalance.token_index balances))).
Proof.
  intros Hu. split.
  - intros Hidx Hnode.
    rewrite (batch_get_positions_run aggregate3 user indices st rs w'
               Hu Hidx Hnode).
    eexists _, _. split; [reflexivity|].
    pose proof (map_key_collect (fun r => position_of_result [0] 0 r)
                  with_index Position.perp_index
                  (position_of_result indices) indices rs
                  (position_of_result_index indices)
                  (fun p idx => eq_refl)) as Hk.
    split; [rewrite Hk; apply kept_sublist|].
    split.
    + rewrite <- (length_map Position.perp_index), Hk. apply length_kept.
    + intros Hnd. rewrite Hk. eapply sublist_NoDup; [exact Hnd|].
      apply kept_sublist.
  - intros Hidx Hnode.
    rewrite (batch_get_spot_balances_run aggregate3 user indices st rs w'
               Hu Hidx Hnode).
    eexists _, _. split; [reflexivity|].
    pose proof (map_key_collect (fun r => balance_of_result [0] 0 r)
                  (fun b idx => SpotBalance.mk idx (SpotBalance.total b)
                                  (SpotBalance.hold b) (SpotBalance.entry_ntl b))
                  SpotBalance.token_index
                  (balance_of_result indices) indices rs
                  (balance_of_result_index indices)
                  (fun p idx => eq_refl)) as Hk.
    split; [rewrite Hk; apply kept_sublist|].
    split.
    + rewrite <- (length_map SpotBalance.token_index), Hk. apply length_kept.
    + intros Hnd. rewrite Hk. eapply sublist_NoDup; [exact Hnd|].
      apply kept_sublist.
Qed.

End ordering.

Lemma batch_records_follow_requests_witness :
  (exists positions st',
     batch_get_positions sample_node 1 [4; 1; 2] initial_state
       = (Ok positions, st') /\
     map Position.perp_index positions `sublist_of` [4; 1; 2]) /\
  (exists balances st',
     batch_get_spot_balances sample_node 1 [4; 1; 2] initial_state
       = (Ok balances, st') /\
     map SpotBalance.token_index balances `sublist_of` [4; 1; 2]).
Proof.
  destruct (batch_records_follow_requests sample_node 1 [4; 1; 2] initial_state
              (map sample_reply (map (position_call 1) [4; 1; 2])) tt eq_refl)
    as [Hp _].
  destruct (batch_records_follow_requests sample_node 1 [4; 1; 2] initial_state
              (map sample_reply (map (balance_call 1) [4; 1; 2])) tt eq_refl)
    as [_ Hb].
  split.
  - destruct Hp as (positions & st' & Hrun & Hsub & _);
      [apply Forall_forallb; reflexivity|reflexivity|].
    exists positions, st'. split; [exact Hrun|exact Hsub].
  - destruct Hb as (balances & st' & Hrun & Hsub & _);
      [apply Forall_forallb; reflexivity|reflexivity|].
    exists balances, st'. split; [exact Hrun|exact Hsub].
Defined.

(** *** Decoding what the encoder wrote *)

Lemma decode_cons_word (t : abi_type) (ts : list abi_type) (w rest : bytes) :
  length w = 32%nat ->
  decode (t :: ts) (w ++ rest) =
  (v ← decode_word t w; vs ← decode ts rest; Ok (v :: vs)).
Proof.
  intros Hw. cbn [decode].
  rewrite take_app_length' by (symmetry; exact Hw).
  rewrite drop_app_length' by (symmetry; exact Hw).
  unfold len. rewrite Hw. reflexivity.
Qed.

Lemma decode_word_int64 (z : Z) :
  - 2 ^ 63 <= z < 2 ^ 63 ->
  decode_word (Tint 64) (encode_uint_256 (z mod 2 ^ 256)) = Ok (VInt z).
Proof.
  intros Hz. unfold decode_word.
  rewrite from_bytes_encode_uint_256 by (apply Z.mod_pos_bound; lia).
  assert (Hlow : (if (z mod 2 ^ 256) mod 2 ^ 64 <? 2 ^ (64 - 1)
                  then (z mod 2 ^ 256) mod 2 ^ 64
                  else (z mod 2 ^ 256) mod 2 ^ 64 - 2 ^ 64) = z).
  { change (64 - 1) with 63.
    destruct (Z.ltb_spec ((z mod 2 ^ 256) mod 2 ^ 64) (2 ^ 63));
      Z.div_mod_to_equations; lia. }
  rewrite Hlow, Z.eqb_refl. reflexivity.
Qed.

Lemma decode_word_uint_ok (bits v : Z) :
  0 <= bits <= 256 -> 0 <= v < 2 ^ bits ->
  decode_word (Tuint bits) (encode_uint_256 v) = Ok (VInt v).
Proof.
  intros Hb Hv. unfold decode_word.
  assert (2 ^ bits <= 2 ^ 256) by (apply Z.pow_le_mono_r; lia).
  rewrite from_bytes_encode_uint_256 by lia.
  destruct (Z.ltb_spec v (2 ^ bits)); [reflexivity|lia].
Qed.

Lemma decode_word_bool (b : bool) :
  decode_word Tbool (encode_uint_256 (if b then 1 else 0)) = Ok (VBool b).
Proof. destruct b; vm_compute; reflexivity. Qed.

Lemma encode_position (szi entry_ntl isolated_raw_usd leverage : Z)
      (is_isolated : bool) :
  - 2 ^ 63 <= szi < 2 ^ 63 -> 0 <= entry_ntl < 2 ^ 64 ->
  - 2 ^ 63 <= isolated_raw_usd < 2 ^ 63 -> 0 <= leverage < 2 ^ 32 ->
  encode [Tint 64; Tuint 64; Tint 64; Tuint 32; Tbool]
         [VInt szi; VInt entry_ntl; VInt isolated_raw_usd; VInt leverage;
          VBool is_isolated] =
  Ok (encode_uint_256 (szi mod 2 ^ 256)
        ++ encode_uint_256 entry_ntl
        ++ encode_uint_256 (isolated_raw_usd mod 2 ^ 256)
        ++ encode_uint_256 leverage
        ++ encode_uint_256 (if is_isolated then 1 else 0)).
Proof.
  intros Hs He Hi Hl. unfold encode, encode_chunks, encode_value.
  change (64 - 1) with 63.
  replace ((- 2 ^ 63 <=? szi) && (szi <? 2 ^ 63)) with true by lia.
  replace ((0 <=? entry_ntl) && (entry_ntl <? 2 ^ 64)) with true by lia.
  replace ((- 2 ^ 63 <=? isolated_raw_usd) && (isolated_raw_usd <? 2 ^ 63))
    with true by lia.
  replace ((0 <=? leverage) && (leverage <? 2 ^ 32)) with true by lia.
  cbn [mbind result_bind is_dynamic head_chunks map snd concat fst].
  rewrite !app_nil_r. reflexivity.
Qed.

(** X12. Decoding of a position reply.  For values in the ranges of the
    five ABI types (the size and the isolated margin signed, in two's
    complement), the reply that the ABI encoder writes is 160 bytes long,
    and from a successful reply that starts with these bytes
    [batch_get_positions] makes the record with the same five values,
    negative ones included, under the index requested at the same place.
    A failed reply gives no record, and neither does a reply shorter than
    160 bytes, although the guard of the loop lets 32 bytes through. *)
Theorem position_of_result_round_trip (perp_indices : list Z) (i : nat)
        (idx szi entry_ntl isolated_raw_usd leverage : Z)
        (is_isolated : bool) (extra : bytes) :
  - 2 ^ 63 <= szi < 2 ^ 63 -> 0 <= entry_ntl < 2 ^ 64 ->
  - 2 ^ 63 <= isolated_raw_usd < 2 ^ 63 -> 0 <= leverage < 2 ^ 32 ->
  perp_indices !! i = Some idx ->
  exists reply,
    encode [Tint 64; Tuint 64; Tint 64; Tuint 32; Tbool]
           [VInt szi; VInt entry_ntl; VInt isolated_raw_usd; VInt leverage;
            VBool is_isolated] = Ok reply /\
    len reply = 160 /\
    position_of_result perp_indices (Z.of_nat i) (true, reply ++ extra) =
      Some (Position.mk idx szi entry_ntl isolated_raw_usd leverage
                        is_isolated) /\
    position_of_result perp_indices (Z.of_nat i) (false, reply ++ extra) = None /\
    (forall (success : bool) (d : bytes),
       len d < 160 ->
       position_of_result perp_indices (Z.of_nat i) (success, d) = None).
Proof.
  intros Hs He Hi Hl Hidx. eexists.
  split; [apply encode_position; assumption|].
  split.
  { rewrite !len_app, !len_encode_uint_256. reflexivity. }
  split; [|split].
  - unfold position_of_result.
    replace (32 <=? len _) with true.
    2:{ symmetry. apply Z.leb_le.
        rewrite !len_app, !len_encode_uint_256. unfold len. lia. }
    cbn [andb]. rewrite <- !app_assoc.
    rewrite !decode_cons_word by apply length_encode_uint_256.
    rewrite !decode_word_int64 by assumption.
    rewrite !decode_word_uint_ok by lia.
    rewrite decode_word_bool.
    cbn [decode mbind result_bind].
    rewrite getitem_nat, Hidx. reflexivity.
  - reflexivity.
  - intros success d Hd. unfold position_of_result.
    destruct (success && (32 <=? len d)); [|reflexivity].
    destruct (decode_short [Tint 64; Tuint 64; Tint 64; Tuint 32; Tbool] d)
      as [e Hdec]; [exact Hd|].
    rewrite Hdec. reflexivity.
Qed.

Lemma position_of_result_round_trip_witness :
  exists reply,
    encode [Tint 64; Tuint 64; Tint 64; Tuint 32; Tbool]
           [VInt (-5); VInt 1000; VInt (-1); VInt 20; VBool true] = Ok reply /\
    position_of_result [7; 8; 9] 1 (true, reply) =
      Some (Position.mk 8 (-5) 1000 (-1) 20 true) /\
    position_of_result [7; 8; 9] 1 (true, replicate 32 x00) = None.
Proof.
  destruct (position_of_result_round_trip [7; 8; 9] 1 8 (-5) 1000 (-1) 20 true [])
    as (reply & Henc & _ & Hok & _ & Hshort);
    [lia|lia|lia|lia|reflexivity|].
  exists reply. split; [exact Henc|]. split.
  - rewrite app_nil_r in Hok. exact Hok.
  - apply (Hshort true (replicate 32 x00)). reflexivity.
Defined.

(** *** Mark prices *)

Lemma decode_uint64_one (d : bytes) :
  32 <= len d -> from_bytes_big (word_at d 0) < 2 ^ 64 ->
  decode [Tuint 64] d = Ok [VInt (from_bytes_big (word_at d 0))].
Proof.
  intros Hl Hv. cbn [decode]. rewrite test_word_complete.
  replace (32 <=? len d) with true by lia.
  unfold decode_word. change (take 32 d) with (word_at d 0).
  replace (from_bytes_big (word_at d 0) <? 2 ^ 64) with true by lia.
  reflexivity.
Qed.

Lemma prices_of_results_lookup (perp_indices : list Z) (rs : list Result3) :
  NoDup perp_indices ->
  (length rs <= length perp_indices)%nat ->
  Forall (fun r : Result3 =>
            fst r = true -> 0 < len (snd r) ->
            32 <= len (snd r) /\ from_bytes_big (word_at (snd r) 0) < 2 ^ 64) rs ->
  exists prices : gmap Z Z,
    prices_of_results perp_indices rs = Ok prices /\
    forall (i : nat) (idx : Z),
      perp_indices !! i = Some idx ->
      prices !! idx = rs !! i ≫= price_of_reply.
Proof.
  intros Hnd Hlen Hwf. unfold prices_of_results. rewrite enumerate_eq.
  assert (Hgen : forall (rs : list Result3) (k : nat) (acc : gmap Z Z),
    Forall (fun r : Result3 =>
              fst r = true -> 0 < len (snd r) ->
              32 <= len (snd r) /\ from_bytes_big (word_at (snd r) 0) < 2 ^ 64)
           rs ->
    (k + length rs <= length perp_indices)%nat ->
    exists prices : gmap Z Z,
      for_each
        (fun (prices : gmap Z Z) (ir : Z * Result3) =>
           let '(i, (success, return_data)) := ir in
           if success && (0 <? len return_data) then
             vals ← decode [Tuint 64] return_data;
             first ← getitem vals 0;
             match first with
             | VInt price =>
                 perp_index ← getitem perp_indices i;
                 Ok (<[perp_index := price]> prices)
             | _ => Raise TypeError
             end
           else Ok prices)
        (zip (map Z.of_nat (seq k (length rs))) rs) acc = Ok prices /\
      forall (j : nat) (idx : Z),
        perp_indices !! j = Some idx ->
        prices !! idx =
        match (if (k <=? j)%nat then rs !! (j - k)%nat ≫= price_of_reply
               else None) with
        | Some v => Some v
        | None => acc !! idx
        end).
  { clear rs Hlen Hwf.
    induction rs as [|[success d] rs IH]; intros k acc Hwf Hlen.
    - exists acc. split; [reflexivity|]. intros j idx _.
      destruct (k <=? j)%nat; reflexivity.
    - apply Forall_cons in Hwf as [Hd Hwf]. cbn [length] in Hlen.
      destruct (lookup_lt_is_Some_2 perp_indices k) as [idxk Hidxk]; [lia|].
      cbn [length seq map zip zip_with for_each].
      cbn [fst snd] in Hd.
      destruct (success && (0 <? len d)) eqn:E.
      + pose proof E as E'.
        apply andb_true_iff in E' as [-> E']. apply Z.ltb_lt in E'.
        destruct (Hd eq_refl E') as [Hd1 Hd2].
        rewrite (decode_uint64_one d Hd1 Hd2).
        cbn [mbind result_bind].
        change (getitem [VInt (from_bytes_big (word_at d 0))] 0)
          with (Ok (VInt (from_bytes_big (word_at d 0))) : result value).
        cbn [mbind result_bind]. rewrite getitem_nat, Hidxk.
        cbn [mbind result_bind].
        destruct (IH (S k) (<[idxk := from_bytes_big (word_at d 0)]> acc)
                     Hwf ltac:(lia)) as (m & Hm & Hlook).
        exists m. split; [exact Hm|]. intros j idx Hj.
        rewrite (Hlook j idx Hj).
        destruct (Nat.leb_spec (S k) j) as [Hkj|Hkj].
        * destruct (Nat.leb_spec k j) as [_|]; [|lia].
          replace (j - k)%nat with (S (j - S k)) by lia. cbn [lookup list_lookup].
          destruct (rs !! (j - S k)%nat ≫= price_of_reply); [reflexivity|].
          apply lookup_insert_ne. intros ->.
          pose proof (NoDup_lookup _ _ _ _ Hnd Hidxk Hj). lia.
        * destruct (Nat.leb_spec k j) as [Hk|Hk].
          -- assert (j = k) as -> by lia. rewrite Nat.sub_diag.
             rewrite Hidxk in Hj. injection Hj as <-.
             cbn. unfold price_of_reply. cbn [fst snd]. rewrite E.
             apply lookup_insert_eq.
          -- apply lookup_insert_ne. intros ->.
             pose proof (NoDup_lookup _ _ _ _ Hnd Hidxk Hj). lia.
      + cbn [mbind result_bind].
        destruct (IH (S k) acc Hwf ltac:(lia)) as (m & Hm & Hlook).
        exists m. split; [exact Hm|]. intros j idx Hj.
        rewrite (Hlook j idx Hj).
        destruct (Nat.leb_spec (S k) j) as [Hkj|Hkj].
        * destruct (Nat.leb_spec k j) as [_|]; [|lia].
          replace (j - k)%nat with (S (j - S k)) by lia. reflexivity.
        * destruct (Nat.leb_spec k j) as [Hk|Hk]; [|reflexivity].
          assert (j = k) as -> by lia. rewrite Nat.sub_diag.
          cbn. unfold price_of_reply. cbn [fst snd]. rewrite E. reflexivity. }
  destruct (Hgen rs 0%nat ∅ Hwf ltac:(lia)) as (m & Hm & Hlook).
  exists m. split; [exact Hm|]. intros i idx Hi.
  rewrite (Hlook i idx Hi). cbn [Nat.leb]. rewrite Nat.sub_0_r.
  destruct (rs !! i ≫= price_of_reply); [reflexivity|apply lookup_empty].
Qed.

Lemma for_each_raises {A S : Type} (body : S -> A -> result S) (l : list A)
      (acc : S) (i : nat) (x : A) :
  l !! i = Some x -> (forall acc', raises (body acc' x)) ->
  raises (for_each body l acc).
Proof.
  revert acc i. induction l as [|y l IH]; intros acc i Hi Hx; [discriminate Hi|].
  cbn [for_each]. destruct i as [|i].
  - injection Hi as ->. specialize (Hx acc).
    destruct (body acc x); [destruct Hx|exact I].
  - destruct (body acc y) as [acc'|e]; [|exact I].
    cbn [mbind result_bind]. eapply IH; [exact Hi|exact Hx].
Qed.

Lemma lookup_enumerate {A : Type} (rs : list A) (i : nat) (r : A) :
  rs !! i = Some r -> enumerate rs !! i = Some (Z.of_nat i, r).
Proof.
  intros Hi. rewrite enumerate_eq. unfold zip.
  apply lookup_zip_with_Some. exists (Z.of_nat i), r.
  split; [reflexivity|]. split; [|exact Hi].
  rewrite list_lookup_fmap, lookup_seq_lt by (eapply lookup_lt_Some; exact Hi).
  reflexivity.
Qed.

Section mark_prices.
Context {World : Type}.
Variable aggregate3 : list Call3 -> World -> result (list Result3) * World.

(** X13. What [batch_get_mark_prices] returns.  When the indices asked
    for are distinct values of [uint32] and the node gives at most one
    reply per request,
    each successful non-empty reply holding a [uint64] word, the
    dictionary maps the index requested at place [i] to the value of the
    first word of reply [i] if that reply succeeded with data, and has no
    entry for it otherwise; it has no entry for an index that was not
    asked for. *)
Theorem batch_get_mark_prices_lookup (perp_indices : list Z) (st : State)
        (rs : list Result3) (w' : World) :
  Forall (fun idx => is_uint 32 idx = true) perp_indices ->
  NoDup perp_indices ->
  aggregate3 (map price_call perp_indices) (world st) = (Ok rs, w') ->
  (length rs <= length perp_indices)%nat ->
  Forall (fun r : Result3 =>
            fst r = true -> 0 < len (snd r) ->
            32 <= len (snd r) /\ from_bytes_big (word_at (snd r) 0) < 2 ^ 64) rs ->
  exists prices st',
    batch_get_mark_prices aggregate3 perp_indices st = (Ok prices, st') /\
    calls_made st' = calls_made st ++ [(map price_call perp_indices, Ok rs)] /\
    (forall (i : nat) (idx : Z),
       perp_indices !! i = Some idx ->
       prices !! idx = rs !! i ≫= price_of_reply) /\
    (forall idx, idx ∉ perp_indices -> prices !! idx = None).
Proof.
  intros Hidx Hnd Hnode Hlen Hwf.
  rewrite (batch_get_mark_prices_run aggregate3 perp_indices st rs w' Hidx Hnode).
  destruct (prices_of_results_lookup perp_indices rs Hnd Hlen Hwf)
    as (prices & Hp & Hlook).
  destruct (prices_of_results_dom perp_indices rs) as (prices' & Hp' & Hdom);
    [|exact Hlen|].
  { eapply Forall_impl; [exact Hwf|]. intros r Hr Hs Hl.
    destruct (Hr Hs Hl) as [H1 H2]. eexists.
    apply decode_uint64_one; assumption. }
  rewrite Hp in Hp'. injection Hp' as <-.
  rewrite Hp. eexists _, _. split; [reflexivity|].
  split; [reflexivity|]. split; [exact Hlook|].
  intros idx Hnot. apply not_elem_of_dom. rewrite Hdom.
  rewrite elem_of_list_to_set. intros Hin. apply Hnot.
  eapply elem_of_sublist; [exact Hin|apply kept_sublist].
Qed.

(** X14. The decoding of a mark price is not guarded: for indices in the
    range of [uint32], one successful reply of 1 to 31 bytes makes the
    whole batch raise, after the call to the node has been made, and every
    price of the batch is lost. *)
Theorem batch_get_mark_prices_short_reply (perp_indices : list Z) (st : State)
        (rs : list Result3) (w' : World) (i : nat) (d : bytes) :
  Forall (fun idx => is_uint 32 idx = true) perp_indices ->
  aggregate3 (map price_call perp_indices) (world st) = (Ok rs, w') ->
  rs !! i = Some (true, d) -> 0 < len d < 32 ->
  exists e,
    batch_get_mark_prices aggregate3 perp_indices st =
    (Raise e,
     {| world := w';
        calls_made := calls_made st ++ [(map price_call perp_indices, Ok rs)] |}).
Proof.
  intros Hidx Hnode Hi Hd.
  rewrite (batch_get_mark_prices_run aggregate3 perp_indices st rs w' Hidx Hnode).
  assert (Hr : raises (prices_of_results perp_indices rs)).
  { unfold prices_of_results.
    eapply for_each_raises; [apply lookup_enumerate; exact Hi|].
    intros acc. cbn beta iota.
    replace (0 <? len d) with true by lia. cbn [andb].
    destruct (decode_short [Tuint 64] d) as [e He];
      [change (len [Tuint 64]) with 1; lia|].
    rewrite He. exact I. }
  destruct (prices_of_results perp_indices rs) as [|e]; [destruct Hr|].
  exists e. reflexivity.
Qed.

End mark_prices.

Lemma batch_get_mark_prices_lookup_witness :
  exists prices st',
    batch_get_mark_prices sample_node [1; 2; 3] initial_state
      = (Ok prices, st') /\
    prices !! 2 = Some 102 /\ prices !! 3 = None /\ prices !! 4 = None.
Proof.
  destruct (batch_get_mark_prices_lookup sample_node [1; 2; 3] initial_state
              (map sample_reply (map price_call [1; 2; 3])) tt)
    as (prices & st' & Hrun & _ & Hlook & Hout).
  - apply Forall_forallb. reflexivity.
  - apply (bool_decide_unpack _). vm_compute. exact I.
  - reflexivity.
  - cbn. lia.
  - repeat (apply Forall_cons; split;
            [cbn [fst snd]; intros Hs Hl; try discriminate Hs;
             split; vm_compute; congruence|]).
    apply Forall_nil. exact I.
  - exists prices, st'. split; [exact Hrun|].
    split; [exact (Hlook 1%nat 2 eq_refl)|].
    split; [exact (Hlook 2%nat 3 eq_refl)|].
    apply Hout. apply (bool_decide_unpack _). vm_compute. exact I.
Defined.

Lemma batch_get_mark_prices_short_reply_witness :
  exists e st',
    batch_get_mark_prices garbled_node [0; 1] initial_state = (Raise e, st') /\
    length (calls_made st') = 1%nat.
Proof.
  destruct (batch_get_mark_prices_short_reply garbled_node [0; 1] initial_state
              (map (fun _ => (true, [x01])) (map price_call [0; 1])) tt
              0%nat [x01]) as [e He].
  - apply Forall_forallb. reflexivity.
  - reflexivity.
  - reflexivity.
  - split; reflexivity.
  - exists e. eexists. split; [exact He|reflexivity].
Defined.

Section tokens_in_two_batches.
Context {World : Type}.
Variable aggregate3 : list Call3 -> World -> result (list Result3) * World.

Lemma tokens_cover : range 300 ++ map (Z.add 300) (range 125) = range 425.
Proof. vm_compute. reflexivity. Qed.

Lemma balance_keys (indices : list Z) (rs : list Result3) :
  map SpotBalance.token_index (collect (balance_of_result indices) rs) =
  kept (fun r => match balance_of_result [0] 0 r with
                 | Some _ => true
                 | None => false
                 end) indices rs.
Proof.
  exact (map_key_collect (fun r => balance_of_result [0] 0 r)
           (fun b idx => SpotBalance.mk idx (SpotBalance.total b)
                           (SpotBalance.hold b) (SpotBalance.entry_ntl b))
           SpotBalance.token_index
           (balance_of_result indices) indices rs
           (balance_of_result_index indices)
           (fun p idx => eq_refl)).
Qed.

Lemma get_all_spot_balances_run (user : address) (st : State)
      (rs1 rs2 : list Result3) (w1 w2 : World) :
  is_address user = true ->
  aggregate3 (map (balance_call user) (range 300)) (world st) = (Ok rs1, w1) ->
  aggregate3 (map (balance_call user) (map (Z.add 300) (range 125))) w1
    = (Ok rs2, w2) ->
  get_all_spot_balances aggregate3 user st =
  (Ok (collect (balance_of_result (range 300)) rs1
         ++ collect (balance_of_result (map (Z.add 300) (range 125))) rs2),
   {| world := w2;
      calls_made :=
        calls_made st
          ++ [(map (balance_call user) (range 300), Ok rs1);
              (map (balance_call user) (map (Z.add 300) (range 125)),
               Ok rs2)] |}).
Proof.
  intros Hu H1 H2.
  destruct tokens_uint64 as [H64a H64b].
  unfold get_all_spot_balances, bindM, lift.
  rewrite chunk_list_tokens. cbn [for_eachM]. unfold bindM.
  rewrite (batch_get_spot_balances_run aggregate3 user _ st rs1 w1
             Hu H64a H1).
  unfold ret.
  rewrite (batch_get_spot_balances_run aggregate3 user _ (mkState w1 _) rs2 w2
             Hu H64b H2).
  cbn [calls_made app]. rewrite <- app_assoc. reflexivity.
Qed.

(** X15. For a valid user address, [get_all_spot_balances] asks for the
    425 token indices in two batches, of 300 and of 125 requests, the
    second sent to the node as the first left it.  When both calls return, the balances of the first
    batch come before those of the second, in the order of the indices:
    the token indices of the result are a sublist of 0, 1, ..., 424, none
    is repeated, and there are at most 425 records. *)
Theorem get_all_spot_balances_two_batches (user : address) (st : State)
        (rs1 rs2 : list Result3) (w1 w2 : World) :
  is_address user = true ->
  aggregate3 (map (balance_call user) (range 300)) (world st) = (Ok rs1, w1) ->
  aggregate3 (map (balance_call user) (map (Z.add 300) (range 125))) w1
    = (Ok rs2, w2) ->
  exists balances st',
    get_all_spot_balances aggregate3 user st = (Ok balances, st') /\
    world st' = w2 /\
    calls_made st' =
      calls_made st
        ++ [(map (balance_call user) (range 300), Ok rs1);
            (map (balance_call user) (map (Z.add 300) (range 125)), Ok rs2)] /\
    length (map (balance_call user) (range 300)) = 300%nat /\
    length (map (balance_call user) (map (Z.add 300) (range 125))) = 125%nat /\
    balances = collect (balance_of_result (range 300)) rs1
                 ++ collect (balance_of_result (map (Z.add 300) (range 125))) rs2 /\
    map SpotBalance.token_index balances `sublist_of` range 425 /\
    NoDup (map SpotBalance.token_index balances) /\
    (length balances <= 425)%nat.
Proof.
  intros Hu H1 H2.
  eexists _, _.
  split; [exact (get_all_spot_balances_run user st rs1 rs2 w1 w2 Hu H1 H2)|].
  cbn [world calls_made].
  split; [reflexivity|].
  split; [reflexivity|].
  split; [rewrite length_map, length_range; reflexivity|].
  split; [rewrite !length_map, length_range; reflexivity|].
  split; [reflexivity|].
  assert (Hsub : map SpotBalance.token_index
                   (collect (balance_of_result (range 300)) rs1 ++
                    collect (balance_of_result (map (Z.add 300) (range 125))) rs2)
                 `sublist_of` range 425).
  { rewrite map_app, !balance_keys, <- tokens_cover.
    apply sublist_app; apply kept_sublist. }
  split; [exact Hsub|].
  split.
  - eapply sublist_NoDup; [apply NoDup_range|exact Hsub].
  - apply sublist_length in Hsub.
    rewrite length_map, length_range in Hsub. exact Hsub.
Qed.

End tokens_in_two_batches.

Lemma get_all_spot_balances_two_batches_witness :
  exists balances st',
    get_all_spot_balances sample_node 1 initial_state = (Ok balances, st') /\
    map (fun c => length (fst c)) (calls_made st') = [300%nat; 125%nat] /\
    (length balances <= 425)%nat.
Proof.
  destruct (get_all_spot_balances_two_batches sample_node 1 initial_state
              (map sample_reply (map (balance_call 1) (range 300)))
              (map sample_reply
                 (map (balance_call 1) (map (Z.add 300) (range 125))))
              tt tt eq_refl eq_refl eq_refl)
    as (balances & st' & Hrun & _ & Hcalls & Hl1 & Hl2 & _ & _ & _ & Hlen).
  exists balances, st'. split; [exact Hrun|]. split; [|exact Hlen].
  rewrite Hcalls. cbn [initial_state calls_made app map fst].
  rewrite Hl1, Hl2. reflexivity.
Defined.

(** *** Asset information *)

Lemma parse_perp_asset_info_index (b : bytes) (index : Z) (info : PerpAssetInfo.t) :
  _parse_perp_asset_info (bytes_hex b) index = Some info ->
  PerpAssetInfo.index info = index.
Proof.
  unfold _parse_perp_asset_info. rewrite parse_perp_asset_info_bytes.
  cbv zeta.
  destruct (_ || _); cbn [try_except_none]; [discriminate|].
  intros H. injection H as <-. reflexivity.
Qed.

Lemma keys_sublist {R B : Type} (f : Z -> R -> option B) (key : B -> Z)
      (indices : list Z) (rs : list R) :
  (forall idx r b, f idx r = Some b -> key b = idx) ->
  map key (omap (fun ir => f (fst ir) (snd ir)) (zip indices rs))
    `sublist_of` indices.
Proof.
  intros Hkey. revert rs.
  induction indices as [|idx indices IH]; intros rs; [constructor|].
  destruct rs as [|r rs]; [apply sublist_nil_l|].
  cbn. destruct (f idx r) as [b|] eqn:E.
  - cbn. rewrite (Hkey idx r b E). apply sublist_skip, IH.
  - apply sublist_cons, IH.
Qed.

Lemma omap_cons_eq {A B : Type} (f : A -> option B) (x : A) (l : list A) :
  omap f (x :: l) =
  match f x with
  | Some y => y :: omap f l
  | None => omap f l
  end.
Proof. reflexivity. Qed.

Lemma infos_of_results_eq (perp_indices : list Z) (rs : list Result3) :
  (length rs <= length perp_indices)%nat ->
  infos_of_results perp_indices rs =
  Ok (omap (fun ir => info_of_reply (fst ir) (snd ir)) (zip perp_indices rs)).
Proof.
  intros Hlen. unfold infos_of_results. rewrite enumerate_eq.
  assert (Hgen : forall (rs : list Result3) (k : nat) (acc : list PerpAssetInfo.t),
    (k + length rs <= length perp_indices)%nat ->
    for_each
      (fun infos (ir : Z * Result3) =>
         let '(i, (success, return_data)) := ir in
         if success && (0 <? len return_data) then
           index ← getitem perp_indices i;
           match _parse_perp_asset_info (bytes_hex return_data) index with
           | Some info => Ok (infos ++ [info])
           | None => Ok infos
           end
         else Ok infos)
      (zip (map Z.of_nat (seq k (length rs))) rs) acc =
    Ok (acc ++ omap (fun ir => info_of_reply (fst ir) (snd ir))
                    (zip (drop k perp_indices) rs))).
  { clear rs Hlen. induction rs as [|[success d] rs IH]; intros k acc Hlen.
    - destruct (drop k perp_indices); cbn; rewrite app_nil_r; reflexivity.
    - cbn [length] in Hlen.
      destruct (lookup_lt_is_Some_2 perp_indices k) as [idx Hidx]; [lia|].
      rewrite (drop_S _ _ _ Hidx).
      cbn [length seq map zip zip_with for_each].
      rewrite omap_cons_eq. unfold info_of_reply at 1. cbn [fst snd].
      destruct (success && (0 <? len d)).
      + rewrite getitem_nat, Hidx. cbn [mbind result_bind].
        destruct (_parse_perp_asset_info (bytes_hex d) idx) as [info|];
          cbn [mbind result_bind]; rewrite IH by lia.
        * rewrite <- app_assoc. reflexivity.
        * reflexivity.
      + cbn [mbind result_bind]. rewrite IH by lia. reflexivity. }
  rewrite (Hgen rs 0%nat [] ltac:(lia)). reflexivity.
Qed.

Lemma elem_of_zip_lookup {A B : Type} (l : list A) (k : list B) (a : A) (b : B) :
  (a, b) ∈ zip l k <-> exists i : nat, l !! i = Some a /\ k !! i = Some b.
Proof.
  rewrite list_elem_of_lookup. unfold zip. split.
  - intros [i Hi]. exists i.
    apply lookup_zip_with_Some in Hi as (x & y & Heq & Hx & Hy).
    injection Heq as -> ->. split; assumption.
  - intros (i & Hx & Hy). exists i.
    apply lookup_zip_with_Some. exists a, b. split; [reflexivity|].
    split; assumption.
Qed.

Lemma info_of_reply_index (idx : Z) (r : Result3) (info : PerpAssetInfo.t) :
  info_of_reply idx r = Some info -> PerpAssetInfo.index info = idx.
Proof.
  unfold info_of_reply. destruct (fst r && _); [|discriminate].
  apply parse_perp_asset_info_index.
Qed.

Section asset_info.
Context {World : Type}.
Variable aggregate3 : list Call3 -> World -> result (list Result3) * World.

Lemma batch_get_perp_asset_info_run (perp_indices : list Z)
      (st : State) (rs : list Result3) (w' : World) :
  Forall (fun idx => is_uint 32 idx = true) perp_indices ->
  aggregate3 (map info_call perp_indices) (world st) = (Ok rs, w') ->
  batch_get_perp_asset_info aggregate3 perp_indices st =
  (infos_of_results perp_indices rs,
   {| world := w';
      calls_made := calls_made st ++ [(map info_call perp_indices, Ok rs)] |}).
Proof.
  intros Hidx Hnode. unfold batch_get_perp_asset_info, bindM, lift, ret.
  rewrite (comprehension_ok _ info_call).
  - unfold call_aggregate3. rewrite Hnode. reflexivity.
  - intros idx Hin. rewrite Forall_forall in Hidx.
    rewrite encode_uint by (apply Hidx, list_elem_of_In; assumption).
    reflexivity.
Qed.

(** X16. What [batch_get_perp_asset_info] returns for indices in the
    range of [uint32] when the node gives at most one reply per request:
    one call is made, with one request to the
    precompile 0x80a per index; the records come in the order of the
    requested indices; a reply that is the ABI encoding of an asset record
    gives that record, under the index requested at the same place, the
    coin read as in [_parse_perp_asset_info]; when the indices are
    distinct, a failed or empty reply gives no record for its index. *)
Theorem batch_get_perp_asset_info_records (perp_indices : list Z) (st : State)
        (rs : list Result3) (w' : World) :
  Forall (fun idx => is_uint 32 idx = true) perp_indices ->
  aggregate3 (map info_call perp_indices) (world st) = (Ok rs, w') ->
  (length rs <= length perp_indices)%nat ->
  exists infos st',
    batch_get_perp_asset_info aggregate3 perp_indices st = (Ok infos, st') /\
    calls_made st' = calls_made st ++ [(map info_call perp_indices, Ok rs)] /\
    map PerpAssetInfo.index infos `sublist_of` perp_indices /\
    (forall (i : nat) (idx : Z) (coin : bytes) (m s l : Z) (o : bool),
       perp_indices !! i = Some idx ->
       rs !! i = Some (true, perp_asset_info_response coin m s l o) ->
       0 <= m < 2 ^ 256 -> 0 <= s < 2 ^ 256 -> 0 <= l < 2 ^ 256 ->
       len coin < 2 ^ 256 ->
       PerpAssetInfo.mk idx (coin_of_bytes coin) m s l o ∈ infos) /\
    (NoDup perp_indices ->
     forall (i : nat) (idx : Z) (success : bool) (d : bytes),
       perp_indices !! i = Some idx -> rs !! i = Some (success, d) ->
       success = false \/ d = [] ->
       forall info, info ∈ infos -> PerpAssetInfo.index info <> idx).
Proof.
  intros Hidx Hnode Hlen.
  rewrite (batch_get_perp_asset_info_run perp_indices st rs w' Hidx Hnode).
  rewrite (infos_of_results_eq perp_indices rs Hlen).
  eexists _, _. split; [reflexivity|]. split; [reflexivity|].
  split; [|split].
  - apply keys_sublist. intros idx r b. apply info_of_reply_index.
  - intros i idx coin m s l o Hi Hr Hm Hs Hl Hc.
    apply list_elem_of_omap.
    exists (idx, (true, perp_asset_info_response coin m s l o)).
    split; [apply elem_of_zip_lookup; exists i; split; assumption|].
    unfold info_of_reply. cbn [fst snd].
    replace (0 <? len (perp_asset_info_response coin m s l o)) with true.
    + cbn [andb]. apply parse_response; assumption.
    + symmetry. apply Z.ltb_lt. unfold perp_asset_info_response.
      rewrite len_app, len_encode_uint_256. unfold len. lia.
  - intros Hnd i idx success d Hi Hr Hbad info Hin Hkey.
    apply list_elem_of_omap in Hin as ([idx' r'] & Hin & Hinfo).
    cbn [fst snd] in Hinfo.
    apply elem_of_zip_lookup in Hin as (j & Hj & Hrj).
    pose proof (info_of_reply_index idx' r' info Hinfo) as Hidx'.
    rewrite Hkey in Hidx'. subst idx'.
    pose proof (NoDup_lookup _ _ _ _ Hnd Hi Hj) as Hij. subst j.
    pose proof (eq_trans (eq_sym Hrj) Hr) as Hrr.
    apply Some_inj in Hrr. subst r'.
    unfold info_of_reply in Hinfo. cbn [fst snd] in Hinfo.
    destruct Hbad as [-> | ->]; [discriminate Hinfo|].
    rewrite andb_false_r in Hinfo. discriminate Hinfo.
Qed.

(** X17. A reply too many.  For indices in the range of [uint32], if the
    node returns more replies than requests and one of the extra replies
    is successful and not empty,
    [batch_get_perp_asset_info] and [batch_get_mark_prices] raise: the
    index of the request is looked up outside any handler.  (The position
    and balance batches look it up inside [try] and drop the reply.) *)
Theorem extra_reply_raises (perp_indices : list Z) (st : State)
        (rs : list Result3) (w' : World) (i : nat) (d : bytes) :
  Forall (fun idx => is_uint 32 idx = true) perp_indices ->
  rs !! i = Some (true, d) -> 0 < len d ->
  (length perp_indices <= i)%nat ->
  (aggregate3 (map info_call perp_indices) (world st) = (Ok rs, w') ->
   exists e,
     batch_get_perp_asset_info aggregate3 perp_indices st =
     (Raise e,
      {| world := w';
         calls_made :=
           calls_made st ++ [(map info_call perp_indices, Ok rs)] |})) /\
  (aggregate3 (map price_call perp_indices) (world st) = (Ok rs, w') ->
   exists e,
     batch_get_mark_prices aggregate3 perp_indices st =
     (Raise e,
      {| world := w';
         calls_made :=
           calls_made st ++ [(map price_call perp_indices, Ok rs)] |})).
Proof.
  intros Hidx Hi Hd Hlen.
  assert (Hget : getitem perp_indices (Z.of_nat i) = Raise IndexError).
  { rewrite getitem_nat. rewrite lookup_ge_None_2 by lia. reflexivity. }
  split; intros Hnode.
  - rewrite (batch_get_perp_asset_info_run perp_indices st rs w' Hidx Hnode).
    assert (Hr : raises (infos_of_results perp_indices rs)).
    { unfold infos_of_results.
      eapply for_each_raises; [apply lookup_enumerate; exact Hi|].
      intros acc. cbn beta iota.
      replace (0 <? len d) with true by lia. cbn [andb].
      rewrite Hget. exact I. }
    destruct (infos_of_results perp_indices rs) as [|e]; [destruct Hr|].
    exists e. reflexivity.
  - rewrite (batch_get_mark_prices_run aggregate3 perp_indices st rs w'
               Hidx Hnode).
    assert (Hr : raises (prices_of_results perp_indices rs)).
    { unfold prices_of_results.
      eapply for_each_raises; [apply lookup_enumerate; exact Hi|].
      intros acc. cbn beta iota.
      replace (0 <? len d) with true by lia. cbn [andb].
      destruct (decode [Tuint 64] d) as [vals|e]; [|exact I].
      cbn [mbind result_bind].
      destruct (getitem vals 0) as [first|e]; [|exact I].
      cbn [mbind result_bind].
      destruct first; try exact I.
      rewrite Hget. exact I. }
    destruct (prices_of_results perp_indices rs) as [|e]; [destruct Hr|].
    exists e. reflexivity.
Qed.

End asset_info.

Lemma batch_get_perp_asset_info_records_witness :
  exists infos st',
    batch_get_perp_asset_info info_node [3; 9] initial_state = (Ok infos, st') /\
    PerpAssetInfo.mk 9 (str_lit "BTC") 1 5 50 false ∈ infos.
Proof.
  destruct (batch_get_perp_asset_info_records info_node [3; 9] initial_state
              (map (fun _ => (true, perp_asset_info_response [x42; x54; x43]
                                      1 5 50 false))
                   (map info_call [3; 9])) tt)
    as (infos & st' & Hrun & _ & _ & Hin & _).
  - apply Forall_forallb. reflexivity.
  - reflexivity.
  - cbn. lia.
  - exists infos, st'. split; [exact Hrun|].
    apply (Hin 1%nat 9 [x42; x54; x43] 1 5 50 false);
      try reflexivity; lia.
Defined.

Lemma extra_reply_raises_witness :
  (exists e st',
     batch_get_perp_asset_info chatty_node [1; 2] initial_state
       = (Raise e, st')) /\
  (exists e st',
     batch_get_mark_prices chatty_node [1; 2] initial_state = (Raise e, st')).
Proof.
  destruct (extra_reply_raises chatty_node [1; 2] initial_state
              (map sample_reply (map info_call [1; 2]) ++ [(true, [x01])]) tt
              2%nat [x01]) as [Hi _].
  { apply Forall_forallb. reflexivity. }
  { reflexivity. }
  { reflexivity. }
  { cbn. lia. }
  destruct (extra_reply_raises chatty_node [1; 2] initial_state
              (map sample_reply (map price_call [1; 2]) ++ [(true, [x01])]) tt
              2%nat [x01]) as [_ Hp].
  { apply Forall_forallb. reflexivity. }
  { reflexivity. }
  { reflexivity. }
  { cbn. lia. }
  split.
  - destruct (Hi eq_refl) as [e He]. exists e. eexists. exact He.
  - destruct (Hp eq_refl) as [e He]. exists e. eexists. exact He.
Defined.

(** X18. When [_parse_perp_asset_info] gives up, and what it returns
    otherwise.  With [t] the tuple offset read from word 0 and [ss] the
    place of the string length word, the parser returns [None] exactly
    when the response ends at or before the start of word [t + 4] or of
    word [ss]; nothing else is checked.  A record it returns carries the
    index passed in, fields that are not negative, and a coin made of
    characters 1 to 255 (no NUL), at most as many as the length word says
    and never more than remain in the response. *)
Theorem parse_perp_asset_info_none_iff (response : bytes) (index : Z) :
  let t := from_bytes_big (word_at response 0) / 32 in
  let ss := t + from_bytes_big (word_at response t) / 32 in
  (_parse_perp_asset_info (bytes_hex response) index = None <->
   len response <= 32 * (t + 4) \/ len response <= 32 * ss) /\
  (forall info,
     _parse_perp_asset_info (bytes_hex response) index = Some info ->
     PerpAssetInfo.index info = index /\
     0 <= PerpAssetInfo.margin_table_id info /\
     0 <= PerpAssetInfo.sz_decimals info /\
     0 <= PerpAssetInfo.max_leverage info /\
     Forall (fun c => 0 < c < 256) (PerpAssetInfo.coin info) /\
     len (PerpAssetInfo.coin info) <= from_bytes_big (word_at response ss) /\
     len (PerpAssetInfo.coin info) <= len response).
Proof.
  intros t ss. unfold _parse_perp_asset_info.
  rewrite parse_perp_asset_info_bytes. fold t. fold ss.
  destruct (Z.leb_spec (len response) (32 * (t + 4))) as [H1|H1];
    destruct (Z.leb_spec (len response) (32 * ss)) as [H2|H2];
    cbn [orb try_except_none]; (split; [split|]);
    try (intros _; auto; fail); try (intros ? H; discriminate H).
  - intros H. discriminate H.
  - intros [H|H]; lia.
  - intros info H. injection H as <-.
    cbn [PerpAssetInfo.index PerpAssetInfo.margin_table_id
         PerpAssetInfo.sz_decimals PerpAssetInfo.max_leverage
         PerpAssetInfo.coin].
    split; [reflexivity|].
    split; [apply from_bytes_big_nonneg|].
    split; [apply from_bytes_big_nonneg|].
    split; [apply from_bytes_big_nonneg|].
    set (data := take _ _).
    assert (Hlen : (length (coin_of_bytes data) <= length data)%nat).
    { unfold coin_of_bytes. rewrite length_map. apply length_filter. }
    assert (Hdata : (length data <= Z.to_nat (from_bytes_big (word_at response ss)))%nat
                    /\ (length data <= length response)%nat).
    { subst data. rewrite length_take, length_drop. lia. }
    pose proof (from_bytes_big_nonneg (word_at response ss)).
    split; [|unfold len; lia].
    unfold coin_of_bytes. apply Forall_forall. intros c Hc.
    apply list_elem_of_fmap in Hc as (x & -> & Hx).
    apply list_elem_of_filter in Hx as [Hx _].
    pose proof (Z_of_byte_range x). lia.
Qed.

Lemma parse_perp_asset_info_none_iff_witness :
  _parse_perp_asset_info (bytes_hex (replicate 64 x00)) 3 = None /\
  PerpAssetInfo.index (PerpAssetInfo.mk 3 [66; 67] 1 5 50 false) = 3 /\
  Forall (fun c => 0 < c < 256)
         (PerpAssetInfo.coin (PerpAssetInfo.mk 3 [66; 67] 1 5 50 false)).
Proof.
  split.
  - apply (proj1 (parse_perp_asset_info_none_iff (replicate 64 x00) 3)).
    left. vm_compute. congruence.
  - destruct (proj2 (parse_perp_asset_info_none_iff
                       (perp_asset_info_response [x42; x00; x43] 1 5 50 false)
                       3) (PerpAssetInfo.mk 3 [66; 67] 1 5 50 false))
      as (Hi & _ & _ & _ & Hc & _).
    + vm_compute. reflexivity.
    + split; [exact Hi|exact Hc].
Defined.

(** *** Ranges of decoded positions *)

Lemma decode_cons_inv (t : abi_type) (ts : list abi_type) (d : bytes)
      (vs : list value) :
  decode (t :: ts) d = Ok vs ->
  exists v vs', vs = v :: vs' /\
                decode_word t (take 32 d) = Ok v /\
                decode ts (drop 32 d) = Ok vs'.
Proof.
  cbn [decode]. destruct (len (take 32 d) =? 32); [|discriminate].
  destruct (decode_word t (take 32 d)) as [v|]; [|discriminate].
  cbn [mbind result_bind].
  destruct (decode ts (drop 32 d)) as [vs'|]; [|discriminate].
  cbn [mbind result_bind]. intros H. injection H as <-.
  exists v, vs'. auto.
Qed.

Lemma decode_word_int64_range (w : bytes) (v : value) :
  decode_word (Tint 64) w = Ok v ->
  exists z, v = VInt z /\ - 2 ^ 63 <= z < 2 ^ 63.
Proof.
  unfold decode_word. change (64 - 1) with 63.
  destruct (_ =? _); [|discriminate]. intros H. injection H as <-.
  eexists. split; [reflexivity|].
  pose proof (Z.mod_pos_bound (from_bytes_big w) (2 ^ 64) ltac:(lia)).
  destruct (Z.ltb_spec (from_bytes_big w mod 2 ^ 64) (2 ^ 63)); lia.
Qed.

Lemma decode_word_bool_inv (w : bytes) (v : value) :
  decode_word Tbool w = Ok v -> exists b, v = VBool b.
Proof.
  unfold decode_word. destruct (_ =? 0); [intros H; injection H as <-; eauto|].
  destruct (_ =? 1); [intros H; injection H as <-; eauto|discriminate].
Qed.

Lemma position_fields_range (r : Result3) (p : Position.t) :
  position_of_result [0] 0 r = Some p ->
  - 2 ^ 63 <= Position.szi p < 2 ^ 63 /\
  0 <= Position.entry_ntl p < 2 ^ 64 /\
  - 2 ^ 63 <= Position.isolated_raw_usd p < 2 ^ 63 /\
  0 <= Position.leverage p < 2 ^ 32.
Proof.
  unfold position_of_result. destruct r as [success d].
  destruct (success && (32 <=? len d)); [|discriminate].
  destruct (decode _ d) as [vals|] eqn:Hd; [|discriminate].
  apply decode_cons_inv in Hd as (v1 & vs1 & -> & Hw1 & Hd).
  apply decode_cons_inv in Hd as (v2 & vs2 & -> & Hw2 & Hd).
  apply decode_cons_inv in Hd as (v3 & vs3 & -> & Hw3 & Hd).
  apply decode_cons_inv in Hd as (v4 & vs4 & -> & Hw4 & Hd).
  apply decode_cons_inv in Hd as (v5 & vs5 & -> & Hw5 & Hd).
  cbn [decode] in Hd. injection Hd as <-.
  apply decode_word_int64_range in Hw1 as (z1 & -> & Hz1).
  apply decode_word_uint in Hw2 as (-> & Hz2).
  apply decode_word_int64_range in Hw3 as (z3 & -> & Hz3).
  apply decode_word_uint in Hw4 as (-> & Hz4).
  apply decode_word_bool_inv in Hw5 as (b & ->).
  cbn [mbind result_bind try_except_none].
  change (getitem [0] 0) with (Ok 0 : result Z).
  cbn [mbind result_bind try_except_none].
  intros H. injection H as <-. cbn. auto.
Qed.

Section sides.
Context {World : Type}.
Variable aggregate3 : list Call3 -> World -> result (list Result3) * World.

Lemma batch_get_positions_inv (user : address) (perp_indices : list Z)
      (st st' : State) (positions : list Position.t) :
  batch_get_positions aggregate3 user perp_indices st = (Ok positions, st') ->
  exists rs, positions = collect (position_of_result perp_indices) rs.
Proof.
  unfold batch_get_positions, bindM, lift, ret, call_aggregate3.
  destruct (to_checksum_address user); [|discriminate].
  destruct (comprehension _ perp_indices) as [calls|]; [|discriminate].
  destruct (aggregate3 calls (world st)) as [[rs|] w]; [|discriminate].
  intros H. injection H as <- _. exists rs. reflexivity.
Qed.

Lemma collect_positions_range (perp_indices : list Z) (rs : list Result3) :
  Forall (fun p =>
            Position.perp_index p ∈ perp_indices /\
            - 2 ^ 63 <= Position.szi p < 2 ^ 63 /\
            0 <= Position.entry_ntl p < 2 ^ 64 /\
            - 2 ^ 63 <= Position.isolated_raw_usd p < 2 ^ 63 /\
            0 <= Position.leverage p < 2 ^ 32)
         (collect (position_of_result perp_indices) rs).
Proof.
  apply Forall_forall. intros p Hp.
  apply elem_of_collect in Hp as (i & r & Hr & Hbody).
  rewrite position_of_result_index in Hbody.
  destruct (position_of_result [0] 0 r) as [p0|] eqn:Hp0; [|discriminate].
  destruct (perp_indices !! i) as [idx|] eqn:Hidx; [|discriminate].
  injection Hbody as <-.
  split; [eapply list_elem_of_lookup_2; exact Hidx|].
  exact (position_fields_range r p0 Hp0).
Qed.

(** X19. Whatever the node replies, every position that
    [get_all_positions] returns has a perp index among 0, ..., 224 and
    fields in the ranges of their ABI types (the size and the isolated
    margin as signed 64-bit integers), and every position that
    [get_non_zero_positions] returns is long or short and not both. *)
Theorem positions_in_range (user : address) (st st' : State)
        (positions : list Position.t) :
  (get_all_positions aggregate3 user st = (Ok positions, st') ->
   Forall (fun p =>
             0 <= Position.perp_index p < 225 /\
             - 2 ^ 63 <= Position.szi p < 2 ^ 63 /\
             0 <= Position.entry_ntl p < 2 ^ 64 /\
             - 2 ^ 63 <= Position.isolated_raw_usd p < 2 ^ 63 /\
             0 <= Position.leverage p < 2 ^ 32 /\
             Position.is_long p && Position.is_short p = false /\
             (Position.is_long p || Position.is_short p = false <->
              Position.szi p = 0))
          positions) /\
  (get_non_zero_positions aggregate3 user st = (Ok positions, st') ->
   Forall (fun p =>
             Position.szi p <> 0 /\
             xorb (Position.is_long p) (Position.is_short p) = true)
          positions).
Proof.
  assert (Hside : forall p : Position.t,
            Position.is_long p && Position.is_short p = false /\
            (Position.is_long p || Position.is_short p = false <->
             Position.szi p = 0)).
  { intros p. unfold Position.is_long, Position.is_short.
    destruct (Z.ltb_spec 0 (Position.szi p));
      destruct (Z.ltb_spec (Position.szi p) 0); cbn; split; try split;
      try lia; try reflexivity; try discriminate. }
  split.
  - unfold get_all_positions, bindM, lift. rewrite chunk_list_perps.
    cbn [for_eachM]. unfold bindM, ret.
    destruct (batch_get_positions aggregate3 user first_chunk st)
      as [[ps1|] st1] eqn:H1; [|discriminate].
    destruct (batch_get_positions aggregate3 user second_chunk st1)
      as [[ps2|] st2] eqn:H2; [|discriminate].
    intros H. injection H as <- _.
    apply batch_get_positions_inv in H1 as [rs1 ->].
    apply batch_get_positions_inv in H2 as [rs2 ->].
    cbn [app]. apply Forall_app. split.
    + eapply Forall_impl; [apply collect_positions_range|].
      intros p (Hidx & Hr). cbv beta.
      assert (0 <= Position.perp_index p < 225).
      { unfold first_chunk, range in Hidx.
        apply list_elem_of_fmap in Hidx as (n & -> & Hn).
        apply elem_of_seq in Hn. lia. }
      destruct (Hside p). tauto.
    + eapply Forall_impl; [apply collect_positions_range|].
      intros p (Hidx & Hr). cbv beta.
      assert (0 <= Position.perp_index p < 225).
      { unfold second_chunk, range in Hidx.
        apply list_elem_of_fmap in Hidx as (m & -> & Hm).
        apply list_elem_of_fmap in Hm as (n & -> & Hn).
        apply elem_of_seq in Hn. lia. }
      destruct (Hside p). tauto.
  - unfold get_non_zero_positions, bindM, ret.
    destruct (get_all_positions aggregate3 user st) as [[ps|] st1];
      [|discriminate].
    intros H. injection H as <- _.
    apply Forall_forall. intros p Hp.
    apply list_elem_of_filter in Hp as [Hnz _].
    split; [exact Hnz|].
    unfold Position.is_long, Position.is_short.
    destruct (Z.ltb_spec 0 (Position.szi p));
      destruct (Z.ltb_spec (Position.szi p) 0); cbn; try reflexivity; lia.
Qed.

End sides.

Lemma positions_in_range_witness :
  exists positions st',
    get_non_zero_positions sample_node 1 initial_state = (Ok positions, st') /\
    Forall (fun p =>
              Position.szi p <> 0 /\
              xorb (Position.is_long p) (Position.is_short p) = true)
           positions.
Proof.
  eexists _, _. split; [vm_compute; reflexivity|].
  match goal with
  | |- Forall _ ?ps =>
      eapply (proj2 (positions_in_range sample_node 1 initial_state _ ps))
  end.
  vm_compute. reflexivity.
Defined.

(** *** All mark prices *)

Lemma prices_of_results_spec (perp_indices : list Z) (rs : list Result3) :
  NoDup perp_indices ->
  (length rs <= length perp_indices)%nat ->
  Forall (fun r : Result3 =>
            fst r = true -> 0 < len (snd r) ->
            32 <= len (snd r) /\ from_bytes_big (word_at (snd r) 0) < 2 ^ 64) rs ->
  exists prices : gmap Z Z,
    prices_of_results perp_indices rs = Ok prices /\
    (forall (i : nat) (idx : Z),
       perp_indices !! i = Some idx ->
       prices !! idx = rs !! i ≫= price_of_reply) /\
    (forall idx, idx ∉ perp_indices -> prices !! idx = None).
Proof.
  intros Hnd Hlen Hwf.
  destruct (prices_of_results_lookup perp_indices rs Hnd Hlen Hwf)
    as (prices & Hp & Hlook).
  destruct (prices_of_results_dom perp_indices rs) as (prices' & Hp' & Hdom);
    [|exact Hlen|].
  { eapply Forall_impl; [exact Hwf|]. intros r Hr Hs Hl.
    destruct (Hr Hs Hl) as [H1 H2]. eexists.
    apply decode_uint64_one; assumption. }
  rewrite Hp in Hp'. injection Hp' as <-.
  exists prices. split; [exact Hp|]. split; [exact Hlook|].
  intros idx Hnot. apply not_elem_of_dom. rewrite Hdom.
  rewrite elem_of_list_to_set. intros Hin. apply Hnot.
  eapply elem_of_sublist; [exact Hin|apply kept_sublist].
Qed.

Lemma lookup_first_chunk (i : nat) :
  (i < 200)%nat -> first_chunk !! i = Some (Z.of_nat i).
Proof.
  intros Hi. unfold first_chunk, range.
  rewrite list_lookup_fmap, lookup_seq_lt by (change (Z.to_nat 200) with 200%nat; lia).
  reflexivity.
Qed.

Lemma lookup_second_chunk (i : nat) :
  (i < 25)%nat -> second_chunk !! i = Some (200 + Z.of_nat i).
Proof.
  intros Hi. unfold second_chunk, range.
  rewrite !list_lookup_fmap, lookup_seq_lt by (change (Z.to_nat 25) with 25%nat; lia).
  reflexivity.
Qed.

Lemma elem_of_first_chunk (idx : Z) : idx ∈ first_chunk <-> 0 <= idx < 200.
Proof.
  unfold first_chunk, range. rewrite list_elem_of_fmap. split.
  - intros (n & -> & Hn). apply elem_of_seq in Hn. lia.
  - intros H. exists (Z.to_nat idx). split; [lia|]. apply elem_of_seq. lia.
Qed.

Lemma elem_of_second_chunk (idx : Z) : idx ∈ second_chunk <-> 200 <= idx < 225.
Proof.
  unfold second_chunk, range. rewrite list_elem_of_fmap. split.
  - intros (m & -> & Hm). apply list_elem_of_fmap in Hm as (n & -> & Hn).
    apply elem_of_seq in Hn. lia.
  - intros H. exists (idx - 200). split; [lia|].
    apply list_elem_of_fmap. exists (Z.to_nat (idx - 200)). split; [lia|].
    apply elem_of_seq. lia.
Qed.

Lemma NoDup_chunks : NoDup first_chunk /\ NoDup second_chunk.
Proof.
  pose proof (NoDup_range 225) as H. rewrite <- chunks_cover in H.
  apply NoDup_app in H as (H1 & _ & H2). split; assumption.
Qed.

Section all_mark_prices.
Context {World : Type}.
Variable aggregate3 : list Call3 -> World -> result (list Result3) * World.

(** X20. What [get_all_mark_prices] returns.  When the node gives at most
    one reply per request to each of the two batches, each successful
    non-empty reply holding a [uint64] word, the dictionary has, for a perp
    index below 200, the price of the reply at the same place of the
    first batch, and for an index from 200 to 224 the price of the reply
    at place [index - 200] of the second batch; it has no entry where
    the reply failed or was empty, and none outside 0, ..., 224. *)
Theorem get_all_mark_prices_lookup (st : State) (rs1 rs2 : list Result3)
        (w1 w2 : World) :
  aggregate3 (map price_call first_chunk) (world st) = (Ok rs1, w1) ->
  aggregate3 (map price_call second_chunk) w1 = (Ok rs2, w2) ->
  (length rs1 <= 200)%nat -> (length rs2 <= 25)%nat ->
  Forall (fun r : Result3 =>
            fst r = true -> 0 < len (snd r) ->
            32 <= len (snd r) /\ from_bytes_big (word_at (snd r) 0) < 2 ^ 64)
         (rs1 ++ rs2) ->
  exists prices st',
    get_all_mark_prices aggregate3 st = (Ok prices, st') /\
    (forall i : nat, (i < 200)%nat ->
       prices !! Z.of_nat i = rs1 !! i ≫= price_of_reply) /\
    (forall i : nat, (i < 25)%nat ->
       prices !! (200 + Z.of_nat i) = rs2 !! i ≫= price_of_reply) /\
    (forall idx, ~ 0 <= idx < 225 -> prices !! idx = None).
Proof.
  intros H1 H2 Hl1 Hl2 Hwf. apply Forall_app in Hwf as [Hwf1 Hwf2].
  destruct NoDup_chunks as [Hnd1 Hnd2].
  destruct (prices_of_results_spec first_chunk rs1 Hnd1) as (p1 & Hp1 & Hin1 & Hout1);
    [unfold first_chunk; rewrite length_range; exact Hl1|exact Hwf1|].
  destruct (prices_of_results_spec second_chunk rs2 Hnd2) as (p2 & Hp2 & Hin2 & Hout2);
    [unfold second_chunk; rewrite length_map, length_range; exact Hl2|exact Hwf2|].
  rewrite (get_all_mark_prices_run aggregate3 st rs1 rs2 w1 w2 p1 p2 H1 H2 Hp1 Hp2).
  eexists _, _. split; [reflexivity|].
  rewrite (right_id_L ∅ (∪) p1).
  split; [|split].
  - intros i Hi. rewrite lookup_union_r.
    + apply Hin1, lookup_first_chunk, Hi.
    + apply Hout2. rewrite elem_of_second_chunk. lia.
  - intros i Hi. rewrite lookup_union.
    rewrite (Hout1 (200 + Z.of_nat i))
      by (rewrite elem_of_first_chunk; lia).
    rewrite (Hin2 i _ (lookup_second_chunk i Hi)).
    destruct (rs2 !! i ≫= price_of_reply); reflexivity.
  - intros idx Hidx. rewrite lookup_union.
    rewrite Hout1 by (rewrite elem_of_first_chunk; lia).
    rewrite Hout2 by (rewrite elem_of_second_chunk; lia).
    reflexivity.
Qed.

End all_mark_prices.

Lemma Forall_sample_prices (indices : list Z) :
  Forall (fun r : Result3 =>
            fst r = true -> 0 < len (snd r) ->
            32 <= len (snd r) /\ from_bytes_big (word_at (snd r) 0) < 2 ^ 64)
         (map sample_reply (map price_call indices)).
Proof.
  apply Forall_forall. intros r Hr.
  apply list_elem_of_fmap in Hr as (c & -> & Hc).
  apply list_elem_of_fmap in Hc as (idx & -> & _).
  unfold sample_reply, price_call.
  destruct (_ mod 3 =? 0); [intros Hs; discriminate Hs|].
  change (0x806 =? 0x800) with false. change (0x806 =? 0x801) with false.
  cbn iota. cbn [fst snd]. intros _ _.
  rewrite len_encode_uint_256. split; [lia|].
  change (word_at (encode_uint_256 ?v) 0) with (take 32 (encode_uint_256 v)).
  destruct (last (encode_uint_256 idx)) as [x|].
  - pose proof (Z_of_byte_range x).
    rewrite take_ge by (rewrite length_encode_uint_256; lia).
    rewrite from_bytes_encode_uint_256 by lia. lia.
  - rewrite take_ge by (rewrite length_encode_uint_256; lia).
    rewrite from_bytes_encode_uint_256 by lia. lia.
Qed.

Lemma get_all_mark_prices_lookup_witness :
  exists prices st',
    get_all_mark_prices sample_node initial_state = (Ok prices, st') /\
    prices !! 7 = Some 107 /\ prices !! 9 = None /\ prices !! 224 = Some 324 /\
    prices !! 225 = None.
Proof.
  destruct (get_all_mark_prices_lookup sample_node initial_state
              (map sample_reply (map price_call first_chunk))
              (map sample_reply (map price_call second_chunk)) tt tt)
    as (prices & st' & Hrun & Hlow & Hhigh & Hout).
  - reflexivity.
  - reflexivity.
  - rewrite !length_map. unfold first_chunk. rewrite length_range. cbn. lia.
  - rewrite !length_map. unfold second_chunk.
    rewrite length_map, length_range. cbn. lia.
  - rewrite <- !map_app. apply Forall_sample_prices.
  - exists prices, st'. split; [exact Hrun|].
    split; [exact (Hlow 7%nat ltac:(lia))|].
    split; [exact (Hlow 9%nat ltac:(lia))|].
    split; [exact (Hhigh 24%nat ltac:(lia))|].
    apply Hout. lia.
Defined.

(** *** Ranges of decoded balances *)

Section balance_ranges.
Context {World : Type}.
Variable aggregate3 : list Call3 -> World -> result (list Result3) * World.

Lemma batch_get_spot_balances_inv (user : address) (token_indices : list Z)
      (st st' : State) (balances : list SpotBalance.t) :
  batch_get_spot_balances aggregate3 user token_indices st = (Ok balances, st') ->
  exists rs, balances = collect (balance_of_result token_indices) rs.
Proof.
  unfold batch_get_spot_balances, bindM, lift, ret, call_aggregate3.
  destruct (to_checksum_address user); [|discriminate].
  destruct (comprehension _ token_indices) as [calls|]; [|discriminate].
  destruct (aggregate3 calls (world st)) as [[rs|] w]; [|discriminate].
  intros H. injection H as <- _. exists rs. reflexivity.
Qed.

Lemma collect_balances_range (token_indices : list Z) (rs : list Result3) :
  Forall (fun b =>
            SpotBalance.token_index b ∈ token_indices /\
            0 <= SpotBalance.total b < 2 ^ 64 /\
            0 <= SpotBalance.hold b < 2 ^ 64 /\
            0 <= SpotBalance.entry_ntl b < 2 ^ 64)
         (collect (balance_of_result token_indices) rs).
Proof.
  apply Forall_forall. intros b Hb.
  apply elem_of_collect in Hb as (i & [success d] & Hr & Hbody).
  rewrite balance_of_result_eq in Hbody.
  destruct (success && (96 <=? len d)
            && (from_bytes_big (word_at d 0) <? 2 ^ 64)
            && (from_bytes_big (word_at d 1) <? 2 ^ 64)
            && (from_bytes_big (word_at d 2) <? 2 ^ 64)) eqn:E; [|discriminate].
  destruct (token_indices !! i) as [idx|] eqn:Hidx; [|discriminate].
  injection Hbody as <-. cbn.
  split; [eapply list_elem_of_lookup_2; exact Hidx|].
  pose proof (from_bytes_big_nonneg (word_at d 0)).
  pose proof (from_bytes_big_nonneg (word_at d 1)).
  pose proof (from_bytes_big_nonneg (word_at d 2)).
  lia.
Qed.

(** X21. Whatever the node replies, every balance that
    [get_all_spot_balances] returns has a token index among 0, ..., 424
    and three amounts in the range of [uint64], and every balance that
    [get_non_zero_balances] returns has a positive total. *)
Theorem balances_in_range (user : address) (st st' : State)
        (balances : list SpotBalance.t) :
  (get_all_spot_balances aggregate3 user st = (Ok balances, st') ->
   Forall (fun b =>
             0 <= SpotBalance.token_index b < 425 /\
             0 <= SpotBalance.total b < 2 ^ 64 /\
             0 <= SpotBalance.hold b < 2 ^ 64 /\
             0 <= SpotBalance.entry_ntl b < 2 ^ 64)
          balances) /\
  (get_non_zero_balances aggregate3 user st = (Ok balances, st') ->
   Forall (fun b => 0 < SpotBalance.total b < 2 ^ 64) balances).
Proof.
  assert (Hall : forall bs st1,
    get_all_spot_balances aggregate3 user st = (Ok bs, st1) ->
    Forall (fun b =>
              0 <= SpotBalance.token_index b < 425 /\
              0 <= SpotBalance.total b < 2 ^ 64 /\
              0 <= SpotBalance.hold b < 2 ^ 64 /\
              0 <= SpotBalance.entry_ntl b < 2 ^ 64) bs).
  { intros bs st1.
    unfold get_all_spot_balances, bindM, lift. rewrite chunk_list_tokens.
    cbn [for_eachM]. unfold bindM, ret.
    destruct (batch_get_spot_balances aggregate3 user (range 300) st)
      as [[bs1|] st2] eqn:H1; [|discriminate].
    destruct (batch_get_spot_balances aggregate3 user
                (map (Z.add 300) (range 125)) st2)
      as [[bs2|] st3] eqn:H2; [|discriminate].
    intros H. injection H as <- _.
    apply batch_get_spot_balances_inv in H1 as [rs1 ->].
    apply batch_get_spot_balances_inv in H2 as [rs2 ->].
    cbn [app]. apply Forall_app. split.
    - eapply Forall_impl; [apply collect_balances_range|].
      intros b (Hidx & Hr). cbv beta. split; [|exact Hr].
      unfold range in Hidx.
      apply list_elem_of_fmap in Hidx as (n & -> & Hn).
      apply elem_of_seq in Hn. lia.
    - eapply Forall_impl; [apply collect_balances_range|].
      intros b (Hidx & Hr). cbv beta. split; [|exact Hr].
      unfold range in Hidx.
      apply list_elem_of_fmap in Hidx as (m & -> & Hm).
      apply list_elem_of_fmap in Hm as (n & -> & Hn).
      apply elem_of_seq in Hn. lia. }
  split; [apply Hall|].
  unfold get_non_zero_balances, bindM, ret.
  destruct (get_all_spot_balances aggregate3 user st) as [[bs|] st1] eqn:Hrun;
    [|discriminate].
  intros H. injection H as <- _.
  specialize (Hall bs st1 eq_refl).
  apply Forall_forall. intros b Hb.
  apply list_elem_of_filter in Hb as [Hnz Hin].
  rewrite Forall_forall in Hall. specialize (Hall b Hin). cbv beta in Hall.
  lia.
Qed.

End balance_ranges.

Lemma balances_in_range_witness :
  exists balances st',
    get_non_zero_balances sample_node 1 initial_state = (Ok balances, st') /\
    Forall (fun b => 0 < SpotBalance.total b < 2 ^ 64) balances.
Proof.
  eexists _, _. split; [vm_compute; reflexivity|].
  match goal with
  | |- Forall _ ?bs =>
      eapply (proj2 (balances_in_range sample_node 1 initial_state _ bs))
  end.
  vm_compute. reflexivity.
Defined.

(** *** Complete answers *)

Lemma kept_all {A : Type} (keep : A -> bool) (indices : list Z) (rs : list A) :
  length rs = length indices ->
  Forall (fun r => keep r = true) rs ->
  kept keep indices rs = indices.
Proof.
  revert rs. induction indices as [|idx indices IH]; intros rs Hl Hk.
  - apply kept_nil_l.
  - destruct rs as [|r rs]; [discriminate Hl|].
    apply Forall_cons in Hk as [Hr Hk].
    rewrite kept_cons, Hr. f_equal. apply IH; [|exact Hk].
    cbn [length] in Hl. lia.
Qed.

Section complete_answers.
Context {World : Type}.
Variable aggregate3 : list Call3 -> World -> result (list Result3) * World.

(** X24. Nothing is dropped from complete answers.  For a valid user
    address, when the node gives one reply per request to both batches
    and a record can be made from every reply, [get_all_positions] returns
    exactly one position per perp index, in the order 0, 1, ..., 224, and
    [get_all_spot_balances] exactly one balance per token index, in the
    order 0, 1, ..., 424. *)
Theorem get_all_complete (user : address) (st : State)
        (rs1 rs2 : list Result3) (w1 w2 : World) :
  is_address user = true ->
  (aggregate3 (map (position_call user) first_chunk) (world st) = (Ok rs1, w1) ->
   aggregate3 (map (position_call user) second_chunk) w1 = (Ok rs2, w2) ->
   length rs1 = 200%nat -> length rs2 = 25%nat ->
   Forall (fun r => position_of_result [0] 0 r <> None) (rs1 ++ rs2) ->
   exists positions st',
     get_all_positions aggregate3 user st = (Ok positions, st') /\
     map Position.perp_index positions = range 225) /\
  (aggregate3 (map (balance_call user) (range 300)) (world st) = (Ok rs1, w1) ->
   aggregate3 (map (balance_call user) (map (Z.add 300) (range 125))) w1
     = (Ok rs2, w2) ->
   length rs1 = 300%nat -> length rs2 = 125%nat ->
   Forall (fun r => balance_of_result [0] 0 r <> None) (rs1 ++ rs2) ->
   exists balances st',
     get_all_spot_balances aggregate3 user st = (Ok balances, st') /\
     map SpotBalance.token_index balances = range 425).
Proof.
  intros Hu. split; intros H1 H2 Hl1 Hl2 Hall;
    apply Forall_app in Hall as [Hall1 Hall2].
  - rewrite (get_all_positions_run aggregate3 user st rs1 rs2 w1 w2 Hu H1 H2).
    eexists _, _. split; [reflexivity|].
    rewrite map_app.
    rewrite !(map_key_collect (fun r => position_of_result [0] 0 r)
                with_index Position.perp_index _ _ _
                (position_of_result_index _) (fun p idx => eq_refl)).
    rewrite !kept_all.
    + apply chunks_cover.
    + rewrite Hl2. reflexivity.
    + eapply Forall_impl; [exact Hall2|]. intros r Hr. cbv beta.
      destruct (position_of_result [0] 0 r) eqn:E; [reflexivity|].
      exfalso. apply Hr. exact E.
    + rewrite Hl1. reflexivity.
    + eapply Forall_impl; [exact Hall1|]. intros r Hr. cbv beta.
      destruct (position_of_result [0] 0 r) eqn:E; [reflexivity|].
      exfalso. apply Hr. exact E.
  - rewrite (get_all_spot_balances_run aggregate3 user st rs1 rs2 w1 w2
               Hu H1 H2).
    eexists _, _. split; [reflexivity|].
    rewrite map_app, !balance_keys, !kept_all.
    + apply tokens_cover.
    + rewrite Hl2. reflexivity.
    + eapply Forall_impl; [exact Hall2|]. intros r Hr. cbv beta.
      destruct (balance_of_result [0] 0 r) eqn:E; [reflexivity|].
      exfalso. apply Hr. exact E.
    + rewrite Hl1. reflexivity.
    + eapply Forall_impl; [exact Hall1|]. intros r Hr. cbv beta.
      destruct (balance_of_result [0] 0 r) eqn:E; [reflexivity|].
      exfalso. apply Hr. exact E.
Qed.

End complete_answers.

Lemma get_all_complete_witness :
  (exists positions st',
     get_all_positions full_node 1 initial_state = (Ok positions, st') /\
     map Position.perp_index positions = range 225) /\
  (exists balances st',
     get_all_spot_balances full_node 1 initial_state = (Ok balances, st') /\
     map SpotBalance.token_index balances = range 425).
Proof.
  destruct (get_all_complete full_node 1 initial_state
              (map full_reply (map (position_call 1) first_chunk))
              (map full_reply (map (position_call 1) second_chunk))
              tt tt eq_refl) as [Hp _].
  destruct (get_all_complete full_node 1 initial_state
              (map full_reply (map (balance_call 1) (range 300)))
              (map full_reply
                 (map (balance_call 1) (map (Z.add 300) (range 125))))
              tt tt eq_refl) as [_ Hb].
  split.
  - apply Hp; try reflexivity.
    rewrite <- !map_app. apply Forall_forall. intros r Hr.
    apply list_elem_of_fmap in Hr as (c & -> & Hc).
    apply list_elem_of_fmap in Hc as (idx & -> & _).
    vm_compute. discriminate.
  - apply Hb; try reflexivity.
    rewrite <- !map_app. apply Forall_forall. intros r Hr.
    apply list_elem_of_fmap in Hr as (c & -> & Hc).
    apply list_elem_of_fmap in Hc as (idx & -> & _).
    vm_compute. discriminate.
Defined.

(** * The transaction senders *)

Import CoreWriterSend CoreWriterSendSpec.

Section senders.
Context {World Key Account ContractCall Tx SignedTx TxHash Receipt : Type}.
Variable w3 : @Web3 World Key Account ContractCall Tx SignedTx TxHash Receipt.

Lemma send_eq (private_key : Key) (a : Action) (st : State) :
  send w3 private_key a st =
  match build a with
  | Ok action_data => send_raw_action w3 private_key action_data st
  | Raise e => (Raise e, st)
  end.
Proof.
  destruct a; cbn [send build];
    unfold send_limit_order, send_vault_transfer, send_token_delegate,
      send_staking_deposit, send_staking_withdraw, send_spot_send,
      send_usd_class_transfer, send_finalize_evm_contract,
      send_add_api_wallet, send_cancel_order_by_oid,
      send_cancel_order_by_cloid, send_approve_builder_fee, send_send_asset,
      send_reflect_evm_supply, send_borrow_lend_op, bindM, lift;
    match goal with
    | |- context [match ?b with Ok _ => _ | Raise _ => _ end] =>
        destruct b; reflexivity
    end.
Qed.

(** X22. Nothing is asked of the node, and nothing is signed, for an
    action that cannot be encoded: with a parameter record that is not
    well typed every [send_*] method raises the exception of its build
    function and leaves the node and the record of requests untouched.
    The same holds when the private key is refused. *)
Theorem send_invalid_makes_no_request (private_key : Key) (a : Action)
        (st : State) :
  (well_typed a = false ->
   exists e, build a = Raise e /\ send w3 private_key a st = (Raise e, st)) /\
  (forall e, from_key w3 private_key = Raise e ->
     exists e', send w3 private_key a st = (Raise e', st)).
Proof.
  split.
  - intros Hwt. rewrite send_eq.
    destruct (build_ok_or_raises a) as [[Hwt' _]|[_ Hr]]; [congruence|].
    destruct (build a) as [|e]; [destruct Hr|].
    exists e. split; reflexivity.
  - intros e He. rewrite send_eq.
    destruct (build a) as [data|e0]; [|exists e0; reflexivity].
    exists e. unfold send_raw_action, bindM, lift. rewrite He. reflexivity.
Qed.

Ltac in_requests H :=
  repeat (apply elem_of_cons in H as [H|H]; [try discriminate H|]);
  try (apply elem_of_nil in H; destruct H).

(** X23. The requests of a sender, whatever web3 and the node do.  The
    requests that one [send_*] call adds are, in kind and order, a prefix
    of: transaction count, gas price, build transaction, send raw
    transaction, wait for receipt; so at most one transaction is sent, and
    nothing is asked again after a failure.  All five are made when the
    call returns.  A transaction is only built for the call of
    [sendRawAction] on the bytes of the build function, from the address
    of the key's account and with a gas limit of 100000; and what is sent
    is the raw form of a transaction signed with the caller's key. *)
Theorem send_requests_follow_script (private_key : Key) (a : Action)
        (st : State) :
  exists new : list request,
    requests (snd (send w3 private_key a st)) = requests st ++ new /\
    map kind_of new `prefix_of` script /\
    (forall res, fst (send w3 private_key a st) = Ok res ->
       map kind_of new = script) /\
    (forall c p, BuildTransaction c p ∈ new ->
       tx_gas p = 100000 /\
       exists action_data account,
         build a = Ok action_data /\
         sendRawAction w3 action_data = Ok c /\
         from_key w3 private_key = Ok account /\
         tx_from p = account_address w3 account) /\
    (forall raw, SendRawTransaction raw ∈ new ->
       exists tx signed_tx,
         sign_transaction w3 tx private_key = Ok signed_tx /\
         raw = raw_transaction w3 signed_tx).
Proof.
  rewrite send_eq.
  assert (Hnil : forall e,
    exists new : list request,
      requests (snd (Raise e : result (@TxResult Receipt), st)) = requests st ++ new /\
      map kind_of new `prefix_of` script /\
      (forall res, fst (Raise e : result (@TxResult Receipt), st) = Ok res ->
         map kind_of new = script) /\
      (forall c p, BuildTransaction c p ∈ new ->
         tx_gas p = 100000 /\
         exists action_data account,
           build a = Ok action_data /\
           sendRawAction w3 action_data = Ok c /\
           from_key w3 private_key = Ok account /\
           tx_from p = account_address w3 account) /\
      (forall raw, SendRawTransaction raw ∈ new ->
         exists tx signed_tx,
           sign_transaction w3 tx private_key = Ok signed_tx /\
           raw = raw_transaction w3 signed_tx)).
  { intros e. exists []. cbn [snd fst map]. rewrite app_nil_r.
    split; [reflexivity|]. split; [apply prefix_nil|].
    split; [discriminate|].
    split; [intros c p H|intros raw H]; apply elem_of_nil in H; destruct H. }
  destruct (build a) as [action_data|e] eqn:Hbuild; [|apply Hnil].
  unfold send_raw_action, bindM, lift, rpc, ret.
  destruct (from_key w3 private_key) as [account|e] eqn:Hkey; [|apply Hnil].
  destruct (sendRawAction w3 action_data) as [call|e] eqn:Hcall; [|apply Hnil].
  clear Hnil. cbn [world requests].
  destruct (get_transaction_count w3 (account_address w3 account) (world st))
    as [[nonce|e] w1].
  2:{ eexists. cbn [snd fst]. split; [reflexivity|].
      split; [eexists; reflexivity|]. split; [discriminate|].
      split; [intros c p H|intros raw H]; in_requests H. }
  cbn [world requests].
  destruct (gas_price w3 w1) as [[gasPrice|e] w2].
  2:{ eexists. cbn [snd fst requests]. rewrite <- app_assoc.
      split; [reflexivity|].
      split; [eexists; reflexivity|]. split; [discriminate|].
      split; [intros c p H|intros raw H]; in_requests H. }
  cbn [world requests].
  destruct (build_transaction w3 call _ w2) as [[tx|e] w3'].
  2:{ eexists. cbn [snd fst requests]. rewrite <- !app_assoc.
      split; [reflexivity|].
      split; [eexists; reflexivity|]. split; [discriminate|].
      split; [intros c p H|intros raw H]; in_requests H.
      injection H as -> ->. split; [reflexivity|].
      exists action_data, account. auto. }
  destruct (sign_transaction w3 tx private_key) as [signed_tx|e] eqn:Hsign.
  2:{ eexists. cbn [snd fst requests]. rewrite <- !app_assoc.
      split; [reflexivity|].
      split; [eexists; reflexivity|]. split; [discriminate|].
      split; [intros c p H|intros raw H]; in_requests H.
      injection H as -> ->. split; [reflexivity|].
      exists action_data, account. auto. }
  cbn [world requests].
  destruct (send_raw_transaction w3 (raw_transaction w3 signed_tx) w3')
    as [[tx_hash|e] w4].
  2:{ eexists. cbn [snd fst requests]. rewrite <- !app_assoc.
      split; [reflexivity|].
      split; [eexists; reflexivity|]. split; [discriminate|].
      split; [intros c p H|intros raw H]; in_requests H.
      - injection H as -> ->. split; [reflexivity|].
        exists action_data, account. auto.
      - injection H as ->. exists tx, signed_tx. auto. }
  cbn [world requests].
  destruct (wait_for_transaction_receipt w3 tx_hash w4) as [[rc|e] w5].
  2:{ eexists. cbn [snd fst requests]. rewrite <- !app_assoc.
      split; [reflexivity|].
      split; [eexists; reflexivity|]. split; [discriminate|].
      split; [intros c p H|intros raw H]; in_requests H.
      - injection H as -> ->. split; [reflexivity|].
        exists action_data, account. auto.
      - injection H as ->. exists tx, signed_tx. auto. }
  eexists. cbn [snd fst requests]. rewrite <- !app_assoc.
  split; [reflexivity|].
  split; [eexists; reflexivity|]. split; [reflexivity|].
  split; [intros c p H|intros raw H]; in_requests H.
  - injection H as -> ->. split; [reflexivity|].
    exists action_data, account. auto.
  - injection H as ->. exists tx, signed_tx. auto.
Qed.

End senders.

Lemma send_invalid_makes_no_request_witness :
  (exists e,
     send sample_web3 5
          (CancelOrderByOid (CancelOrderByOidParams.mk (2 ^ 32) 1))
          (mkState 0 [])
     = (Raise e, mkState 0 [])) /\
  (exists e,
     send sample_web3 0
          (CancelOrderByOid (CancelOrderByOidParams.mk 7 1)) (mkState 0 [])
     = (Raise e, mkState 0 [])).
Proof.
  split.
  - destruct (send_invalid_makes_no_request sample_web3 5
                (CancelOrderByOid (CancelOrderByOidParams.mk (2 ^ 32) 1))
                (mkState 0 [])) as [H _].
    destruct (H eq_refl) as (e & _ & Hs). exists e. exact Hs.
  - destruct (send_invalid_makes_no_request sample_web3 0
                (CancelOrderByOid (CancelOrderByOidParams.mk 7 1))
                (mkState 0 [])) as [_ H].
    exact (H ValueError eq_refl).
Defined.

Lemma send_requests_follow_script_witness :
  (exists new : list request,
     requests (snd (send sample_web3 5
                      (CancelOrderByOid (CancelOrderByOidParams.mk 7 1))
                      (mkState 0 []))) = new /\
     map kind_of new = script) /\
  (exists new : list request,
     requests (snd (send refusing_web3 5
                      (CancelOrderByOid (CancelOrderByOidParams.mk 7 1))
                      (mkState 0 []))) = new /\
     map kind_of new `prefix_of` script).
Proof.
  split.
  - destruct (send_requests_follow_script sample_web3 5
                (CancelOrderByOid (CancelOrderByOidParams.mk 7 1))
                (mkState 0 [])) as (new & Hreq & _ & Hok & _).
    exists new. split; [exact Hreq|].
    eapply Hok. vm_compute. reflexivity.
  - destruct (send_requests_follow_script refusing_web3 5
                (CancelOrderByOid (CancelOrderByOidParams.mk 7 1))
                (mkState 0 [])) as (new & Hreq & Hpre & _).
    exists new. split; [exact Hreq|exact Hpre].
Defined.
